(** * StructuredToMemref: lowering of structured pointers to buffer views

    A shallow embedding of [lib/Conversion/StructuredToMemref/StructuredToMemref.cpp]:
    the three conversion patterns [MakeTensorPtrConverter], [LoadConverter] and
    [StoreConverter], the operations they create through the rewriter, and a
    semantics of the created operations (64-bit index arithmetic, strided
    buffer views over a flat address space, copy and fill). *)

From Stdlib Require Import ZArith List Lia Bool String.
Import ListNotations.
Local Open Scope Z_scope.

Set Warnings "-register-all".

(** ** Machine integers *)

(** [int64_t] and the MLIR [index] type: two's complement, 64 bits. *)
Definition wrap64 (z : Z) : Z :=
  (z + 9223372036854775808) mod 18446744073709551616 - 9223372036854775808.

(** [int]: two's complement, 32 bits ([auto accumulate = 1]). *)
Definition wrap32 (z : Z) : Z :=
  (z + 2147483648) mod 4294967296 - 2147483648.

Definition in_int64 (z : Z) : Prop :=
  -9223372036854775808 <= z < 9223372036854775808.

Definition in_int32 (z : Z) : Prop :=
  -2147483648 <= z < 2147483648.

(** [ShapedType::kDynamic]. *)
Definition kDynamic : Z := -9223372036854775808.

(** ** Values of the IR

    An SSA [Value] is represented by the operation that defines it, applied to
    its operands; operations without side effects are thereby identified with
    their results.  [BlockArgument n] stands for a value defined outside the
    rewritten operation (a function argument, a loop variable, the converted
    base pointer). *)

Inductive Value : Type :=
| BlockArgument (n : nat)
  (* arith *)
| ConstantOp (c : Z)                       (* arith.constant : index *)
| ConstantBoolOp (b : bool)                (* arith.constant : i1 *)
| AddIOp (lhs rhs : Value)
| SubIOp (lhs rhs : Value)
| RemSIOp (lhs rhs : Value)
| DivSIOp (lhs rhs : Value)
| MinSIOp (lhs rhs : Value)
| CmpIOp_slt (lhs rhs : Value)             (* arith.cmpi slt *)
| OrIOp (lhs rhs : Value)
  (* memref *)
| DimOp (source : Value) (index : nat)
| AllocOp (id : nat) (shape : list Z)
| ReinterpretCastOp (resultType : MemRefType) (source : Value)
                    (offset : OpFoldResult) (sizes strides : list OpFoldResult)
| SubViewOp (source : Value) (offsets sizes strides : list OpFoldResult)
  (* tensor, bufferization, builtin *)
| ExtractSliceOp (source : Value) (offsets sizes strides : list OpFoldResult)
| ToTensorOp (memref : Value) (restrict writable : bool)
| UnrealizedConversionCastOp (operands : list Value) (attrs : list string)

with OpFoldResult : Type :=
| Attr (i : Z)                             (* an IntegerAttr of index type *)
| Val (v : Value)

with MemRefType : Type :=
| MkMemRefType (shape : list Z) (elemType : nat)
               (layoutOffset : Z) (layoutStrides : list Z).

(** Operations in the order the rewriter creates them.  An operation with a
    result is listed as [Def] of the value it defines. *)
Inductive Operation : Type :=
| Def (result : Value)
| CopyOp (source target : Value)                     (* memref.copy *)
| FillOp (input output : Value)                      (* linalg.fill *)
| IfOp (condition : Value) (thenRegion : list Operation)   (* scf.if *)
| YieldOp                                            (* scf.yield *)
| MaterializeInDestinationOp (source dest : Value) (writable : bool).

Definition Location : Type := nat.

Inductive LogicalResult : Type := success | failure.

(** What the rewriter did to existing operations: the operation being
    converted is named by its location, an operand's defining operation by
    the value it defines. *)
Inductive Rewrite : Type :=
| ReplaceOp (op : Location) (newValue : Value)
| EraseOp (op : Location)
| EraseDefiningOp (v : Value).

(** ** The rewriter

    State of the [ConversionPatternRewriter] as the patterns see it: the
    operations created so far, the diagnostics emitted, and the operations
    replaced or erased. *)
Record RewriterState : Type := {
  created : list Operation;
  diagnostics : list (Location * string);
  rewrites : list Rewrite
}.

Definition emptyState : RewriterState :=
  {| created := []; diagnostics := []; rewrites := [] |}.

(** A rewriter action either aborts ([None]: a failed [assert],
    [llvm_unreachable], an out-of-range subscript) or returns a result and
    the new state. *)
Definition M (A : Type) : Type := RewriterState -> option (A * RewriterState).

Definition ret {A} (a : A) : M A := fun s => Some (a, s).

Definition bind {A B} (m : M A) (k : A -> M B) : M B :=
  fun s => match m s with
           | Some (a, s') => k a s'
           | None => None
           end.

Notation "x <- m ;; k" := (bind m (fun x => k))
  (at level 61, m at next level, right associativity).
Notation "m ;;; k" := (bind m (fun _ => k))
  (at level 61, right associativity).

Definition abort {A} : M A := fun _ => None.

Definition assert (b : bool) : M unit := if b then ret tt else abort.

(** [rewriter.create<Op>(...)] for an operation without result. *)
Definition emit (op : Operation) : M unit :=
  fun s => Some (tt, {| created := created s ++ [op];
                        diagnostics := diagnostics s;
                        rewrites := rewrites s |}).

(** [rewriter.create<Op>(...)] for an operation with one result. *)
Definition create (v : Value) : M Value :=
  emit (Def v) ;;; ret v.

(** [rewriter.create<memref::AllocOp>]: every allocation is a buffer of its
    own, named by its position among the created operations. *)
Definition createAlloc (shape : list Z) : M Value :=
  fun s => create (AllocOp (List.length (created s)) shape) s.

Definition emitError (loc : Location) (msg : string) : M unit :=
  fun s => Some (tt, {| created := created s;
                        diagnostics := diagnostics s ++ [(loc, msg)];
                        rewrites := rewrites s |}).

Definition rewrite (r : Rewrite) : M unit :=
  fun s => Some (tt, {| created := created s;
                        diagnostics := diagnostics s;
                        rewrites := rewrites s ++ [r] |}).

Definition replaceOp (loc : Location) (v : Value) : M unit :=
  rewrite (ReplaceOp loc v).

Definition eraseOp (loc : Location) : M unit :=
  rewrite (EraseOp loc).

Definition eraseDefiningOp (v : Value) : M unit :=
  rewrite (EraseDefiningOp v).

(** Subscript on an [ArrayRef]; out of range is an assertion failure. *)
Definition at_ {A} (l : list A) (i : nat) : M A :=
  match nth_error l i with
  | Some a => ret a
  | None => abort
  end.

Fixpoint foldM {A B} (f : A -> B -> M A) (l : list B) (a : A) : M A :=
  match l with
  | [] => ret a
  | b :: l' => a' <- f a b ;; foldM f l' a'
  end.

Fixpoint mapM {A B} (f : A -> M B) (l : list A) : M (list B) :=
  match l with
  | [] => ret []
  | a :: l' => b <- f a ;; bs <- mapM f l' ;; ret (b :: bs)
  end.

(** ** OpFoldResultUtils *)

(** Modelled from the spec: [getIntAttr] of [OpFoldResultUtils] (not among the
    sources): the compile-time integer of a mixed static/dynamic quantity,
    if it is static. *)
Definition getIntAttr (ofr : OpFoldResult) : option Z :=
  match ofr with
  | Attr i => Some i
  | Val _ => None
  end.

(** Modelled from the spec: [ofrToIndexValue] of [OpFoldResultUtils]: a
    dynamic quantity is its value, a static one is materialised as a
    constant. *)
Definition ofrToIndexValue (ofr : OpFoldResult) : M Value :=
  match ofr with
  | Val v => ret v
  | Attr i => create (ConstantOp i)
  end.

(** Modelled from the spec: [ofrsToIndexValues] of [OpFoldResultUtils]. *)
Definition ofrsToIndexValues (ofrs : list OpFoldResult) : M (list Value) :=
  mapM ofrToIndexValue ofrs.

(** Modelled from the spec: [addOFRs] of [OpFoldResultUtils]: fold-or-emit
    addition of two mixed static/runtime index quantities, static when both
    operands are static. *)
Definition addOFRs (lhs rhs : OpFoldResult) : M OpFoldResult :=
  match getIntAttr lhs, getIntAttr rhs with
  | Some l, Some r => ret (Attr (wrap64 (l + r)))
  | _, _ =>
      lhsValue <- ofrToIndexValue lhs ;;
      rhsValue <- ofrToIndexValue rhs ;;
      sum <- create (AddIOp lhsValue rhsValue) ;;
      ret (Val sum)
  end.

(** Modelled from the spec: [subOFRs] of [OpFoldResultUtils], the subtract
    variant of [addOFRs]. *)
Definition subOFRs (lhs rhs : OpFoldResult) : M OpFoldResult :=
  match getIntAttr lhs, getIntAttr rhs with
  | Some l, Some r => ret (Attr (wrap64 (l - r)))
  | _, _ =>
      lhsValue <- ofrToIndexValue lhs ;;
      rhsValue <- ofrToIndexValue rhs ;;
      diff <- create (SubIOp lhsValue rhsValue) ;;
      ret (Val diff)
  end.

(** Modelled from the spec: [minOFRs] of [OpFoldResultUtils], the min variant
    of [addOFRs]. *)
Definition minOFRs (lhs rhs : OpFoldResult) : M OpFoldResult :=
  match getIntAttr lhs, getIntAttr rhs with
  | Some l, Some r => ret (Attr (Z.min l r))
  | _, _ =>
      lhsValue <- ofrToIndexValue lhs ;;
      rhsValue <- ofrToIndexValue rhs ;;
      m <- create (MinSIOp lhsValue rhsValue) ;;
      ret (Val m)
  end.

(** [dispatchIndexOpFoldResults]: the static part of a mixed list, with
    [kDynamic] in place of every dynamic entry, and the dynamic entries. *)
Definition staticPart (ofrs : list OpFoldResult) : list Z :=
  map (fun ofr => match ofr with Attr i => i | Val _ => kDynamic end) ofrs.

Fixpoint dynamicPart (ofrs : list OpFoldResult) : list Value :=
  match ofrs with
  | [] => []
  | Attr _ :: l => dynamicPart l
  | Val v :: l => v :: dynamicPart l
  end.

(** ** Semantics of the created operations *)

(** A buffer is either one that exists before the rewritten operation runs
    (the memory a base pointer refers to) or one made by an [AllocOp]. *)
Inductive Buffer : Type :=
| BaseBuffer (n : nat)
| AllocBuffer (id : nat).

Definition Buffer_eqb (a b : Buffer) : bool :=
  match a, b with
  | BaseBuffer n, BaseBuffer m => Nat.eqb n m
  | AllocBuffer n, AllocBuffer m => Nat.eqb n m
  | _, _ => false
  end.

(** A buffer view: base, scalar offset, sizes and strides. *)
Record View : Type := {
  v_buffer : Buffer;
  v_offset : Z;
  v_sizes : list Z;
  v_strides : list Z
}.

(** The values of the block arguments: index values, the views of incoming
    memrefs, and scalars (elements are integers). *)
Record Env : Type := {
  indexOf : nat -> Z;
  viewOf : nat -> View;
  scalarOf : nat -> Z
}.

Fixpoint prod (l : list Z) : Z :=
  match l with
  | [] => 1
  | a :: l' => a * prod l'
  end.

(** Strides of the identity (row-major, dense) layout of a shape. *)
Fixpoint rowMajorStrides (shape : list Z) : list Z :=
  match shape with
  | [] => []
  | _ :: shape' => prod shape' :: rowMajorStrides shape'
  end.

(** Sum of the products of corresponding entries. *)
Fixpoint dot (a b : list Z) : Z :=
  match a, b with
  | x :: a', y :: b' => x * y + dot a' b'
  | _, _ => 0
  end.

Fixpoint zipMul (a b : list Z) : list Z :=
  match a, b with
  | x :: a', y :: b' => x * y :: zipMul a' b'
  | _, _ => []
  end.

Definition Zbool (b : bool) : Z := if b then 1 else 0.

(** [arith.remsi] and [arith.divsi] round towards zero ([Z.rem], [Z.quot]);
    a zero divisor is undefined behaviour of the created code and is given
    the value the Standard Library gives it. *)
Fixpoint evalIndex (env : Env) (v : Value) {struct v} : Z :=
  match v with
  | BlockArgument n => indexOf env n
  | ConstantOp c => c
  | ConstantBoolOp b => Zbool b
  | AddIOp a b => wrap64 (evalIndex env a + evalIndex env b)
  | SubIOp a b => wrap64 (evalIndex env a - evalIndex env b)
  | RemSIOp a b => Z.rem (evalIndex env a) (evalIndex env b)
  | DivSIOp a b => wrap64 (Z.quot (evalIndex env a) (evalIndex env b))
  | MinSIOp a b => Z.min (evalIndex env a) (evalIndex env b)
  | CmpIOp_slt a b => Zbool (evalIndex env a <? evalIndex env b)
  | OrIOp a b => Z.lor (evalIndex env a) (evalIndex env b)
  | DimOp m i => nth i (v_sizes (evalMemRef env m)) 0
  | _ => 0
  end

with evalMemRef (env : Env) (v : Value) {struct v} : View :=
  match v with
  | BlockArgument n => viewOf env n
  | AllocOp id shape =>
      {| v_buffer := AllocBuffer id; v_offset := 0;
         v_sizes := shape; v_strides := rowMajorStrides shape |}
  | ReinterpretCastOp _ source offset sizes strides =>
      {| v_buffer := v_buffer (evalMemRef env source);
         v_offset := evalOFR env offset;
         v_sizes := map (evalOFR env) sizes;
         v_strides := map (evalOFR env) strides |}
  | SubViewOp source offsets sizes strides =>
      let src := evalMemRef env source in
      {| v_buffer := v_buffer src;
         v_offset := v_offset src + dot (map (evalOFR env) offsets) (v_strides src);
         v_sizes := map (evalOFR env) sizes;
         v_strides := zipMul (v_strides src) (map (evalOFR env) strides) |}
  | _ => {| v_buffer := BaseBuffer 0; v_offset := 0; v_sizes := []; v_strides := [] |}
  end

with evalOFR (env : Env) (ofr : OpFoldResult) {struct ofr} : Z :=
  match ofr with
  | Attr i => i
  | Val v => evalIndex env v
  end.

(** ** The operations of the structured dialect *)

Definition WRAP_SIDE_BY_SIDE : string := "wrap_side_by_side".
Definition WRAP_STACKED : string := "wrap_stacked".

(** [tts.make_tptr].  The three kind predicates are declared by the dialect,
    not in [StructuredToMemref.cpp], and are taken as given: nothing is
    assumed about how they relate to each other or to the other fields. *)
Module MakeTensorPtrOp.
Record t : Type := {
  getLoc : Location;
  getBase : Value;                       (* adaptor.getBase() *)
  getSizes : list Z;
  getMixedStrides : list OpFoldResult;
  getMixedOffsets : list OpFoldResult;
  getMixedShape : list OpFoldResult;
  getOrder : list Z;
  getTypeShape : list Z;                 (* the shape in op.getType() *)
  getTypeElement : nat;                  (* the element type in op.getType() *)
  isBlockPtr : bool;
  isStructuredPtr : bool;
  isSplitPtr : bool
}.

Definition getMixedSizes (op : t) : list OpFoldResult :=
  map Attr (getSizes op).

Definition getStaticShape (op : t) : list Z :=
  staticPart (getMixedShape op).

(** The dynamic operands of the [shape] field. *)
Definition getShape (op : t) : list Value :=
  dynamicPart (getMixedShape op).
End MakeTensorPtrOp.

(** [llvm::is_sorted(range, std::greater<>())]: no element is greater than
    the one before it. *)
Fixpoint is_sorted_greater (l : list Z) : bool :=
  match l with
  | [] => true
  | a :: l' =>
      match l' with
      | [] => true
      | b :: _ => negb (b >? a) && is_sorted_greater l'
      end
  end.

(** ** MakeTensorPtrConverter *)
Module MakeTensorPtrConverter.
Import MakeTensorPtrOp.

Definition getElementTypeStructuredPtr (op : t) : nat := getTypeElement op.

Definition getElementTypeBlockPtr (op : t) : nat := getTypeElement op.

Definition getResultMemrefType (op : t) (offset : Z)
    (staticStrides resultShape : list Z) : MemRefType :=
  let elemType :=
    if isBlockPtr op then getElementTypeBlockPtr op
    else getElementTypeStructuredPtr op in
  MkMemRefType resultShape elemType offset staticStrides.

(** One iteration of the loop of [getMixedStridesForMemref]; [accumulate]
    is an [int], [size] an [int64_t]. *)
Definition stridesStep (acc : list OpFoldResult * Z) (d : Z * OpFoldResult)
    : list OpFoldResult * Z :=
  let '(strides, accumulate) := acc in
  let '(size, stride) := d in
  let strides' :=
    match getIntAttr stride with
    | Some strideInt =>
        if (size =? 1) && (strideInt =? 0)
        then strides ++ [Attr accumulate]
        else strides ++ [stride]
    | None => strides ++ [stride]
    end in
  (strides', wrap32 (wrap64 (accumulate * size))).

(** The loop runs over the zipped sizes and strides, which have the same
    length (the rank), from the last dimension to the first. *)
Definition getMixedStridesForMemref (op : t) : list OpFoldResult :=
  let '(strides, _) :=
    fold_left stridesStep
              (rev (combine (getSizes op) (getMixedStrides op)))
              ([], 1) in
  rev strides.

Definition accumulateTargetOffset (op : t) : M OpFoldResult :=
  foldM (fun targetOffset o => addOFRs targetOffset o)
        (getMixedOffsets op) (Attr 0).

Definition createSideBySideCastOps (op : t) : M (Value * Value) :=
  let resultShape := getTypeShape op in
  ofr <- accumulateTargetOffset op ;;
  targetOffset <- ofrToIndexValue ofr ;;
  let resultType :=
    getResultMemrefType op kDynamic
      (repeat kDynamic (List.length resultShape)) [kDynamic; kDynamic] in
  size0 <- at_ (getSizes op) 0 ;;
  rowSize <- create (ConstantOp size0) ;;
  size1 <- at_ (getSizes op) 1 ;;
  colSize <- create (ConstantOp size1) ;;
  shape1 <- at_ (getMixedShape op) 1 ;;
  modN <- ofrToIndexValue shape1 ;;
  x <- create (RemSIOp targetOffset modN) ;;
  y <- create (SubIOp targetOffset x) ;;
  strideVals <- ofrsToIndexValues (getMixedStrides op) ;;
  (* First chunk *)
  nextOffset <- create (AddIOp x colSize) ;;
  clampedOffset <- create (MinSIOp nextOffset modN) ;;
  d1 <- create (SubIOp clampedOffset x) ;;
  let sizes1 := [rowSize; d1] in
  cast1 <- create (ReinterpretCastOp resultType (getBase op)
                     (Val targetOffset) (map Val sizes1) (map Val strideVals)) ;;
  (* Second chunk *)
  d2 <- create (SubIOp colSize d1) ;;
  let sizes2 := [rowSize; d2] in
  cast2 <- create (ReinterpretCastOp resultType (getBase op)
                     (Val y) (map Val sizes2) (map Val strideVals)) ;;
  ret (cast1, cast2).

Definition createStackedCastOps (op : t) : M (Value * Value) :=
  let resultShape := getTypeShape op in
  assert (Nat.eqb (List.length resultShape) 2) ;;;
  ofr <- accumulateTargetOffset op ;;
  targetOffset <- ofrToIndexValue ofr ;;
  let resultType :=
    getResultMemrefType op kDynamic
      (repeat kDynamic (List.length resultShape)) [kDynamic; kDynamic] in
  size0 <- at_ (getSizes op) 0 ;;
  rowSize <- create (ConstantOp size0) ;;
  size1 <- at_ (getSizes op) 1 ;;
  colSize <- create (ConstantOp size1) ;;
  stride0 <- at_ (getMixedStrides op) 0 ;;
  strideRow <- ofrToIndexValue stride0 ;;
  stride1 <- at_ (getMixedStrides op) 1 ;;
  strideCol <- ofrToIndexValue stride1 ;;
  modRow <- at_ (getShape op) 0 ;;
  (* First chunk *)
  wrappedAroundOff <- create (RemSIOp targetOffset strideRow) ;;
  clampedOff <- create (AddIOp modRow wrappedAroundOff) ;;
  d1 <- create (SubIOp clampedOff targetOffset) ;;
  d1 <- create (DivSIOp d1 strideRow) ;;
  let sizes1 := [d1; colSize] in
  cast1 <- create (ReinterpretCastOp resultType (getBase op)
                     (Val targetOffset) (map Val sizes1)
                     (map Val [strideRow; strideCol])) ;;
  (* Second chunk *)
  d2 <- create (SubIOp rowSize d1) ;;
  let sizes2 := [d2; colSize] in
  cast2 <- create (ReinterpretCastOp resultType (getBase op)
                     (Val wrappedAroundOff) (map Val sizes2)
                     (map Val [strideRow; strideCol])) ;;
  ret (cast1, cast2).

(** The wrap attribute is set on the combined cast right after it is
    created; the cast is listed with the attribute already in place. *)
Definition rewriteSplitPtr (op : t) : M LogicalResult :=
  let parentShape := getStaticShape op in
  parentShape0 <- at_ parentShape 0 ;;
  r <- (if parentShape0 =? kDynamic then
          (* Stacked case *)
          parentShape1 <- at_ parentShape 1 ;;
          assert (parentShape1 =? 0) ;;;
          c <- createStackedCastOps op ;;
          ret ([fst c; snd c], WRAP_STACKED)
        else
          assert (parentShape0 =? 0) ;;;
          c <- createSideBySideCastOps op ;;
          ret ([fst c; snd c], WRAP_SIDE_BY_SIDE)) ;;
  let '(casts, wrapType) := r in
  combinedCast <- create (UnrealizedConversionCastOp casts [wrapType]) ;;
  replaceOp (getLoc op) combinedCast ;;;
  ret success.

Definition rewritePtr (resultShape : list Z) (isBlockPtr : bool) (op : t)
    : M LogicalResult :=
  let mixedStrides := getMixedStridesForMemref op in
  let staticStrides := staticPart mixedStrides in
  targetOffset <- accumulateTargetOffset op ;;
  let staticTargetOffset := getIntAttr targetOffset in
  let resultType :=
    getResultMemrefType op
      (match staticTargetOffset with Some o => o | None => kDynamic end)
      staticStrides resultShape in
  castOp <- create (ReinterpretCastOp resultType (getBase op) targetOffset
                      (getMixedSizes op) mixedStrides) ;;
  replaceOp (getLoc op) castOp ;;;
  ret success.

Definition rewriteStructuredPtr (op : t) : M LogicalResult :=
  let resultShape := getTypeShape op in
  rewritePtr resultShape false op.

Definition rewriteBlockPtr (op : t) : M LogicalResult :=
  let resultShape := getTypeShape op in
  rewritePtr resultShape true op.

Definition matchAndRewrite (op : t) : M LogicalResult :=
  if negb (is_sorted_greater (getOrder op)) then
    emitError (getLoc op)
      "non-decreasing dimension order on tensor pointers are not yet supported" ;;;
    ret failure
  else if isBlockPtr op then rewriteBlockPtr op
  else if isStructuredPtr op then rewriteStructuredPtr op
  else if isSplitPtr op then rewriteSplitPtr op
  else ret failure.
End MakeTensorPtrConverter.

(** [tts.load]. *)
Module LoadOp.
Record t : Type := {
  getLoc : Location;
  getPtr : Value;                        (* adaptor.getPtr() *)
  getTypeShape : list Z;                 (* the shape of the loaded tensor *)
  getTypeElement : nat;
  hasMask : bool;
  getMixedMaskDims : list OpFoldResult;
  getOther : option Value
}.

Definition getStaticMaskDims (op : t) : list Z :=
  staticPart (getMixedMaskDims op).
End LoadOp.

(** [tts.store]. *)
Module StoreOp.
Record t : Type := {
  getLoc : Location;
  getPtr : Value;                        (* adaptor.getPtr() *)
  getValue : Value;
  getValueRank : nat;                    (* rank of the stored tensor *)
  hasMask : bool;
  getMixedMaskDims : list OpFoldResult
}.
End StoreOp.

(** [Value::getDefiningOp]: null for a block argument. *)
Definition getDefiningOp (v : Value) : option Value :=
  match v with
  | BlockArgument _ => None
  | _ => Some v
  end.

(** Attributes are only ever set on the combined casts. *)
Definition hasAttr (name : string) (definingOp : Value) : bool :=
  match definingOp with
  | UnrealizedConversionCastOp _ attrs => existsb (String.eqb name) attrs
  | _ => false
  end.

(** [cast<UnrealizedConversionCastOp>(op).getOperands()]. *)
Definition castOperands (definingOp : Value) : M (list Value) :=
  match definingOp with
  | UnrealizedConversionCastOp operands _ => ret operands
  | _ => abort
  end.

(** [isa<MemRefType>(v.getType())], as far as the defining operation tells. *)
Definition isMemRef (v : Value) : bool :=
  match v with
  | BlockArgument _ | AllocOp _ _ | ReinterpretCastOp _ _ _ _ _
  | SubViewOp _ _ _ _ => true
  | _ => false
  end.

Definition getSubview (rank : nat) (dims : list OpFoldResult) (source : Value)
    : M Value :=
  assert (isMemRef source) ;;;
  let offsets := repeat (Attr 0) rank in
  let strides := repeat (Attr 1) rank in
  create (SubViewOp source offsets dims strides).

(** ** LoadConverter *)
Module LoadConverter.
Import LoadOp.

Definition createSideBySideCopies (block1 block2 dst : Value) : M unit :=
  zero <- create (ConstantOp 0) ;;
  one <- create (ConstantOp 1) ;;
  block1Row <- create (DimOp block1 0) ;;
  block1Col <- create (DimOp block1 1) ;;
  block2Row <- create (DimOp block2 0) ;;
  block2Col <- create (DimOp block2 1) ;;
  block1Dst <- create (SubViewOp dst (map Val [zero; zero])
                         (map Val [block1Row; block1Col])
                         (map Val [one; one])) ;;
  block2Dst <- create (SubViewOp dst (map Val [zero; block1Col])
                         (map Val [block2Row; block2Col])
                         (map Val [one; one])) ;;
  emit (CopyOp block1 block1Dst) ;;;
  emit (CopyOp block2 block2Dst).

Definition createStackedCopies (block1 block2 dst : Value) : M unit :=
  zero <- create (ConstantOp 0) ;;
  one <- create (ConstantOp 1) ;;
  block1Row <- create (DimOp block1 0) ;;
  block1Col <- create (DimOp block1 1) ;;
  block2Row <- create (DimOp block2 0) ;;
  block2Col <- create (DimOp block2 1) ;;
  block1Dst <- create (SubViewOp dst (map Val [zero; zero])
                         (map Val [block1Row; block1Col])
                         (map Val [one; one])) ;;
  block2Dst <- create (SubViewOp dst (map Val [block1Row; zero])
                         (map Val [block2Row; block2Col])
                         (map Val [one; one])) ;;
  emit (CopyOp block1 block1Dst) ;;;
  emit (CopyOp block2 block2Dst).

Definition createSubview (src : Value) (offsets sizes strides : list OpFoldResult)
    : M Value :=
  assert (isMemRef src) ;;;
  create (SubViewOp src offsets sizes strides).

Definition getSideBySideSubviews (dims : list OpFoldResult)
    (block1 block2 : Value) : M (Value * Value) :=
  subviewRowFull <- at_ dims 0 ;;
  subviewColFull <- at_ dims 1 ;;
  col1 <- create (DimOp block1 1) ;;
  subviewCol1 <- minOFRs (Val col1) subviewColFull ;;
  subviewCol2 <- subOFRs subviewColFull subviewCol1 ;;
  let offsets := repeat (Attr 0) (List.length dims) in
  let strides := repeat (Attr 1) (List.length dims) in
  sv1 <- createSubview block1 offsets [subviewRowFull; subviewCol1] strides ;;
  sv2 <- createSubview block2 offsets [subviewRowFull; subviewCol2] strides ;;
  ret (sv1, sv2).

Definition getStackedSubviews (dims : list OpFoldResult)
    (block1 block2 : Value) : M (Value * Value) :=
  subviewRowFull <- at_ dims 0 ;;
  subviewColFull <- at_ dims 1 ;;
  row1 <- create (DimOp block1 0) ;;
  subviewRow1 <- minOFRs (Val row1) subviewRowFull ;;
  subviewRow2 <- subOFRs subviewRowFull subviewRow1 ;;
  let offsets := repeat (Attr 0) (List.length dims) in
  let strides := repeat (Attr 1) (List.length dims) in
  sv1 <- createSubview block1 offsets [subviewRow1; subviewColFull] strides ;;
  sv2 <- createSubview block2 offsets [subviewRow2; subviewColFull] strides ;;
  ret (sv1, sv2).

Definition rewriteStructuredLoad (op : t) : M LogicalResult :=
  assert (negb (hasMask op)) ;;;
  let ptr := getPtr op in
  let other := getOther op in
  alloc <- createAlloc (getTypeShape op) ;;
  (* No mask *)
  assert (match other with None => true | Some _ => false end) ;;;
  ptrDefiningOp <- (match getDefiningOp ptr with
                    | Some d => ret d
                    | None => abort
                    end) ;;
  (if hasAttr WRAP_SIDE_BY_SIDE ptrDefiningOp || hasAttr WRAP_STACKED ptrDefiningOp
   then
     memrefs <- castOperands ptrDefiningOp ;;
     assert (Nat.eqb (List.length memrefs) 2) ;;;
     block1 <- at_ memrefs 0 ;;
     block2 <- at_ memrefs 1 ;;
     if hasAttr WRAP_SIDE_BY_SIDE ptrDefiningOp then
       createSideBySideCopies block1 block2 alloc
     else if hasAttr WRAP_STACKED ptrDefiningOp then
       createStackedCopies block1 block2 alloc
     else abort
   else
     emit (CopyOp ptr alloc)) ;;;
  tensor <- create (ToTensorOp alloc true true) ;;
  replaceOp (getLoc op) tensor ;;;
  ret success.

(** One iteration of the or-accumulation over the dimensions. *)
Definition fillConditionStep (op : t) (mixedDims : list OpFoldResult)
    (accBase : Value) (i : nat) : M Value :=
  shape_i <- at_ (getTypeShape op) i ;;
  shapei <- create (ConstantOp shape_i) ;;
  mixedDim_i <- at_ mixedDims i ;;
  dimi <- (match mixedDim_i with
           | Val v => ret v
           | Attr _ =>
               static_i <- at_ (getStaticMaskDims op) i ;;
               create (ConstantOp static_i)
           end) ;;
  cmp <- create (CmpIOp_slt dimi shapei) ;;
  create (OrIOp accBase cmp).

Definition rewriteMaskedLoad (op : t) : M LogicalResult :=
  assert (hasMask op) ;;;
  let ptr := getPtr op in
  alloc <- createAlloc (getTypeShape op) ;;
  let mixedDims := getMixedMaskDims op in
  (* Fill load destination with other value *)
  (match getOther op with
   | Some other =>
       let shape := getTypeShape op in
       accBase <- create (ConstantBoolOp false) ;;
       accBase <- foldM (fillConditionStep op mixedDims)
                        (seq 0 (List.length shape)) accBase ;;
       emit (IfOp accBase [FillOp other alloc; YieldOp])
   | None => ret tt
   end) ;;;
  ptrDefiningOp <- (match getDefiningOp ptr with
                    | Some d => ret d
                    | None => abort
                    end) ;;
  (if hasAttr WRAP_SIDE_BY_SIDE ptrDefiningOp || hasAttr WRAP_STACKED ptrDefiningOp
   then
     let unrealizedCast := ptrDefiningOp in
     memrefs <- castOperands unrealizedCast ;;
     assert (Nat.eqb (List.length memrefs) 2) ;;;
     block1 <- at_ memrefs 0 ;;
     block2 <- at_ memrefs 1 ;;
     (if hasAttr WRAP_SIDE_BY_SIDE unrealizedCast then
        sv <- getSideBySideSubviews mixedDims block1 block2 ;;
        createSideBySideCopies (fst sv) (snd sv) alloc
      else if hasAttr WRAP_STACKED unrealizedCast then
        sv <- getStackedSubviews mixedDims block1 block2 ;;
        createStackedCopies (fst sv) (snd sv) alloc
      else abort) ;;;
     eraseDefiningOp unrealizedCast
   else
     let rank := List.length (getTypeShape op) in
     srcSubview <- getSubview rank mixedDims ptr ;;
     dstSubview <- getSubview rank mixedDims alloc ;;
     emit (CopyOp srcSubview dstSubview)) ;;;
  tensor <- create (ToTensorOp alloc true true) ;;
  replaceOp (getLoc op) tensor ;;;
  ret success.

Definition matchAndRewrite (op : t) : M LogicalResult :=
  if hasMask op then rewriteMaskedLoad op
  else rewriteStructuredLoad op.
End LoadConverter.

(** ** StoreConverter *)
Module StoreConverter.
Import StoreOp.

Definition getExtractSlice (rank : nat) (dims : list OpFoldResult)
    (source : Value) : M Value :=
  let offsets := repeat (Attr 0) rank in
  let strides := repeat (Attr 1) rank in
  create (ExtractSliceOp source offsets dims strides).

(** [setWritable(true)] follows the creation of the materialisation; the
    operation is listed with the flag already set. *)
Definition matchAndRewrite (op : t) : M LogicalResult :=
  let ptr := getPtr op in
  let storeValue := getValue op in
  let rank := getValueRank op in
  (if hasMask op then
     let mixedDims := getMixedMaskDims op in
     srcSlice <- getExtractSlice rank mixedDims storeValue ;;
     dstSubview <- getSubview rank mixedDims ptr ;;
     emit (MaterializeInDestinationOp srcSlice dstSubview true)
   else
     emit (MaterializeInDestinationOp storeValue ptr true)) ;;;
  eraseOp (getLoc op) ;;;
  ret success.
End StoreConverter.

(** Modelled from the spec: the rewrite driver that runs the pattern over the
    descriptor operations of a module (the pass is not among the sources).
    A rule that fails leaves its operation unconverted and the driver goes on
    with the other operations; the pass succeeds only if every rule did. *)
Fixpoint applyPatterns (ops : list MakeTensorPtrOp.t) : M LogicalResult :=
  match ops with
  | [] => ret success
  | op :: ops' =>
      r <- MakeTensorPtrConverter.matchAndRewrite op ;;
      r' <- applyPatterns ops' ;;
      ret (match r, r' with
           | success, success => success
           | _, _ => failure
           end)
  end.

(** ** Memory and the effect of the created operations *)

(** The contents of every buffer, by linear address. *)
Definition Mem : Type := Buffer -> Z -> Z.

Definition write (mem : Mem) (b : Buffer) (a : Z) (x : Z) : Mem :=
  fun b' a' => if Buffer_eqb b b' && (a =? a') then x else mem b' a'.

(** Linear address of an element of a view. *)
Definition addr (v : View) (idx : list Z) : Z :=
  v_offset v + dot idx (v_strides v).

Definition readView (mem : Mem) (v : View) (idx : list Z) : Z :=
  mem (v_buffer v) (addr v idx).

Definition range (n : Z) : list Z :=
  map Z.of_nat (seq 0 (Z.to_nat n)).

(** All index tuples of a shape, in row-major order. *)
Fixpoint indices (sizes : list Z) : list (list Z) :=
  match sizes with
  | [] => [[]]
  | n :: sizes' => flat_map (fun i => map (cons i) (indices sizes')) (range n)
  end.

(** The writes of [g idx] to address [f idx] of buffer [b], for the index
    tuples [idx] of a list in turn. *)
Definition writeAll (b : Buffer) (f g : list Z -> Z) (L : list (list Z))
    (mem : Mem) : Mem :=
  fold_left (fun m idx => write m b (f idx) (g idx)) L mem.

(** [memref.copy]: every element of the source view is written to the same
    index of the target view. *)
Definition copyView (src dst : View) (mem : Mem) : Mem :=
  writeAll (v_buffer dst) (addr dst) (readView mem src)
           (indices (v_sizes src)) mem.

(** [linalg.fill]: every element of the view is set to the scalar. *)
Definition fillView (x : Z) (dst : View) (mem : Mem) : Mem :=
  writeAll (v_buffer dst) (addr dst) (fun _ => x)
           (indices (v_sizes dst)) mem.

Definition evalScalar (env : Env) (v : Value) : Z :=
  match v with
  | BlockArgument n => scalarOf env n
  | _ => 0
  end.

Fixpoint exec (env : Env) (op : Operation) (mem : Mem) {struct op} : Mem :=
  match op with
  | CopyOp source target =>
      copyView (evalMemRef env source) (evalMemRef env target) mem
  | FillOp input output =>
      fillView (evalScalar env input) (evalMemRef env output) mem
  | IfOp condition thenRegion =>
      if evalIndex env condition =? 0 then mem
      else fold_left (fun m o => exec env o m) thenRegion mem
  | _ => mem
  end.

Definition execAll (env : Env) (ops : list Operation) (mem : Mem) : Mem :=
  fold_left (fun m o => exec env o m) ops mem.

(** ** Notions used to state the properties *)

Fixpoint strictly_decreasing (l : list Z) : Prop :=
  match l with
  | [] => True
  | a :: l' =>
      match l' with
      | [] => True
      | b :: _ => b < a /\ strictly_decreasing l'
      end
  end.

Definition sumZ (l : list Z) : Z := fold_right Z.add 0 l.

(** The accumulated scalar offset of a descriptor, as a 64-bit quantity. *)
Definition scalarOffset (env : Env) (op : MakeTensorPtrOp.t) : Z :=
  wrap64 (sumZ (map (evalOFR env) (MakeTensorPtrOp.getMixedOffsets op))).

(** A stride that folds to the compile-time constant 0. *)
Definition isZeroAttr (ofr : OpFoldResult) : bool :=
  match ofr with
  | Attr i => i =? 0
  | Val _ => false
  end.

(** An operation that computes an index or a truth value. *)
Definition isArith (op : Operation) : bool :=
  match op with
  | Def (ConstantOp _) | Def (ConstantBoolOp _) | Def (AddIOp _ _)
  | Def (SubIOp _ _) | Def (RemSIOp _ _) | Def (DivSIOp _ _)
  | Def (MinSIOp _ _) | Def (CmpIOp_slt _ _) | Def (OrIOp _ _)
  | Def (DimOp _ _) => true
  | _ => false
  end.

Definition isAlloc (op : Operation) : bool :=
  match op with
  | Def (AllocOp _ _) => true
  | _ => false
  end.

(** An index tuple lies within the given extents. *)
Definition inRegion (extents idx : list Z) : Prop :=
  Forall2 (fun i e => 0 <= i < e) idx extents.

Fixpoint inRegionb (extents idx : list Z) : bool :=
  match idx, extents with
  | [], [] => true
  | i :: idx', e :: extents' => (0 <=? i) && (i <? e) && inRegionb extents' idx'
  | _, _ => false
  end.

(** The element a lowered pointer designates at a logical index: a single
    view is read directly; of a split pair the first chunk holds the leading
    part along the split axis and the second chunk the rest. *)
Definition sourceElement (env : Env) (mem : Mem) (ptr : Value) (idx : list Z) : Z :=
  match ptr, idx with
  | UnrealizedConversionCastOp [block1; block2] attrs, [i; j] =>
      let v1 := evalMemRef env block1 in
      let v2 := evalMemRef env block2 in
      if existsb (String.eqb WRAP_SIDE_BY_SIDE) attrs then
        let d1 := nth 1 (v_sizes v1) 0 in
        if j <? d1 then readView mem v1 [i; j] else readView mem v2 [i; j - d1]
      else
        let d1 := nth 0 (v_sizes v1) 0 in
        if i <? d1 then readView mem v1 [i; j] else readView mem v2 [i - d1; j]
  | _, _ => readView mem (evalMemRef env ptr) idx
  end.

(** The state [s'] is [s] after the operations [ops] were created, with no
    diagnostic and no replacement. *)
Definition createdOnly (s s' : RewriterState) (ops : list Operation) : Prop :=
  s' = {| created := created s ++ ops;
          diagnostics := diagnostics s;
          rewrites := rewrites s |}.

Definition withDiagnostic (s : RewriterState) (d : Location * string)
    : RewriterState :=
  {| created := created s;
     diagnostics := diagnostics s ++ [d];
     rewrites := rewrites s |}.

(** The diagnostic for an unsupported dimension order. *)
Definition orderDiagnostic : string :=
  "non-decreasing dimension order on tensor pointers are not yet supported".

(** The loop of [getMixedStridesForMemref] read from the outermost dimension
    inwards: the adjusted strides of the given dimensions and the value of
    [accumulate] after them. *)
Fixpoint adjustStrides (dims : list (Z * OpFoldResult)) : list OpFoldResult * Z :=
  match dims with
  | [] => ([], 1)
  | (size, stride) :: inner =>
      let '(strides, accumulate) := adjustStrides inner in
      ((if (size =? 1) && isZeroAttr stride then Attr accumulate else stride)
         :: strides,
       wrap32 (wrap64 (accumulate * size)))
  end.

(** A descriptor operation with the given fields, at location 0 and on the
    base pointer [BlockArgument 0]. *)
Definition mkDescriptor (sizes : list Z)
    (strides offsets shape : list OpFoldResult) (order : list Z)
    (block structured split : bool) : MakeTensorPtrOp.t :=
  {| MakeTensorPtrOp.getLoc := 0%nat;
     MakeTensorPtrOp.getBase := BlockArgument 0;
     MakeTensorPtrOp.getSizes := sizes;
     MakeTensorPtrOp.getMixedStrides := strides;
     MakeTensorPtrOp.getMixedOffsets := offsets;
     MakeTensorPtrOp.getMixedShape := shape;
     MakeTensorPtrOp.getOrder := order;
     MakeTensorPtrOp.getTypeShape := sizes;
     MakeTensorPtrOp.getTypeElement := 0%nat;
     MakeTensorPtrOp.isBlockPtr := block;
     MakeTensorPtrOp.isStructuredPtr := structured;
     MakeTensorPtrOp.isSplitPtr := split |}.

(** The extents of two chunks along the split axis partition the requested
    extent: the first chunk takes the leading part, the second the rest. *)
Definition partitionsExtent (d1 d2 requested : Z) : Prop :=
  0 <= d1 /\ 0 <= d2 /\ d1 + d2 = requested.

(** An environment that gives every index argument the value [n]. *)
Definition constEnv (n : Z) : Env :=
  {| indexOf := fun _ => n;
     viewOf := fun k => {| v_buffer := BaseBuffer k; v_offset := 0;
                           v_sizes := []; v_strides := [] |};
     scalarOf := fun _ => 0 |}.

(** A stacked split over a tensor of 8 rows with row stride 8 (the row bound,
    64 in linear units, is the dynamic operand [BlockArgument 1]): 4 by 4
    elements from row 1, column 0.  The access ends at row 4 and does not
    reach the wrap boundary. *)
Definition stackedNoWrap : MakeTensorPtrOp.t :=
  mkDescriptor [4; 4] [Attr 8; Attr 1] [Attr 8; Attr 0]
               [Val (BlockArgument 1); Attr 0] [] false false true.

(** The side-by-side split of the example: modulus 10, offset 7, 6 columns. *)
Definition sideBySideExample : MakeTensorPtrOp.t :=
  mkDescriptor [4; 6] [Attr 10; Attr 1] [Attr 7; Attr 0]
               [Attr 0; Attr 10] [] false false true.

(** A structured descriptor with static offsets [3, 0] and strides [10, 1]. *)
Definition offsetExample : MakeTensorPtrOp.t :=
  mkDescriptor [4; 4] [Attr 10; Attr 1] [Attr 3; Attr 0] [Attr 0; Attr 0]
               [] false true false.

(** A block descriptor at location 1 whose order [0, 1] is increasing. *)
Definition badOrderExample : MakeTensorPtrOp.t :=
  {| MakeTensorPtrOp.getLoc := 1%nat;
     MakeTensorPtrOp.getBase := BlockArgument 0;
     MakeTensorPtrOp.getSizes := [4; 4];
     MakeTensorPtrOp.getMixedStrides := [Attr 4; Attr 1];
     MakeTensorPtrOp.getMixedOffsets := [Attr 0; Attr 0];
     MakeTensorPtrOp.getMixedShape := [Attr 0; Attr 0];
     MakeTensorPtrOp.getOrder := [0; 1];
     MakeTensorPtrOp.getTypeShape := [4; 4];
     MakeTensorPtrOp.getTypeElement := 0%nat;
     MakeTensorPtrOp.isBlockPtr := true;
     MakeTensorPtrOp.isStructuredPtr := false;
     MakeTensorPtrOp.isSplitPtr := false |}.

(** A descriptor that none of the three kind predicates accepts. *)
Definition unknownKindExample : MakeTensorPtrOp.t :=
  mkDescriptor [4; 4] [Attr 4; Attr 1] [Attr 0; Attr 0] [Attr 0; Attr 0]
               [1; 0] false false false.

(** Sizes [4, 1, 8] with a dynamic outer stride and a zero middle stride. *)
Definition zeroStrideExample : MakeTensorPtrOp.t :=
  mkDescriptor [4; 1; 8] [Val (BlockArgument 1); Attr 0; Attr 1]
               [Attr 0; Attr 0; Attr 0] [Attr 0; Attr 0; Attr 0]
               [] false true false.

(** Sizes [4, 1, 8] with a zero stride on the outer dimension as well. *)
Definition zeroStrideKept : MakeTensorPtrOp.t :=
  mkDescriptor [4; 1; 8] [Attr 0; Attr 0; Attr 1]
               [Attr 0; Attr 0; Attr 0] [Attr 0; Attr 0; Attr 0]
               [] false true false.

Definition isCopyOp (op : Operation) : bool :=
  match op with
  | CopyOp _ _ => true
  | _ => false
  end.

(** The extent of a memref value along an axis. *)
Definition extent (env : Env) (m : Value) (axis : nat) : Z :=
  nth axis (v_sizes (evalMemRef env m)) 0.

(** The axis a split pair is split along: the leading axis for a stacked
    pair, the trailing axis for a side-by-side pair. *)
Definition splitAxis (wrapType : string) : nat :=
  if String.eqb wrapType WRAP_STACKED then 0%nat else 1%nat.

(** The 2-D tuple with [a] on the given axis and [b] on the other one. *)
Definition onAxis (axis : nat) (a b : Z) : list Z :=
  match axis with
  | O => [a; b]
  | _ => [b; a]
  end.

(** Entry-wise sum and difference of index tuples. *)
Fixpoint vadd (a b : list Z) : list Z :=
  match a, b with
  | x :: a', y :: b' => x + y :: vadd a' b'
  | _, _ => []
  end.

Fixpoint vsub (a b : list Z) : list Z :=
  match a, b with
  | x :: a', y :: b' => x - y :: vsub a' b'
  | _, _ => []
  end.

(** The box at [offsets] with the given [sizes] lies within [shape]. *)
Fixpoint fitsIn (offsets sizes shape : list Z) : Prop :=
  match offsets, sizes, shape with
  | [], [], [] => True
  | o :: offsets', n :: sizes', e :: shape' =>
      0 <= o /\ 0 <= n /\ o + n <= e /\ fitsIn offsets' sizes' shape'
  | _, _, _ => False
  end.

(** An index tuple lies in the box at [offsets] with the given [sizes]. *)
Fixpoint inBoxb (offsets sizes idx : list Z) : bool :=
  match offsets, sizes, idx with
  | [], [], [] => true
  | o :: offsets', n :: sizes', i :: idx' =>
      (o <=? i) && (i <? o + n) && inBoxb offsets' sizes' idx'
  | _, _, _ => false
  end.

(** A lowered pointer that is a single view: the result of a memref
    operation. *)
Definition isSingleView (ptr : Value) : bool :=
  match ptr with
  | AllocOp _ _ | ReinterpretCastOp _ _ _ _ _ | SubViewOp _ _ _ _ => true
  | _ => false
  end.

(** The memref values a lowered pointer is made of. *)
Definition sourceBlocks (ptr : Value) : list Value :=
  match ptr with
  | UnrealizedConversionCastOp operands _ => operands
  | _ => [ptr]
  end.

(** The two chunks of the side-by-side example of the specification, as
    block arguments 1 and 2: a tensor with rows of 8 elements, 4 by 4
    elements from column 6, so that columns 6 and 7 make the first chunk and
    columns 0 and 1 the second.  Scalars are -1. *)
Definition splitEnv : Env :=
  {| indexOf := fun _ => 0;
     viewOf := fun k =>
       match k with
       | 1%nat => {| v_buffer := BaseBuffer 0; v_offset := 6;
                     v_sizes := [4; 2]; v_strides := [8; 1] |}
       | _ => {| v_buffer := BaseBuffer 0; v_offset := 0;
                 v_sizes := [4; 2]; v_strides := [8; 1] |}
       end;
     scalarOf := fun _ => -1 |}.

(** A masked load of 4 by 4 elements through that pair, valid extents 3 by
    3, with block argument 3 as fill value. *)
Definition maskedSplitLoad : LoadOp.t :=
  {| LoadOp.getLoc := 0%nat;
     LoadOp.getPtr :=
       UnrealizedConversionCastOp [BlockArgument 1; BlockArgument 2]
                                  [WRAP_SIDE_BY_SIDE];
     LoadOp.getTypeShape := [4; 4];
     LoadOp.getTypeElement := 0%nat;
     LoadOp.hasMask := true;
     LoadOp.getMixedMaskDims := [Attr 3; Attr 3];
     LoadOp.getOther := Some (BlockArgument 3) |}.

(** A memory in which every element holds its own address. *)
Definition addressMem : Mem := fun _ a => a.

(** ** The effect of a store *)

(** The elements of a tensor value, by index. *)
Definition Tensor : Type := list Z -> Z.

(** The tensor a value denotes, given the tensors of the block arguments:
    element [idx] of a slice is element [offsets + idx * strides] of its
    source. *)
Fixpoint evalTensor (env : Env) (tensorOf : nat -> Tensor) (v : Value) {struct v}
    : Tensor :=
  match v with
  | BlockArgument n => tensorOf n
  | ExtractSliceOp source offsets _ strides =>
      fun idx =>
        evalTensor env tensorOf source
          (vadd (map (evalOFR env) offsets) (zipMul idx (map (evalOFR env) strides)))
  | _ => fun _ => 0
  end.

(** [bufferization.materialize_in_destination]: every element of the
    destination view is set to the element of the tensor at the same index. *)
Definition materialize (t : Tensor) (dst : View) (mem : Mem) : Mem :=
  writeAll (v_buffer dst) (addr dst) t (indices (v_sizes dst)) mem.

(** The effect of an operation of a store rewrite. *)
Definition execStore (env : Env) (tensorOf : nat -> Tensor) (op : Operation)
    (mem : Mem) : Mem :=
  match op with
  | MaterializeInDestinationOp source dest _ =>
      materialize (evalTensor env tensorOf source) (evalMemRef env dest) mem
  | _ => exec env op mem
  end.

(** The index tuples a store writes: those within the mask, or every index
    of the destination view when there is no mask. *)
Definition storedRegion (env : Env) (op : StoreOp.t) : list Z :=
  if StoreOp.hasMask op
  then map (evalOFR env) (StoreOp.getMixedMaskDims op)
  else v_sizes (evalMemRef env (StoreOp.getPtr op)).

(** ** Notions used to state the further properties *)

(** An adjacent pair of the order, at positions [i] and [i + 1], that is
    increasing. *)
Definition increasingAt (l : list Z) (i : nat) : Prop :=
  exists a b, nth_error l i = Some a /\ nth_error l (S i) = Some b /\ a < b.

(** A mixed quantity that is a compile-time constant. *)
Definition isStaticOFR (ofr : OpFoldResult) : bool :=
  match ofr with Attr _ => true | Val _ => false end.

(** An operation that makes a view of existing memory. *)
Definition isView (op : Operation) : bool :=
  match op with
  | Def (ReinterpretCastOp _ _ _ _ _) => true
  | _ => false
  end.

(** An operation that only defines a value. *)
Definition isDef (op : Operation) : bool :=
  match op with
  | Def _ => true
  | _ => false
  end.

(** The type of both views of a split descriptor: every extent, the offset
    and every stride dynamic. *)
Definition splitViewType (op : MakeTensorPtrOp.t) : MemRefType :=
  MkMemRefType [kDynamic; kDynamic] (MakeTensorPtrOp.getTypeElement op) kDynamic
               (repeat kDynamic (List.length (MakeTensorPtrOp.getTypeShape op))).

(** The wrap attribute of a split descriptor: stacked when the first entry
    of its shape is dynamic, side by side otherwise. *)
Definition wrapTypeOf (op : MakeTensorPtrOp.t) : string :=
  if nth 0 (MakeTensorPtrOp.getStaticShape op) 0 =? kDynamic
  then WRAP_STACKED else WRAP_SIDE_BY_SIDE.

(** What [rewriteSplitPtr] needs in order not to fail an assertion or a
    subscript. *)
Definition splitPreconditions (op : MakeTensorPtrOp.t) : bool :=
  match MakeTensorPtrOp.getStaticShape op with
  | [] => false
  | parentShape0 :: rest =>
      if parentShape0 =? kDynamic then
        match rest with
        | parentShape1 :: _ => parentShape1 =? 0
        | [] => false
        end
        && Nat.eqb (List.length (MakeTensorPtrOp.getTypeShape op)) 2
        && Nat.leb 2 (List.length (MakeTensorPtrOp.getSizes op))
        && Nat.leb 2 (List.length (MakeTensorPtrOp.getMixedStrides op))
        && Nat.leb 1 (List.length (MakeTensorPtrOp.getShape op))
      else
        (parentShape0 =? 0)
        && Nat.leb 2 (List.length (MakeTensorPtrOp.getSizes op))
        && Nat.leb 2 (List.length (MakeTensorPtrOp.getMixedShape op))
  end.






(** ** Further examples *)

(** Sizes [1, 65536, 65536] with a zero outer stride: the product of the
    inner sizes is 2^32. *)
Definition wideExample : MakeTensorPtrOp.t :=
  mkDescriptor [1; 65536; 65536] [Attr 0; Attr 65536; Attr 1]
               [Attr 0; Attr 0; Attr 0] [Attr 0; Attr 0; Attr 0]
               [] false true false.

(** A structured descriptor with a dynamic first offset. *)
Definition dynamicOffsetExample : MakeTensorPtrOp.t :=
  mkDescriptor [4; 4] [Attr 10; Attr 1] [Val (BlockArgument 2); Attr 3]
               [Attr 0; Attr 0] [] false true false.

(** A stacked split over a tensor of 8 rows with row stride 8: 4 by 4
    elements from row 6, so that rows 6 and 7 make the first chunk and rows
    0 and 1 the second. *)
Definition stackedWrapExample : MakeTensorPtrOp.t :=
  mkDescriptor [4; 4] [Attr 8; Attr 1] [Attr 48; Attr 0]
               [Val (BlockArgument 1); Attr 0] [] false false true.

(** The view [offsetExample] is lowered to. *)
Definition offsetView : Value :=
  ReinterpretCastOp (MkMemRefType [4; 4] 0 3 [10; 1]) (BlockArgument 0)
                    (Attr 3) [Attr 4; Attr 4] [Attr 10; Attr 1].

(** An unmasked load of 4 by 4 elements through [offsetView]. *)
Definition unmaskedLoad : LoadOp.t :=
  {| LoadOp.getLoc := 0%nat;
     LoadOp.getPtr := offsetView;
     LoadOp.getTypeShape := [4; 4];
     LoadOp.getTypeElement := 0%nat;
     LoadOp.hasMask := false;
     LoadOp.getMixedMaskDims := [];
     LoadOp.getOther := None |}.

(** A masked load through [offsetView], valid extents 2 by 3, without a fill
    value. *)
Definition maskedLoadNoOther : LoadOp.t :=
  {| LoadOp.getLoc := 0%nat;
     LoadOp.getPtr := offsetView;
     LoadOp.getTypeShape := [4; 4];
     LoadOp.getTypeElement := 0%nat;
     LoadOp.hasMask := true;
     LoadOp.getMixedMaskDims := [Attr 2; Attr 3];
     LoadOp.getOther := None |}.

(** An unmasked load of 4 by 4 elements through the pair of [splitEnv]. *)
Definition unmaskedSplitLoad : LoadOp.t :=
  {| LoadOp.getLoc := 0%nat;
     LoadOp.getPtr :=
       UnrealizedConversionCastOp [BlockArgument 1; BlockArgument 2]
                                  [WRAP_SIDE_BY_SIDE];
     LoadOp.getTypeShape := [4; 4];
     LoadOp.getTypeElement := 0%nat;
     LoadOp.hasMask := false;
     LoadOp.getMixedMaskDims := [];
     LoadOp.getOther := None |}.

(** A load whose pointer is a block argument. *)
Definition argumentLoad : LoadOp.t :=
  {| LoadOp.getLoc := 0%nat;
     LoadOp.getPtr := BlockArgument 0;
     LoadOp.getTypeShape := [4; 4];
     LoadOp.getTypeElement := 0%nat;
     LoadOp.hasMask := false;
     LoadOp.getMixedMaskDims := [];
     LoadOp.getOther := None |}.

(** A masked store of the tensor [BlockArgument 5] through [offsetView],
    valid extents 2 by 3. *)
Definition maskedStore : StoreOp.t :=
  {| StoreOp.getLoc := 0%nat;
     StoreOp.getPtr := offsetView;
     StoreOp.getValue := BlockArgument 5;
     StoreOp.getValueRank := 2%nat;
     StoreOp.hasMask := true;
     StoreOp.getMixedMaskDims := [Attr 2; Attr 3] |}.

(** Tensors whose element at [(i, j)] is [100 * i + j]. *)
Definition indexTensor : nat -> Tensor := fun _ idx => dot idx [100; 1].

(** * Properties *)

(** ** Machine arithmetic *)

Lemma wrap64_range (z : Z) : in_int64 (wrap64 z).
Proof.
  unfold in_int64, wrap64.
  pose proof (Z.mod_pos_bound (z + 9223372036854775808) 18446744073709551616).
  lia.
Qed.

Lemma wrap64_id (z : Z) : in_int64 z -> wrap64 z = z.
Proof.
  unfold in_int64, wrap64. intros H.
  rewrite Z.mod_small; lia.
Qed.

Lemma wrap64_add_l (a b : Z) : wrap64 (wrap64 a + b) = wrap64 (a + b).
Proof.
  unfold wrap64. f_equal.
  replace ((a + 9223372036854775808) mod 18446744073709551616
           - 9223372036854775808 + b + 9223372036854775808)
    with ((a + 9223372036854775808) mod 18446744073709551616 + b) by ring.
  rewrite Zplus_mod_idemp_l. f_equal. ring.
Qed.

Lemma wrap32_id (z : Z) : in_int32 z -> wrap32 z = z.
Proof.
  unfold in_int32, wrap32. intros H.
  rewrite Z.mod_small; lia.
Qed.

Lemma wrap64_shift (z : Z) :
  exists k, wrap64 z = z + k * 18446744073709551616.
Proof.
  exists (- ((z + 9223372036854775808) / 18446744073709551616)).
  unfold wrap64.
  pose proof (Z.div_mod (z + 9223372036854775808) 18446744073709551616).
  lia.
Qed.

Lemma wrap32_wrap64 (z : Z) : wrap32 (wrap64 z) = wrap32 z.
Proof.
  destruct (wrap64_shift z) as [k ->].
  unfold wrap32. f_equal.
  replace (z + k * 18446744073709551616 + 2147483648)
    with (z + 2147483648 + (k * 4294967296) * 4294967296) by ring.
  apply Z.mod_add. lia.
Qed.

Lemma wrap32_mul_l (a b : Z) : wrap32 (wrap32 a * b) = wrap32 (a * b).
Proof.
  unfold wrap32. f_equal.
  replace (((a + 2147483648) mod 4294967296 - 2147483648) * b + 2147483648)
    with (a * b + 2147483648 + (- ((a + 2147483648) / 4294967296) * b) * 4294967296).
  - apply Z.mod_add. lia.
  - pose proof (Z.div_mod (a + 2147483648) 4294967296). lia.
Qed.

(** ** The dimension order *)

Lemma strictly_decreasing_is_sorted (l : list Z) :
  strictly_decreasing l -> is_sorted_greater l = true.
Proof.
  induction l as [|a l IH]; [reflexivity|].
  destruct l as [|b l]; [reflexivity|].
  intros [Hba Hrest].
  change (negb (b >? a) && is_sorted_greater (b :: l) = true).
  rewrite (IH Hrest), andb_true_r.
  apply negb_true_iff. rewrite Z.gtb_ltb. apply Z.ltb_ge. lia.
Qed.

Lemma is_sorted_NoDup_strictly_decreasing (l : list Z) :
  NoDup l -> is_sorted_greater l = true -> strictly_decreasing l.
Proof.
  induction l as [|a l IH]; [exact (fun _ _ => I)|].
  destruct l as [|b l]; [exact (fun _ _ => I)|].
  intros Hnd Hs.
  change (negb (b >? a) && is_sorted_greater (b :: l) = true) in Hs.
  apply andb_true_iff in Hs. destruct Hs as [Hba Hs].
  inversion Hnd as [|? ? Hnotin Hnd']; subst.
  split.
  - apply negb_true_iff in Hba. rewrite Z.gtb_ltb in Hba. apply Z.ltb_ge in Hba.
    assert (a <> b) by (intros ->; apply Hnotin; left; reflexivity).
    lia.
  - apply IH; assumption.
Qed.

(** ** The rewriter monad *)

Lemma createdOnly_refl (s : RewriterState) : createdOnly s s [].
Proof. unfold createdOnly. rewrite app_nil_r. destruct s; reflexivity. Qed.

Lemma createdOnly_trans (s1 s2 s3 : RewriterState) (ops1 ops2 : list Operation) :
  createdOnly s1 s2 ops1 -> createdOnly s2 s3 ops2 ->
  createdOnly s1 s3 (ops1 ++ ops2).
Proof.
  unfold createdOnly. intros -> ->. simpl. rewrite app_assoc. reflexivity.
Qed.

Lemma bind_run {A B} (m : M A) (k : A -> M B) (s : RewriterState) :
  bind m k s = match m s with
               | Some (a, s') => k a s'
               | None => None
               end.
Proof. reflexivity. Qed.

Lemma applyPatterns_cons (op : MakeTensorPtrOp.t) (l : list MakeTensorPtrOp.t)
    (s : RewriterState) :
  applyPatterns (op :: l) s =
  match MakeTensorPtrConverter.matchAndRewrite op s with
  | Some (r, s1) =>
      match applyPatterns l s1 with
      | Some (r', s2) =>
          Some (match r, r' with success, success => success | _, _ => failure end, s2)
      | None => None
      end
  | None => None
  end.
Proof.
  simpl. rewrite bind_run.
  destruct (MakeTensorPtrConverter.matchAndRewrite op s) as [[r s1]|]; [|reflexivity].
  rewrite bind_run.
  destruct (applyPatterns l s1) as [[r' s2]|]; reflexivity.
Qed.

Lemma applyPatterns_app (l1 l2 : list MakeTensorPtrOp.t) (s : RewriterState) :
  applyPatterns (l1 ++ l2) s =
  match applyPatterns l1 s with
  | Some (r1, s1) =>
      match applyPatterns l2 s1 with
      | Some (r2, s2) =>
          Some (match r1, r2 with success, success => success | _, _ => failure end, s2)
      | None => None
      end
  | None => None
  end.
Proof.
  revert s. induction l1 as [|op l1 IH]; intros s.
  - simpl. unfold ret. destruct (applyPatterns l2 s) as [[[] ?]|]; reflexivity.
  - rewrite <- app_comm_cons, !applyPatterns_cons.
    destruct (MakeTensorPtrConverter.matchAndRewrite op s) as [[r s1]|]; [|reflexivity].
    rewrite IH.
    destruct (applyPatterns l1 s1) as [[r1 s2]|]; [|reflexivity].
    destruct (applyPatterns l2 s2) as [[r2 s3]|]; [|reflexivity].
    destruct r, r1, r2; reflexivity.
Qed.

(** ** C9, C10: operations the pattern does not convert *)

(** C9: a descriptor operation whose order permutation is not strictly
    decreasing gets a diagnostic at its location and its conversion returns
    failure, with no operation created and nothing replaced; the pass over a
    list of operations containing it reports failure, and the operations
    before and after it are converted as they would be without it. *)
Theorem matchAndRewrite_unsupported_order
    (op : MakeTensorPtrOp.t) (before after : list MakeTensorPtrOp.t)
    (s s1 s2 : RewriterState) (r1 r2 : LogicalResult) :
  NoDup (MakeTensorPtrOp.getOrder op) ->
  ~ strictly_decreasing (MakeTensorPtrOp.getOrder op) ->
  let d := (MakeTensorPtrOp.getLoc op, orderDiagnostic) in
  (forall st, MakeTensorPtrConverter.matchAndRewrite op st
              = Some (failure, withDiagnostic st d)) /\
  (applyPatterns before s = Some (r1, s1) ->
   applyPatterns after (withDiagnostic s1 d) = Some (r2, s2) ->
   applyPatterns (before ++ op :: after) s = Some (failure, s2)).
Proof.
  intros Hnd Hns d.
  assert (Hop : forall st, MakeTensorPtrConverter.matchAndRewrite op st
                           = Some (failure, withDiagnostic st d)).
  { intros st. unfold MakeTensorPtrConverter.matchAndRewrite.
    destruct (is_sorted_greater (MakeTensorPtrOp.getOrder op)) eqn:Hs.
    - exfalso. apply Hns. apply is_sorted_NoDup_strictly_decreasing; assumption.
    - reflexivity. }
  split; [exact Hop|].
  intros H1 H2.
  rewrite applyPatterns_app, H1, applyPatterns_cons, Hop, H2.
  destruct r1; reflexivity.
Qed.

Lemma matchAndRewrite_unsupported_order_witness :
  NoDup [0; 1] /\ ~ strictly_decreasing [0; 1] /\
  MakeTensorPtrConverter.matchAndRewrite badOrderExample emptyState
  = Some (failure, withDiagnostic emptyState (1%nat, orderDiagnostic)) /\
  exists s2,
    applyPatterns [offsetExample; badOrderExample; unknownKindExample; offsetExample]
                  emptyState
    = Some (failure, s2) /\
    diagnostics s2 = [(1%nat, orderDiagnostic)] /\
    List.length (rewrites s2) = 2%nat.
Proof.
  assert (Hnd : NoDup [0; 1]).
  { constructor; [|constructor; [|constructor]]; cbn; intuition discriminate. }
  assert (Hns : ~ strictly_decreasing [0; 1]) by (cbn; lia).
  split; [exact Hnd|]. split; [exact Hns|].
  split.
  - exact (proj1 (matchAndRewrite_unsupported_order badOrderExample [] []
                    emptyState emptyState emptyState success success Hnd Hns)
                 emptyState).
  - eexists. split.
    + eapply (proj2 (matchAndRewrite_unsupported_order badOrderExample
                      [offsetExample] [unknownKindExample; offsetExample]
                      emptyState _ _ _ _ Hnd Hns)).
      * vm_compute. reflexivity.
      * vm_compute. reflexivity.
    + split; reflexivity.
Defined.

(** C10: with a strictly decreasing order and a kind that is none of block,
    structured or split pointer, the conversion returns failure and leaves
    the rewriter as it was: no diagnostic, nothing created, nothing
    replaced. *)
Theorem matchAndRewrite_unknown_kind (op : MakeTensorPtrOp.t) (s : RewriterState) :
  strictly_decreasing (MakeTensorPtrOp.getOrder op) ->
  MakeTensorPtrOp.isBlockPtr op = false ->
  MakeTensorPtrOp.isStructuredPtr op = false ->
  MakeTensorPtrOp.isSplitPtr op = false ->
  MakeTensorPtrConverter.matchAndRewrite op s = Some (failure, s).
Proof.
  intros Hord Hb Hst Hsp.
  unfold MakeTensorPtrConverter.matchAndRewrite.
  rewrite (strictly_decreasing_is_sorted _ Hord), Hb, Hst, Hsp.
  reflexivity.
Qed.

Lemma matchAndRewrite_unknown_kind_witness :
  strictly_decreasing [1; 0] /\
  MakeTensorPtrConverter.matchAndRewrite unknownKindExample emptyState
  = Some (failure, emptyState).
Proof.
  assert (Hord : strictly_decreasing [1; 0]) by (cbn; lia).
  split; [exact Hord|].
  apply (matchAndRewrite_unknown_kind unknownKindExample emptyState Hord);
    reflexivity.
Defined.

(** ** OpFoldResultUtils: what the fold-or-emit helpers return *)

Ltac solve_createdOnly :=
  unfold createdOnly; cbn [created diagnostics rewrites];
  repeat rewrite <- app_assoc; cbn [app]; try rewrite app_nil_r;
  try reflexivity.

Lemma ofrToIndexValue_run (ofr : OpFoldResult) (s : RewriterState) :
  exists v s' ops,
    ofrToIndexValue ofr s = Some (v, s') /\ createdOnly s s' ops /\
    Forall (fun o => isArith o = true) ops /\
    forall env, evalIndex env v = evalOFR env ofr.
Proof.
  destruct ofr as [i|v].
  - exists (ConstantOp i). eexists. exists [Def (ConstantOp i)].
    split; [reflexivity|]. split; [solve_createdOnly|].
    split; [repeat constructor|]. reflexivity.
  - exists v, s, []. split; [reflexivity|]. split; [apply createdOnly_refl|].
    split; [constructor|]. reflexivity.
Qed.

Lemma ofrsToIndexValues_run (ofrs : list OpFoldResult) (s : RewriterState) :
  exists vs s' ops,
    ofrsToIndexValues ofrs s = Some (vs, s') /\ createdOnly s s' ops /\
    Forall (fun o => isArith o = true) ops /\
    forall env, map (evalOFR env) (map Val vs) = map (evalOFR env) ofrs.
Proof.
  unfold ofrsToIndexValues. revert s.
  induction ofrs as [|ofr ofrs IH]; intros s.
  - exists [], s, []. split; [reflexivity|]. split; [apply createdOnly_refl|].
    split; [constructor|]. reflexivity.
  - destruct (ofrToIndexValue_run ofr s) as (v & s1 & ops1 & Hv & Hc1 & Ha1 & He1).
    destruct (IH s1) as (vs & s2 & ops2 & Hvs & Hc2 & Ha2 & He2).
    exists (v :: vs), s2, (ops1 ++ ops2).
    split.
    { cbn [mapM]. rewrite bind_run, Hv, bind_run, Hvs. reflexivity. }
    split; [eapply createdOnly_trans; eassumption|].
    split; [apply Forall_app; split; assumption|].
    intros env. cbn [map evalOFR]. rewrite He1. f_equal. apply He2.
Qed.

Lemma addOFRs_run (lhs rhs : OpFoldResult) (s : RewriterState) :
  exists r s' ops,
    addOFRs lhs rhs s = Some (r, s') /\ createdOnly s s' ops /\
    Forall (fun o => isArith o = true) ops /\
    forall env, evalOFR env r = wrap64 (evalOFR env lhs + evalOFR env rhs).
Proof.
  destruct lhs as [l|l], rhs as [r|r]; cbn.
  - exists (Attr (wrap64 (l + r))), s, [].
    split; [reflexivity|]. split; [apply createdOnly_refl|].
    split; [constructor|]. reflexivity.
  - eexists. eexists. exists [Def (ConstantOp l); Def (AddIOp (ConstantOp l) r)].
    split; [reflexivity|]. split; [solve_createdOnly|].
    split; [repeat constructor|]. reflexivity.
  - eexists. eexists. exists [Def (ConstantOp r); Def (AddIOp l (ConstantOp r))].
    split; [reflexivity|]. split; [solve_createdOnly|].
    split; [repeat constructor|]. reflexivity.
  - eexists. eexists. exists [Def (AddIOp l r)].
    split; [reflexivity|]. split; [solve_createdOnly|].
    split; [repeat constructor|]. reflexivity.
Qed.

Lemma subOFRs_run (lhs rhs : OpFoldResult) (s : RewriterState) :
  exists r s' ops,
    subOFRs lhs rhs s = Some (r, s') /\ createdOnly s s' ops /\
    Forall (fun o => isArith o = true) ops /\
    forall env, evalOFR env r = wrap64 (evalOFR env lhs - evalOFR env rhs).
Proof.
  destruct lhs as [l|l], rhs as [r|r]; cbn.
  - exists (Attr (wrap64 (l - r))), s, [].
    split; [reflexivity|]. split; [apply createdOnly_refl|].
    split; [constructor|]. reflexivity.
  - eexists. eexists. exists [Def (ConstantOp l); Def (SubIOp (ConstantOp l) r)].
    split; [reflexivity|]. split; [solve_createdOnly|].
    split; [repeat constructor|]. reflexivity.
  - eexists. eexists. exists [Def (ConstantOp r); Def (SubIOp l (ConstantOp r))].
    split; [reflexivity|]. split; [solve_createdOnly|].
    split; [repeat constructor|]. reflexivity.
  - eexists. eexists. exists [Def (SubIOp l r)].
    split; [reflexivity|]. split; [solve_createdOnly|].
    split; [repeat constructor|]. reflexivity.
Qed.

Lemma minOFRs_run (lhs rhs : OpFoldResult) (s : RewriterState) :
  exists r s' ops,
    minOFRs lhs rhs s = Some (r, s') /\ createdOnly s s' ops /\
    Forall (fun o => isArith o = true) ops /\
    forall env, evalOFR env r = Z.min (evalOFR env lhs) (evalOFR env rhs).
Proof.
  destruct lhs as [l|l], rhs as [r|r]; cbn.
  - exists (Attr (Z.min l r)), s, [].
    split; [reflexivity|]. split; [apply createdOnly_refl|].
    split; [constructor|]. reflexivity.
  - eexists. eexists. exists [Def (ConstantOp l); Def (MinSIOp (ConstantOp l) r)].
    split; [reflexivity|]. split; [solve_createdOnly|].
    split; [repeat constructor|]. reflexivity.
  - eexists. eexists. exists [Def (ConstantOp r); Def (MinSIOp l (ConstantOp r))].
    split; [reflexivity|]. split; [solve_createdOnly|].
    split; [repeat constructor|]. reflexivity.
  - eexists. eexists. exists [Def (MinSIOp l r)].
    split; [reflexivity|]. split; [solve_createdOnly|].
    split; [repeat constructor|]. reflexivity.
Qed.

(** ** The accumulated offset *)

Lemma foldM_addOFRs_run (offsets : list OpFoldResult) :
  forall (acc : OpFoldResult) (s : RewriterState),
    (forall env, in_int64 (evalOFR env acc)) ->
    exists r s' ops,
      foldM (fun targetOffset o => addOFRs targetOffset o) offsets acc s
      = Some (r, s') /\
      createdOnly s s' ops /\
      Forall (fun o => isArith o = true) ops /\
      forall env,
        evalOFR env r = wrap64 (evalOFR env acc + sumZ (map (evalOFR env) offsets)).
Proof.
  induction offsets as [|o offsets IH]; intros acc s Hacc.
  - exists acc, s, []. split; [reflexivity|]. split; [apply createdOnly_refl|].
    split; [constructor|].
    intros env. cbn. rewrite Z.add_0_r, wrap64_id; [reflexivity|apply Hacc].
  - destruct (addOFRs_run acc o s) as (a1 & s1 & ops1 & Hrun1 & Hc1 & Ha1 & He1).
    destruct (IH a1 s1) as (r & s2 & ops2 & Hrun2 & Hc2 & Ha2 & He2).
    { intros env. rewrite He1. apply wrap64_range. }
    exists r, s2, (ops1 ++ ops2).
    split.
    { cbn [foldM]. rewrite bind_run, Hrun1. exact Hrun2. }
    split; [eapply createdOnly_trans; eassumption|].
    split; [apply Forall_app; split; assumption|].
    intros env. rewrite He2, He1, wrap64_add_l.
    cbn [map sumZ fold_right]. fold (sumZ (map (evalOFR env) offsets)).
    f_equal. ring.
Qed.

Lemma accumulateTargetOffset_run (op : MakeTensorPtrOp.t) (s : RewriterState) :
  exists targetOffset s' ops,
    MakeTensorPtrConverter.accumulateTargetOffset op s = Some (targetOffset, s') /\
    createdOnly s s' ops /\
    Forall (fun o => isArith o = true) ops /\
    forall env, evalOFR env targetOffset = scalarOffset env op.
Proof.
  destruct (foldM_addOFRs_run (MakeTensorPtrOp.getMixedOffsets op) (Attr 0) s)
    as (r & s' & ops & Hrun & Hc & Ha & He).
  { intros env. cbn. unfold in_int64. lia. }
  exists r, s', ops.
  split; [exact Hrun|]. split; [exact Hc|]. split; [exact Ha|].
  intros env. rewrite He. reflexivity.
Qed.

(** With static offsets only, nothing is created and the result is static. *)
Lemma foldM_addOFRs_static (offsets : list Z) :
  forall (acc : Z) (s : RewriterState),
    exists c,
      foldM (fun targetOffset o => addOFRs targetOffset o)
            (map Attr offsets) (Attr acc) s
      = Some (Attr c, s).
Proof.
  induction offsets as [|o offsets IH]; intros acc s.
  - exists acc. reflexivity.
  - destruct (IH (wrap64 (acc + o)) s) as [c Hc].
    exists c. cbn [map foldM]. rewrite bind_run. cbn. exact Hc.
Qed.

(** ** C5: strides of the result view *)

Lemma stridesStep_eq (strides : list OpFoldResult) (accumulate size : Z)
    (stride : OpFoldResult) :
  MakeTensorPtrConverter.stridesStep (strides, accumulate) (size, stride) =
  (strides ++ [if (size =? 1) && isZeroAttr stride then Attr accumulate else stride],
   wrap32 (wrap64 (accumulate * size))).
Proof.
  unfold MakeTensorPtrConverter.stridesStep.
  destruct stride as [i|v]; cbn [getIntAttr isZeroAttr].
  - destruct ((size =? 1) && (i =? 0)); reflexivity.
  - rewrite andb_false_r. reflexivity.
Qed.

Lemma fold_stridesStep (dims : list (Z * OpFoldResult)) :
  fold_left MakeTensorPtrConverter.stridesStep (rev dims) ([], 1) =
  (rev (fst (adjustStrides dims)), snd (adjustStrides dims)).
Proof.
  induction dims as [|[size stride] inner IH]; [reflexivity|].
  cbn [rev adjustStrides]. rewrite fold_left_app, IH. cbn [fold_left].
  destruct (adjustStrides inner) as [strides accumulate]. cbn [fst snd].
  rewrite stridesStep_eq. reflexivity.
Qed.

Lemma getMixedStridesForMemref_adjustStrides (op : MakeTensorPtrOp.t) :
  MakeTensorPtrConverter.getMixedStridesForMemref op =
  fst (adjustStrides (combine (MakeTensorPtrOp.getSizes op)
                              (MakeTensorPtrOp.getMixedStrides op))).
Proof.
  unfold MakeTensorPtrConverter.getMixedStridesForMemref.
  rewrite fold_stridesStep. cbn [fst]. apply rev_involutive.
Qed.

Lemma adjustStrides_accumulate (dims : list (Z * OpFoldResult)) :
  snd (adjustStrides dims) = wrap32 (prod (map fst dims)).
Proof.
  induction dims as [|[size stride] inner IH]; [reflexivity|].
  cbn [adjustStrides map fst prod].
  destruct (adjustStrides inner) as [strides accumulate]. cbn [snd] in *.
  rewrite IH, wrap32_wrap64, wrap32_mul_l. f_equal. ring.
Qed.

Lemma map_fst_combine_same_length {A B} (a : list A) :
  forall b : list B,
    List.length a = List.length b -> map fst (combine a b) = a.
Proof.
  induction a as [|x a IH]; intros [|y b] Hlen; try discriminate; [reflexivity|].
  cbn. f_equal. apply IH. cbn in Hlen. lia.
Qed.

Lemma adjustStrides_nth (sizes : list Z) :
  forall (strides : list OpFoldResult) (k : nat) (size : Z) (stride : OpFoldResult),
    List.length sizes = List.length strides ->
    nth_error sizes k = Some size ->
    nth_error strides k = Some stride ->
    nth_error (fst (adjustStrides (combine sizes strides))) k =
    Some (if (size =? 1) && isZeroAttr stride
          then Attr (wrap32 (prod (skipn (S k) sizes)))
          else stride).
Proof.
  induction sizes as [|size0 sizes IH]; intros strides k size stride Hlen Hsize Hstride.
  - destruct k; discriminate.
  - destruct strides as [|stride0 strides]; [discriminate|].
    cbn [combine adjustStrides].
    pose proof (adjustStrides_accumulate (combine sizes strides)) as Hacc.
    destruct (adjustStrides (combine sizes strides)) as [rest accumulate] eqn:Hrest.
    cbn [fst snd] in *.
    destruct k as [|k].
    + cbn in Hsize, Hstride. injection Hsize as ->. injection Hstride as ->.
      cbn [nth_error skipn]. rewrite Hacc.
      rewrite map_fst_combine_same_length; [reflexivity|].
      cbn in Hlen. lia.
    + cbn [nth_error skipn] in *.
      specialize (IH strides k size stride). rewrite Hrest in IH. cbn [fst] in IH.
      apply IH; try assumption. cbn in Hlen. lia.
Qed.

Lemma prod_nonzero (l : list Z) :
  Forall (fun n => n <> 0) l -> prod l <> 0.
Proof.
  induction 1 as [|a l Ha Hl IH]; cbn; [lia|nia].
Qed.

(** C5, as the code has it: the stride of a dimension of static size 1 whose
    stride folds to the constant 0 is replaced by the product of the sizes of
    all dimensions with larger index (the inner dimensions), as long as that
    product fits the 32-bit accumulator; every other stride is kept, a zero
    stride on a dimension of another size included.  The replaced stride is
    not zero when no inner size is zero. *)
Theorem getMixedStridesForMemref_adjusts
    (op : MakeTensorPtrOp.t) (k : nat) (size : Z) (stride : OpFoldResult) :
  List.length (MakeTensorPtrOp.getSizes op)
  = List.length (MakeTensorPtrOp.getMixedStrides op) ->
  nth_error (MakeTensorPtrOp.getSizes op) k = Some size ->
  nth_error (MakeTensorPtrOp.getMixedStrides op) k = Some stride ->
  let inner := prod (skipn (S k) (MakeTensorPtrOp.getSizes op)) in
  let result := nth_error (MakeTensorPtrConverter.getMixedStridesForMemref op) k in
  ((size =? 1) && isZeroAttr stride = false -> result = Some stride) /\
  ((size =? 1) && isZeroAttr stride = true -> in_int32 inner ->
   result = Some (Attr inner) /\
   (Forall (fun n => n <> 0) (skipn (S k) (MakeTensorPtrOp.getSizes op)) ->
    result <> Some (Attr 0))).
Proof.
  intros Hlen Hsize Hstride inner result.
  assert (Hres : result = Some (if (size =? 1) && isZeroAttr stride
                                then Attr (wrap32 inner) else stride)).
  { unfold result. rewrite getMixedStridesForMemref_adjustStrides.
    apply adjustStrides_nth; assumption. }
  split.
  - intros Hc. rewrite Hres, Hc. reflexivity.
  - intros Hc Hfit. rewrite Hres, Hc, (wrap32_id _ Hfit).
    split; [reflexivity|].
    intros Hnz Heq. injection Heq as Heq.
    exact (prod_nonzero _ Hnz Heq).
Qed.

(** C5 at the example of the specification: sizes [4, 1, 8] and a zero
    middle stride give 8 for the middle stride. *)
Lemma getMixedStridesForMemref_adjusts_witness :
  in_int32 8 /\
  nth_error (MakeTensorPtrConverter.getMixedStridesForMemref zeroStrideExample) 1
  = Some (Attr 8) /\
  nth_error (MakeTensorPtrConverter.getMixedStridesForMemref zeroStrideExample) 1
  <> Some (Attr 0).
Proof.
  assert (Hfit : in_int32 8) by (unfold in_int32; lia).
  split; [exact Hfit|].
  destruct (getMixedStridesForMemref_adjusts zeroStrideExample 1 1 (Attr 0)
              eq_refl eq_refl eq_refl) as [_ H].
  destruct (H eq_refl Hfit) as [H1 H2].
  split; [exact H1|].
  apply H2. repeat constructor. discriminate.
Defined.

(** C5 as stated fails at sizes [4, 1, 8] with strides [0, 0, 1]: the middle
    stride becomes 8, the product of the sizes after it and not of those
    before it, and the outer stride stays a literal zero. *)
Lemma getMixedStridesForMemref_keeps_zero_stride :
  let strides := MakeTensorPtrConverter.getMixedStridesForMemref zeroStrideKept in
  strides = [Attr 0; Attr 8; Attr 1] /\
  ~ Forall (fun stride => stride <> Attr 0) strides /\
  nth_error strides 1
  <> Some (Attr (prod (firstn 1 (MakeTensorPtrOp.getSizes zeroStrideKept)))).
Proof.
  cbv zeta. split; [reflexivity|]. split.
  - intros H. inversion H as [|? ? Hhead _]. apply Hhead. reflexivity.
  - vm_compute. discriminate.
Qed.

(** ** C2: the view of a descriptor that is not split *)

Lemma map_evalOFR_Attr (env : Env) (l : list Z) :
  map (evalOFR env) (map Attr l) = l.
Proof.
  induction l as [|a l IH]; [reflexivity|]. cbn. f_equal. exact IH.
Qed.

Lemma rewritePtr_run (resultShape : list Z) (isBlock : bool)
    (op : MakeTensorPtrOp.t) (s : RewriterState) :
  exists targetOffset ops,
    let resultType :=
      MakeTensorPtrConverter.getResultMemrefType op
        (match getIntAttr targetOffset with Some o => o | None => kDynamic end)
        (staticPart (MakeTensorPtrConverter.getMixedStridesForMemref op))
        resultShape in
    let castOp :=
      ReinterpretCastOp resultType (MakeTensorPtrOp.getBase op) targetOffset
        (MakeTensorPtrOp.getMixedSizes op)
        (MakeTensorPtrConverter.getMixedStridesForMemref op) in
    MakeTensorPtrConverter.rewritePtr resultShape isBlock op s =
    Some (success,
          {| created := created s ++ ops ++ [Def castOp];
             diagnostics := diagnostics s;
             rewrites := rewrites s ++ [ReplaceOp (MakeTensorPtrOp.getLoc op) castOp] |}) /\
    MakeTensorPtrConverter.accumulateTargetOffset op s
    = Some (targetOffset, {| created := created s ++ ops;
                             diagnostics := diagnostics s;
                             rewrites := rewrites s |}) /\
    Forall (fun o => isArith o = true) ops /\
    forall env, evalOFR env targetOffset = scalarOffset env op.
Proof.
  destruct (accumulateTargetOffset_run op s)
    as (targetOffset & s1 & ops & Hrun & Hc & Ha & He).
  exists targetOffset, ops. cbv zeta.
  split; [|split; [rewrite Hrun, Hc; reflexivity|split; assumption]].
  unfold MakeTensorPtrConverter.rewritePtr.
  rewrite bind_run, Hrun, Hc. cbn. rewrite <- app_assoc. reflexivity.
Qed.

(** C2: for a block or structured descriptor with strictly decreasing order
    the conversion succeeds and replaces the operation by one view, created
    after index arithmetic only.  The view is over the base buffer, its
    offset is the (64-bit) sum of the per-dimension offsets, its sizes are
    the requested sizes and its strides are the descriptor's, other than on
    dimensions of size 1 with static stride 0.  When every offset is static
    the offset operand is a constant, no arithmetic is created, and the
    result type carries that constant. *)
Theorem matchAndRewrite_single_view (op : MakeTensorPtrOp.t) (s : RewriterState) :
  MakeTensorPtrOp.isBlockPtr op = true \/ MakeTensorPtrOp.isStructuredPtr op = true ->
  strictly_decreasing (MakeTensorPtrOp.getOrder op) ->
  exists targetOffset ops,
    let strides := MakeTensorPtrConverter.getMixedStridesForMemref op in
    let resultType :=
      MakeTensorPtrConverter.getResultMemrefType op
        (match getIntAttr targetOffset with Some o => o | None => kDynamic end)
        (staticPart strides) (MakeTensorPtrOp.getTypeShape op) in
    let castOp :=
      ReinterpretCastOp resultType (MakeTensorPtrOp.getBase op) targetOffset
        (MakeTensorPtrOp.getMixedSizes op) strides in
    MakeTensorPtrConverter.matchAndRewrite op s =
    Some (success,
          {| created := created s ++ ops ++ [Def castOp];
             diagnostics := diagnostics s;
             rewrites := rewrites s ++ [ReplaceOp (MakeTensorPtrOp.getLoc op) castOp] |}) /\
    Forall (fun o => isArith o = true) ops /\
    (forall env,
        let offsets := map (evalOFR env) (MakeTensorPtrOp.getMixedOffsets op) in
        evalMemRef env castOp =
        {| v_buffer := v_buffer (evalMemRef env (MakeTensorPtrOp.getBase op));
           v_offset := wrap64 (sumZ offsets);
           v_sizes := MakeTensorPtrOp.getSizes op;
           v_strides := map (evalOFR env) strides |} /\
        (in_int64 (sumZ offsets) -> evalOFR env targetOffset = sumZ offsets)) /\
    (forall k size stride,
        List.length (MakeTensorPtrOp.getSizes op)
        = List.length (MakeTensorPtrOp.getMixedStrides op) ->
        nth_error (MakeTensorPtrOp.getSizes op) k = Some size ->
        nth_error (MakeTensorPtrOp.getMixedStrides op) k = Some stride ->
        (size =? 1) && isZeroAttr stride = false ->
        nth_error strides k = Some stride) /\
    (forall statics,
        MakeTensorPtrOp.getMixedOffsets op = map Attr statics ->
        targetOffset = Attr (wrap64 (sumZ statics)) /\ ops = []).
Proof.
  intros Hkind Hord.
  destruct (rewritePtr_run (MakeTensorPtrOp.getTypeShape op)
                           (MakeTensorPtrOp.isBlockPtr op) op s)
    as (targetOffset & ops & Hrun & Hacc & Ha & He).
  exists targetOffset, ops. cbv zeta in *.
  split.
  { unfold MakeTensorPtrConverter.matchAndRewrite.
    rewrite (strictly_decreasing_is_sorted _ Hord). cbn [negb].
    unfold MakeTensorPtrConverter.rewriteBlockPtr,
      MakeTensorPtrConverter.rewriteStructuredPtr.
    destruct (MakeTensorPtrOp.isBlockPtr op) eqn:Hb.
    - exact Hrun.
    - destruct Hkind as [Hk|Hk]; [discriminate|]. rewrite Hk.
      destruct (rewritePtr_run (MakeTensorPtrOp.getTypeShape op) false op s)
        as (t' & ops' & Hrun' & Hacc' & _).
      rewrite Hacc in Hacc'. injection Hacc' as <- Hops.
      apply app_inv_head in Hops. subst ops'. exact Hrun'. }
  split; [exact Ha|].
  split.
  { intros env. split.
    - cbn [evalMemRef]. unfold MakeTensorPtrOp.getMixedSizes.
      rewrite map_evalOFR_Attr, He. reflexivity.
    - intros Hfit. rewrite He. apply wrap64_id. exact Hfit. }
  split.
  { intros k size stride Hlen Hsize Hstride Hc.
    rewrite getMixedStridesForMemref_adjustStrides.
    rewrite (adjustStrides_nth _ _ _ _ _ Hlen Hsize Hstride), Hc. reflexivity. }
  intros statics Hst.
  unfold MakeTensorPtrConverter.accumulateTargetOffset in Hacc.
  rewrite Hst in Hacc.
  destruct (foldM_addOFRs_static statics 0 s) as [c Hc].
  rewrite Hc in Hacc. injection Hacc as <- Hs.
  pose (env0 := {| indexOf := fun _ => 0;
                   viewOf := fun _ => {| v_buffer := BaseBuffer 0; v_offset := 0;
                                         v_sizes := []; v_strides := [] |};
                   scalarOf := fun _ => 0 |}).
  specialize (He env0). unfold scalarOffset in He.
  rewrite Hst, map_evalOFR_Attr in He. cbn [evalOFR] in He.
  split; [f_equal; exact He|].
  destruct s as [cr dg rw]. cbn [created diagnostics rewrites] in Hs.
  injection Hs as Hs.
  rewrite <- (app_nil_r cr) in Hs at 1.
  apply app_inv_head in Hs. symmetry. exact Hs.
Qed.
(** C2 at the example of the specification: offsets [3, 0] with strides
    [10, 1] give the constant offset 3, in the operand and in the type. *)
Lemma matchAndRewrite_single_view_witness :
  strictly_decreasing (MakeTensorPtrOp.getOrder offsetExample) /\
  let castOp :=
    ReinterpretCastOp (MkMemRefType [4; 4] 0 3 [10; 1]) (BlockArgument 0)
      (Attr 3) [Attr 4; Attr 4] [Attr 10; Attr 1] in
  MakeTensorPtrConverter.matchAndRewrite offsetExample emptyState =
  Some (success, {| created := [Def castOp]; diagnostics := [];
                    rewrites := [ReplaceOp 0%nat castOp] |}) /\
  v_offset (evalMemRef (constEnv 0) castOp) = 3.
Proof.
  assert (Hord : strictly_decreasing (MakeTensorPtrOp.getOrder offsetExample))
    by exact I.
  split; [exact Hord|].
  destruct (matchAndRewrite_single_view offsetExample emptyState
              (or_intror eq_refl) Hord)
    as (targetOffset & ops & Hrun & _ & _ & _ & Hstatic).
  destruct (Hstatic [3; 0] eq_refl) as [-> ->].
  cbv zeta. split; [|reflexivity].
  rewrite Hrun. reflexivity.
Defined.

(** ** C3: the two views of a side-by-side split *)

Ltac mrun :=
  repeat (first [ progress cbn [bind create emit ret created diagnostics rewrites]
                | rewrite bind_run ]).
Lemma createSideBySideCastOps_run (op : MakeTensorPtrOp.t) (s : RewriterState)
    (rowSize colSize : Z) (shape1 : OpFoldResult) :
  nth_error (MakeTensorPtrOp.getSizes op) 0 = Some rowSize ->
  nth_error (MakeTensorPtrOp.getSizes op) 1 = Some colSize ->
  nth_error (MakeTensorPtrOp.getMixedShape op) 1 = Some shape1 ->
  exists targetOffset modN strideVals resultType ops s',
    let x := RemSIOp targetOffset modN in
    let y := SubIOp targetOffset x in
    let d1 := SubIOp (MinSIOp (AddIOp x (ConstantOp colSize)) modN) x in
    let d2 := SubIOp (ConstantOp colSize) d1 in
    let cast1 :=
      ReinterpretCastOp resultType (MakeTensorPtrOp.getBase op) (Val targetOffset)
        [Val (ConstantOp rowSize); Val d1] (map Val strideVals) in
    let cast2 :=
      ReinterpretCastOp resultType (MakeTensorPtrOp.getBase op) (Val y)
        [Val (ConstantOp rowSize); Val d2] (map Val strideVals) in
    MakeTensorPtrConverter.createSideBySideCastOps op s = Some ((cast1, cast2), s') /\
    createdOnly s s' (ops ++ [Def cast1; Def d2; Def cast2]) /\
    Forall (fun o => isArith o = true) ops /\
    (forall env, evalIndex env targetOffset = scalarOffset env op) /\
    (forall env, evalIndex env modN = evalOFR env shape1) /\
    (forall env, map (evalOFR env) (map Val strideVals)
                 = map (evalOFR env) (MakeTensorPtrOp.getMixedStrides op)).
Proof.
  intros H0 H1 Hshape.
  destruct (accumulateTargetOffset_run op s) as (ofr & s1 & ops1 & Hr1 & Hc1 & Ha1 & He1).
  red in Hc1; subst s1.
  destruct (ofrToIndexValue_run ofr {| created := created s ++ ops1; diagnostics := diagnostics s; rewrites := rewrites s |}) as (targetOffset & s2 & ops2 & Hr2 & Hc2 & Ha2 & He2).
  red in Hc2; cbn [created diagnostics rewrites] in Hc2; subst s2.
  unfold MakeTensorPtrConverter.createSideBySideCastOps, at_.
  rewrite bind_run, Hr1. mrun. rewrite Hr2, H0. mrun. rewrite H1. mrun. rewrite Hshape. mrun.
  match goal with |- context [ofrToIndexValue shape1 ?st] =>
    destruct (ofrToIndexValue_run shape1 st) as (modN & s3 & ops3 & Hr3 & Hc3 & Ha3 & He3) end.
  red in Hc3; cbn [created diagnostics rewrites] in Hc3; subst s3.
  rewrite Hr3. mrun.
  match goal with |- context [ofrsToIndexValues ?l ?st] =>
    destruct (ofrsToIndexValues_run l st) as (strideVals & s4 & ops4 & Hr4 & Hc4 & Ha4 & He4) end.
  red in Hc4; cbn [created diagnostics rewrites] in Hc4; subst s4.
  rewrite Hr4. mrun.
  set (x := RemSIOp targetOffset modN).
  exists targetOffset, modN, strideVals. eexists.
  exists (ops1 ++ ops2 ++ [Def (ConstantOp rowSize); Def (ConstantOp colSize)]
          ++ ops3 ++ [Def x; Def (SubIOp targetOffset x)] ++ ops4
          ++ [Def (AddIOp x (ConstantOp colSize));
              Def (MinSIOp (AddIOp x (ConstantOp colSize)) modN);
              Def (SubIOp (MinSIOp (AddIOp x (ConstantOp colSize)) modN) x)]).
  eexists. cbv zeta.
  split; [reflexivity|].
  split.
  { unfold createdOnly. cbn [map]. f_equal. repeat rewrite <- app_assoc. cbn [app].
    reflexivity. }
  split.
  { repeat (apply Forall_app; split); try assumption; repeat constructor. }
  split; [intros env; rewrite He2; apply He1|].
  split; assumption.
Qed.

(** C3: for a side-by-side split with non-negative accumulated offset
    [targetOffset], positive modulus [N] and requested sizes [rowSize] and
    [colSize] (all within 64 bits), the first view starts at [targetOffset]
    and is [d1 = min (x + colSize) N - x] wide, the second starts at
    [y = targetOffset - x] and is [d2 = colSize - d1] wide, where
    [x = targetOffset mod N]; both have [rowSize] rows, the descriptor's
    strides and the descriptor's base. *)
Theorem createSideBySideCastOps_chunks (op : MakeTensorPtrOp.t) (s : RewriterState)
    (env : Env) (rowSize colSize : Z) (shape1 : OpFoldResult) :
  nth_error (MakeTensorPtrOp.getSizes op) 0 = Some rowSize ->
  nth_error (MakeTensorPtrOp.getSizes op) 1 = Some colSize ->
  nth_error (MakeTensorPtrOp.getMixedShape op) 1 = Some shape1 ->
  let targetOffset := scalarOffset env op in
  let N := evalOFR env shape1 in
  0 <= targetOffset -> 0 < N -> in_int64 N ->
  0 <= colSize -> in_int64 (targetOffset mod N + colSize) ->
  exists cast1 cast2 s',
    MakeTensorPtrConverter.createSideBySideCastOps op s = Some ((cast1, cast2), s') /\
    let x := targetOffset mod N in
    let y := targetOffset - x in
    let d1 := Z.min (x + colSize) N - x in
    let d2 := colSize - d1 in
    evalMemRef env cast1 =
    {| v_buffer := v_buffer (evalMemRef env (MakeTensorPtrOp.getBase op));
       v_offset := targetOffset;
       v_sizes := [rowSize; d1];
       v_strides := map (evalOFR env) (MakeTensorPtrOp.getMixedStrides op) |} /\
    evalMemRef env cast2 =
    {| v_buffer := v_buffer (evalMemRef env (MakeTensorPtrOp.getBase op));
       v_offset := y;
       v_sizes := [rowSize; d2];
       v_strides := map (evalOFR env) (MakeTensorPtrOp.getMixedStrides op) |}.
Proof.
  intros H0 H1 Hshape targetOffset N Ht HN HNfit Hcol Hnext.
  destruct (createSideBySideCastOps_run op s rowSize colSize shape1 H0 H1 Hshape)
    as (t & modN & strideVals & resultType & ops & s' & Hrun & _ & _ & Het & HeN & Hes).
  cbv zeta in Hrun.
  eexists _, _, s'. split; [exact Hrun|].
  cbv zeta. cbn [evalMemRef evalOFR evalIndex map].
  rewrite Hes, Het, HeN. fold targetOffset N.
  assert (Htfit : in_int64 targetOffset) by apply wrap64_range.
  rewrite (Z.rem_mod_nonneg targetOffset N) by lia.
  pose proof (Z.mod_pos_bound targetOffset N HN) as Hx.
  pose proof (Z.mod_le targetOffset N Ht HN) as Hxt.
  set (x := targetOffset mod N) in *.
  unfold in_int64 in *.
  rewrite (wrap64_id (x + colSize)) by (unfold in_int64; lia).
  rewrite (wrap64_id (Z.min (x + colSize) N - x)) by (unfold in_int64; lia).
  rewrite (wrap64_id (colSize - (Z.min (x + colSize) N - x))) by (unfold in_int64; lia).
  rewrite (wrap64_id (targetOffset - x)) by (unfold in_int64; lia).
  split; reflexivity.
Qed.

(** C3 at the example of the specification: modulus 10, offset 7 and 6
    columns give a first chunk of width 3 at offset 7 and a second chunk of
    width 3 at offset 0. *)
Lemma createSideBySideCastOps_chunks_witness :
  exists cast1 cast2 s',
    MakeTensorPtrConverter.createSideBySideCastOps sideBySideExample emptyState
    = Some ((cast1, cast2), s') /\
    evalMemRef (constEnv 0) cast1 =
    {| v_buffer := BaseBuffer 0; v_offset := 7;
       v_sizes := [4; 3]; v_strides := [10; 1] |} /\
    evalMemRef (constEnv 0) cast2 =
    {| v_buffer := BaseBuffer 0; v_offset := 0;
       v_sizes := [4; 3]; v_strides := [10; 1] |}.
Proof.
  assert (Ht : scalarOffset (constEnv 0) sideBySideExample = 7) by reflexivity.
  apply (createSideBySideCastOps_chunks sideBySideExample emptyState (constEnv 0)
           4 6 (Attr 10));
    try reflexivity; rewrite ?Ht; cbn [evalOFR]; unfold in_int64;
    change (7 mod 10) with 7; lia.
Defined.

(** ** C4: the two views of a stacked split *)

Lemma createStackedCastOps_run (op : MakeTensorPtrOp.t) (s : RewriterState)
    (rowSize colSize : Z) (stride0 stride1 : OpFoldResult) (modRow : Value) :
  List.length (MakeTensorPtrOp.getTypeShape op) = 2%nat ->
  nth_error (MakeTensorPtrOp.getSizes op) 0 = Some rowSize ->
  nth_error (MakeTensorPtrOp.getSizes op) 1 = Some colSize ->
  nth_error (MakeTensorPtrOp.getMixedStrides op) 0 = Some stride0 ->
  nth_error (MakeTensorPtrOp.getMixedStrides op) 1 = Some stride1 ->
  nth_error (MakeTensorPtrOp.getShape op) 0 = Some modRow ->
  exists targetOffset strideRow strideCol resultType ops s',
    let wrappedAroundOff := RemSIOp targetOffset strideRow in
    let clampedOff := AddIOp modRow wrappedAroundOff in
    let d1 := DivSIOp (SubIOp clampedOff targetOffset) strideRow in
    let d2 := SubIOp (ConstantOp rowSize) d1 in
    let cast1 :=
      ReinterpretCastOp resultType (MakeTensorPtrOp.getBase op) (Val targetOffset)
        [Val d1; Val (ConstantOp colSize)] [Val strideRow; Val strideCol] in
    let cast2 :=
      ReinterpretCastOp resultType (MakeTensorPtrOp.getBase op) (Val wrappedAroundOff)
        [Val d2; Val (ConstantOp colSize)] [Val strideRow; Val strideCol] in
    MakeTensorPtrConverter.createStackedCastOps op s = Some ((cast1, cast2), s') /\
    createdOnly s s' (ops ++ [Def cast1; Def d2; Def cast2]) /\
    Forall (fun o => isArith o = true) ops /\
    (forall env, evalIndex env targetOffset = scalarOffset env op) /\
    (forall env, evalIndex env strideRow = evalOFR env stride0) /\
    (forall env, evalIndex env strideCol = evalOFR env stride1).
Proof.
  intros Hrank H0 H1 Hs0 Hs1 Hmod.
  unfold MakeTensorPtrConverter.createStackedCastOps, at_.
  rewrite Hrank. cbn [Nat.eqb assert]. mrun.
  destruct (accumulateTargetOffset_run op s) as (ofr & s1 & ops1 & Hr1 & Hc1 & Ha1 & He1).
  red in Hc1; subst s1.
  rewrite Hr1. mrun.
  match goal with |- context [ofrToIndexValue ofr ?st] =>
    destruct (ofrToIndexValue_run ofr st)
      as (targetOffset & s2 & ops2 & Hr2 & Hc2 & Ha2 & He2) end.
  red in Hc2; cbn [created diagnostics rewrites] in Hc2; subst s2.
  rewrite Hr2, H0. mrun. rewrite H1. mrun. rewrite Hs0. mrun.
  match goal with |- context [ofrToIndexValue stride0 ?st] =>
    destruct (ofrToIndexValue_run stride0 st)
      as (strideRow & s3 & ops3 & Hr3 & Hc3 & Ha3 & He3) end.
  red in Hc3; cbn [created diagnostics rewrites] in Hc3; subst s3.
  rewrite Hr3, Hs1. mrun.
  match goal with |- context [ofrToIndexValue stride1 ?st] =>
    destruct (ofrToIndexValue_run stride1 st)
      as (strideCol & s4 & ops4 & Hr4 & Hc4 & Ha4 & He4) end.
  red in Hc4; cbn [created diagnostics rewrites] in Hc4; subst s4.
  rewrite Hr4, Hmod. mrun.
  set (wrapped := RemSIOp targetOffset strideRow).
  exists targetOffset, strideRow, strideCol. eexists.
  exists (ops1 ++ ops2 ++ [Def (ConstantOp rowSize); Def (ConstantOp colSize)]
          ++ ops3 ++ ops4
          ++ [Def wrapped; Def (AddIOp modRow wrapped);
              Def (SubIOp (AddIOp modRow wrapped) targetOffset);
              Def (DivSIOp (SubIOp (AddIOp modRow wrapped) targetOffset) strideRow)]).
  eexists. cbv zeta.
  split; [reflexivity|].
  split.
  { unfold createdOnly. cbn [map]. f_equal. repeat rewrite <- app_assoc. cbn [app].
    reflexivity. }
  split.
  { repeat (apply Forall_app; split); try assumption; repeat constructor. }
  split; [intros env; rewrite He2; apply He1|].
  split; assumption.
Qed.

(** What the stacked split computes: the first view starts at the accumulated
    offset and has [d1 = ((modRow + wrapped) - targetOffset) / strideRow]
    rows, with no bound by [rowSize]; the second starts at
    [wrapped = targetOffset mod strideRow] and has [rowSize - d1] rows. *)
Lemma createStackedCastOps_chunks (op : MakeTensorPtrOp.t) (s : RewriterState)
    (env : Env) (rowSize colSize : Z) (stride0 stride1 : OpFoldResult)
    (modRowValue : Value) :
  List.length (MakeTensorPtrOp.getTypeShape op) = 2%nat ->
  nth_error (MakeTensorPtrOp.getSizes op) 0 = Some rowSize ->
  nth_error (MakeTensorPtrOp.getSizes op) 1 = Some colSize ->
  nth_error (MakeTensorPtrOp.getMixedStrides op) 0 = Some stride0 ->
  nth_error (MakeTensorPtrOp.getMixedStrides op) 1 = Some stride1 ->
  nth_error (MakeTensorPtrOp.getShape op) 0 = Some modRowValue ->
  let targetOffset := scalarOffset env op in
  let strideRow := evalOFR env stride0 in
  let modRow := evalIndex env modRowValue in
  0 <= targetOffset -> 0 < strideRow ->
  targetOffset <= modRow -> in_int64 (modRow + strideRow) ->
  0 <= rowSize -> in_int64 rowSize ->
  exists cast1 cast2 s',
    MakeTensorPtrConverter.createStackedCastOps op s = Some ((cast1, cast2), s') /\
    let wrapped := targetOffset mod strideRow in
    let d1 := ((modRow + wrapped) - targetOffset) / strideRow in
    let d2 := rowSize - d1 in
    evalMemRef env cast1 =
    {| v_buffer := v_buffer (evalMemRef env (MakeTensorPtrOp.getBase op));
       v_offset := targetOffset;
       v_sizes := [d1; colSize];
       v_strides := [strideRow; evalOFR env stride1] |} /\
    evalMemRef env cast2 =
    {| v_buffer := v_buffer (evalMemRef env (MakeTensorPtrOp.getBase op));
       v_offset := wrapped;
       v_sizes := [d2; colSize];
       v_strides := [strideRow; evalOFR env stride1] |}.
Proof.
  intros Hrank H0 H1 Hs0 Hs1 Hmod targetOffset strideRow modRow
         Ht Hstride Hle Hfit Hrow0 Hrow.
  destruct (createStackedCastOps_run op s rowSize colSize stride0 stride1 modRowValue
              Hrank H0 H1 Hs0 Hs1 Hmod)
    as (t & sr & sc & resultType & ops & s' & Hrun & _ & _ & Het & Her & Hec).
  cbv zeta in Hrun.
  eexists _, _, s'. split; [exact Hrun|].
  cbv zeta. cbn [evalMemRef evalOFR evalIndex map].
  rewrite Het, Her, Hec. fold targetOffset strideRow modRow.
  rewrite (Z.rem_mod_nonneg targetOffset strideRow) by lia.
  pose proof (Z.mod_pos_bound targetOffset strideRow Hstride) as Hw.
  set (wrapped := targetOffset mod strideRow) in *.
  unfold in_int64 in *.
  rewrite (wrap64_id (modRow + wrapped)) by (unfold in_int64; lia).
  rewrite (wrap64_id (modRow + wrapped - targetOffset)) by (unfold in_int64; lia).
  rewrite Z.quot_div_nonneg by lia.
  assert (Hd : 0 <= (modRow + wrapped - targetOffset) / strideRow
               <= modRow + wrapped - targetOffset).
  { split; [apply Z.div_pos; lia|].
    apply Z.div_le_upper_bound; [lia|]. nia. }
  rewrite (wrap64_id ((modRow + wrapped - targetOffset) / strideRow))
    by (unfold in_int64; lia).
  rewrite (wrap64_id (rowSize - _)) by (unfold in_int64; lia).
  split; reflexivity.
Qed.

(** C4 at [stackedNoWrap]: the first view gets 7 rows, the rows up to the end
    of the tensor, and not the 4 requested ones; the second view gets -3. *)
Theorem createStackedCastOps_d1_unclamped :
  exists cast1 cast2 s',
    MakeTensorPtrConverter.createStackedCastOps stackedNoWrap emptyState
    = Some ((cast1, cast2), s') /\
    evalMemRef (constEnv 64) cast1 =
    {| v_buffer := BaseBuffer 0; v_offset := 8;
       v_sizes := [7; 4]; v_strides := [8; 1] |} /\
    evalMemRef (constEnv 64) cast2 =
    {| v_buffer := BaseBuffer 0; v_offset := 0;
       v_sizes := [-3; 4]; v_strides := [8; 1] |} /\
    nth 0 (v_sizes (evalMemRef (constEnv 64) cast1)) 0 <> Z.min 7 4.
Proof.
  eexists _, _, _. split; [vm_compute; reflexivity|].
  split; [reflexivity|]. split; [reflexivity|].
  vm_compute. discriminate.
Qed.

(** ** C1: what the two views cover *)

(** The side-by-side views partition the requested columns: the first view
    takes the leading [d1] columns, the second the remaining ones, and both
    have the requested rows. *)
Lemma createSideBySideCastOps_partition (op : MakeTensorPtrOp.t)
    (s : RewriterState) (env : Env) (rowSize colSize : Z) (shape1 : OpFoldResult) :
  nth_error (MakeTensorPtrOp.getSizes op) 0 = Some rowSize ->
  nth_error (MakeTensorPtrOp.getSizes op) 1 = Some colSize ->
  nth_error (MakeTensorPtrOp.getMixedShape op) 1 = Some shape1 ->
  let targetOffset := scalarOffset env op in
  let N := evalOFR env shape1 in
  0 <= targetOffset -> 0 < N -> in_int64 N ->
  0 <= colSize -> in_int64 (targetOffset mod N + colSize) ->
  exists cast1 cast2 s',
    MakeTensorPtrConverter.createSideBySideCastOps op s = Some ((cast1, cast2), s') /\
    partitionsExtent (extent env cast1 1) (extent env cast2 1) colSize /\
    extent env cast1 0 = rowSize /\ extent env cast2 0 = rowSize.
Proof.
  intros H0 H1 Hshape targetOffset N Ht HN HNfit Hcol Hnext.
  destruct (createSideBySideCastOps_run op s rowSize colSize shape1 H0 H1 Hshape)
    as (t & modN & strideVals & resultType & ops & s' & Hrun & _ & _ & Het & HeN & _).
  cbv zeta in Hrun.
  eexists _, _, s'. split; [exact Hrun|].
  unfold extent, partitionsExtent.
  cbn [evalMemRef evalOFR evalIndex map v_sizes nth].
  rewrite Het, HeN. fold targetOffset N.
  rewrite (Z.rem_mod_nonneg targetOffset N) by lia.
  pose proof (Z.mod_pos_bound targetOffset N HN) as Hx.
  set (x := targetOffset mod N) in *.
  unfold in_int64 in *.
  rewrite (wrap64_id (x + colSize)) by (unfold in_int64; lia).
  rewrite (wrap64_id (Z.min (x + colSize) N - x)) by (unfold in_int64; lia).
  rewrite (wrap64_id (colSize - (Z.min (x + colSize) N - x)))
    by (unfold in_int64; lia).
  repeat split; lia.
Qed.

(** The stacked views partition the requested rows when the access reaches
    the wrap boundary, that is, when the rows from the start to the end of
    the tensor are at most the requested ones. *)
Lemma createStackedCastOps_partition_when_wrapping (op : MakeTensorPtrOp.t)
    (s : RewriterState) (env : Env) (rowSize colSize : Z)
    (stride0 stride1 : OpFoldResult) (modRowValue : Value) :
  List.length (MakeTensorPtrOp.getTypeShape op) = 2%nat ->
  nth_error (MakeTensorPtrOp.getSizes op) 0 = Some rowSize ->
  nth_error (MakeTensorPtrOp.getSizes op) 1 = Some colSize ->
  nth_error (MakeTensorPtrOp.getMixedStrides op) 0 = Some stride0 ->
  nth_error (MakeTensorPtrOp.getMixedStrides op) 1 = Some stride1 ->
  nth_error (MakeTensorPtrOp.getShape op) 0 = Some modRowValue ->
  let targetOffset := scalarOffset env op in
  let strideRow := evalOFR env stride0 in
  let modRow := evalIndex env modRowValue in
  0 <= targetOffset -> 0 < strideRow ->
  targetOffset <= modRow -> in_int64 (modRow + strideRow) ->
  0 <= rowSize -> in_int64 rowSize ->
  ((modRow + targetOffset mod strideRow) - targetOffset) / strideRow <= rowSize ->
  exists cast1 cast2 s',
    MakeTensorPtrConverter.createStackedCastOps op s = Some ((cast1, cast2), s') /\
    partitionsExtent (extent env cast1 0) (extent env cast2 0) rowSize /\
    extent env cast1 1 = colSize /\ extent env cast2 1 = colSize.
Proof.
  intros Hrank H0 H1 Hs0 Hs1 Hmod targetOffset strideRow modRow
         Ht Hstride Hle Hfit Hrow0 Hrow Hreach.
  destruct (createStackedCastOps_chunks op s env rowSize colSize stride0 stride1
              modRowValue Hrank H0 H1 Hs0 Hs1 Hmod Ht Hstride Hle Hfit Hrow0 Hrow)
    as (cast1 & cast2 & s' & Hrun & Hv1 & Hv2).
  exists cast1, cast2, s'. split; [exact Hrun|].
  unfold extent, partitionsExtent. rewrite Hv1, Hv2. cbn [v_sizes nth].
  fold targetOffset strideRow modRow.
  pose proof (Z.mod_pos_bound targetOffset strideRow Hstride) as Hw.
  assert (0 <= (modRow + targetOffset mod strideRow - targetOffset) / strideRow)
    by (apply Z.div_pos; lia).
  repeat split; lia.
Qed.

(** C1 at [stackedNoWrap]: the conversion succeeds and replaces the operation
    by a pair of views tagged as stacked whose row extents, 7 and -3, add up
    to the 4 requested rows but do not partition them. *)
Theorem matchAndRewrite_stacked_not_partitioned :
  exists cast1 cast2 s',
    MakeTensorPtrConverter.matchAndRewrite stackedNoWrap emptyState
    = Some (success, s') /\
    rewrites s' =
    [ReplaceOp 0%nat (UnrealizedConversionCastOp [cast1; cast2] [WRAP_STACKED])] /\
    let d1 := nth 0 (v_sizes (evalMemRef (constEnv 64) cast1)) 0 in
    let d2 := nth 0 (v_sizes (evalMemRef (constEnv 64) cast2)) 0 in
    d1 = 7 /\ d2 = -3 /\ d1 + d2 = 4 /\ ~ partitionsExtent d1 d2 4.
Proof.
  eexists _, _, _. split; [vm_compute; reflexivity|].
  split; [reflexivity|].
  cbv zeta. split; [reflexivity|]. split; [reflexivity|]. split; [reflexivity|].
  vm_compute. intros (_ & H & _). apply H. reflexivity.
Qed.

(** ** C8: stores *)

Lemma dot_repeat_zero (n : nat) (l : list Z) : dot (repeat 0 n) l = 0.
Proof.
  revert l. induction n as [|n IH]; intros [|a l]; cbn; try reflexivity.
  rewrite IH. reflexivity.
Qed.

Lemma map_evalOFR_repeat (env : Env) (i : Z) (n : nat) :
  map (evalOFR env) (repeat (Attr i) n) = repeat i n.
Proof.
  induction n as [|n IH]; [reflexivity|]. cbn. f_equal. exact IH.
Qed.

(** C8: an unmasked store creates one operation, the materialisation of the
    whole value into the destination, marked writable, and erases the store;
    a masked store into a view creates the slice of the value and the
    sub-view of the destination, both at offsets zero with the mask's
    extents as sizes, and the writable materialisation of the one into the
    other.  Neither allocates, and the sub-view starts where the destination
    does. *)
Theorem StoreConverter_matchAndRewrite_spec (op : StoreOp.t) (s : RewriterState) :
  let ptr := StoreOp.getPtr op in
  let storeValue := StoreOp.getValue op in
  let rank := StoreOp.getValueRank op in
  let dims := StoreOp.getMixedMaskDims op in
  let srcSlice :=
    ExtractSliceOp storeValue (repeat (Attr 0) rank) dims (repeat (Attr 1) rank) in
  let dstSubview :=
    SubViewOp ptr (repeat (Attr 0) rank) dims (repeat (Attr 1) rank) in
  let unmasked := [MaterializeInDestinationOp storeValue ptr true] in
  let masked :=
    [Def srcSlice; Def dstSubview;
     MaterializeInDestinationOp srcSlice dstSubview true] in
  let result ops :=
    Some (success,
          {| created := created s ++ ops;
             diagnostics := diagnostics s;
             rewrites := rewrites s ++ [EraseOp (StoreOp.getLoc op)] |}) in
  StoreConverter.matchAndRewrite op s =
  (if StoreOp.hasMask op
   then if isMemRef ptr then result masked else None
   else result unmasked) /\
  existsb isAlloc unmasked = false /\
  existsb isAlloc masked = false /\
  forall env,
    v_buffer (evalMemRef env dstSubview) = v_buffer (evalMemRef env ptr) /\
    v_offset (evalMemRef env dstSubview) = v_offset (evalMemRef env ptr) /\
    v_sizes (evalMemRef env dstSubview) = map (evalOFR env) dims.
Proof.
  cbv zeta. split; [|split; [reflexivity|split; [reflexivity|]]].
  - unfold StoreConverter.matchAndRewrite, StoreConverter.getExtractSlice, getSubview.
    destruct (StoreOp.hasMask op).
    + destruct (isMemRef (StoreOp.getPtr op)); cbn; [|reflexivity].
      rewrite <- !app_assoc. reflexivity.
    + reflexivity.
  - intros env. cbn [evalMemRef v_buffer v_offset v_sizes].
    rewrite map_evalOFR_repeat, dot_repeat_zero, Z.add_0_r.
    repeat split; reflexivity.
Qed.

(** ** C7: the copies of a load through a split pair *)

Lemma filter_isCopyOp_app (l1 l2 : list Operation) :
  filter isCopyOp (l1 ++ l2) = filter isCopyOp l1 ++ filter isCopyOp l2.
Proof. apply filter_app. Qed.

Ltac unfold_load :=
  unfold LoadConverter.matchAndRewrite, LoadConverter.rewriteMaskedLoad,
    LoadConverter.rewriteStructuredLoad;
  cbn [LoadOp.getPtr LoadOp.hasMask LoadOp.getOther LoadOp.getMixedMaskDims
       LoadOp.getTypeShape LoadOp.getLoc];
  unfold createAlloc, getSubview,
    LoadConverter.getSideBySideSubviews, LoadConverter.getStackedSubviews,
    LoadConverter.createSubview,
    LoadConverter.createSideBySideCopies, LoadConverter.createStackedCopies,
    subOFRs, minOFRs, ofrToIndexValue, eraseDefiningOp, replaceOp, rewrite,
    foldM, LoadConverter.fillConditionStep,
    bind, ret, create, emit, assert, abort, at_;
  cbn -[wrap64 Z.min].

Ltac copies_created :=
  etransitivity;
  [ cbn [created]; rewrite !filter_isCopyOp_app; cbn [filter isCopyOp];
    rewrite ?app_nil_r; rewrite <- ?app_assoc; cbn [app]; reflexivity
  | reflexivity ].

(** C7: a load through a split pair creates two copies.  The first goes to
    the sub-view of the destination at offsets zero, the second to the
    sub-view that is offset along the split axis by the extent of the first
    copy's source; each sub-view has the sizes of what is copied into it.
    Without a mask the sources are the two chunks themselves.  With a mask
    they are sub-views of the chunks at offsets zero whose extents are, along
    the split axis, the minimum of the first chunk's extent and the requested
    extent for the first and the remainder for the second, and the requested
    extent along the other axis. *)
Theorem load_split_copies (op : LoadOp.t) (s : RewriterState) (env : Env)
    (block1 block2 : Value) (wrapType : string) :
  LoadOp.getPtr op = UnrealizedConversionCastOp [block1; block2] [wrapType] ->
  wrapType = WRAP_SIDE_BY_SIDE \/ wrapType = WRAP_STACKED ->
  (LoadOp.hasMask op = false -> LoadOp.getOther op = None) ->
  (LoadOp.hasMask op = true ->
   List.length (LoadOp.getMixedMaskDims op) = 2%nat /\
   List.length (LoadOp.getTypeShape op) = 2%nat /\
   isMemRef block1 = true /\ isMemRef block2 = true) ->
  let axis := splitAxis wrapType in
  let other := (1 - axis)%nat in
  let alloc := AllocOp (List.length (created s)) (LoadOp.getTypeShape op) in
  exists s' src1 src2 offsets1 sizes1 offsets2 sizes2 strides,
    LoadConverter.matchAndRewrite op s = Some (success, s') /\
    filter isCopyOp (created s') =
    filter isCopyOp (created s)
    ++ [CopyOp src1 (SubViewOp alloc offsets1 sizes1 strides);
        CopyOp src2 (SubViewOp alloc offsets2 sizes2 strides)] /\
    map (evalOFR env) strides = [1; 1] /\
    map (evalOFR env) offsets1 = [0; 0] /\
    map (evalOFR env) sizes1 = [extent env src1 0; extent env src1 1] /\
    map (evalOFR env) offsets2 = onAxis axis (extent env src1 axis) 0 /\
    map (evalOFR env) sizes2 = [extent env src2 0; extent env src2 1] /\
    (LoadOp.hasMask op = false -> src1 = block1 /\ src2 = block2) /\
    (LoadOp.hasMask op = true ->
     let requested a := nth a (map (evalOFR env) (LoadOp.getMixedMaskDims op)) 0 in
     v_buffer (evalMemRef env src1) = v_buffer (evalMemRef env block1) /\
     v_offset (evalMemRef env src1) = v_offset (evalMemRef env block1) /\
     v_buffer (evalMemRef env src2) = v_buffer (evalMemRef env block2) /\
     v_offset (evalMemRef env src2) = v_offset (evalMemRef env block2) /\
     extent env src1 other = requested other /\
     extent env src2 other = requested other /\
     extent env src1 axis = Z.min (extent env block1 axis) (requested axis) /\
     (0 <= extent env block1 axis -> in_int64 (requested axis) ->
      extent env src2 axis
      = requested axis - Z.min (extent env block1 axis) (requested axis))).
Proof.
  intros Hptr Hwrap Hunmasked Hmasked axis other alloc.
  destruct op as [loc ptr shape elem mask dims otherValue].
  cbn [LoadOp.getPtr LoadOp.hasMask LoadOp.getOther LoadOp.getMixedMaskDims
       LoadOp.getTypeShape LoadOp.getLoc] in *.
  subst ptr.
  destruct mask.
  - (* masked *)
    destruct (Hmasked eq_refl) as (Hd & Hs & Hm1 & Hm2).
    destruct dims as [|mr [|mc [|]]]; try discriminate.
    destruct shape as [|R [|C [|]]]; try discriminate.
    destruct Hwrap; subst wrapType;
      destruct otherValue as [otherValue|], mr as [mr|mr], mc as [mc|mc].
    all: unfold_load; rewrite ?Hm1; cbn -[wrap64 Z.min];
         rewrite ?Hm2; cbn -[wrap64 Z.min].
    all: eexists _, _, _, _, _, _, _, _; split; [reflexivity|].
    all: split; [copies_created|].
    all: cbn -[wrap64 Z.min in_int64].
    all: repeat (split; [first [reflexivity | intros Hf; discriminate Hf]|]).
    all: unfold extent in *.
    all: repeat match goal with
                | |- context [match ?l with [] => _ | _ :: _ => _ end] => destruct l
                end.
    all: rewrite ?Z.add_0_r.
    all: repeat (split; [reflexivity|]).
    all: intros Hnonneg Hfit; apply wrap64_id; unfold in_int64 in *; lia.
  - (* unmasked *)
    rewrite (Hunmasked eq_refl).
    destruct Hwrap; subst wrapType.
    all: unfold_load.
    all: eexists _, _, _, _, _, _, _, _; split; [reflexivity|].
    all: split; [copies_created|].
    all: cbn -[wrap64 Z.min in_int64].
    all: repeat (split; [reflexivity|]).
    all: split; [intros _; split; reflexivity | intros Hf; discriminate Hf].
Qed.

Lemma load_split_copies_witness :
  exists s',
    LoadConverter.matchAndRewrite maskedSplitLoad emptyState = Some (success, s') /\
    List.length (filter isCopyOp (created s')) = 2%nat.
Proof.
  destruct (load_split_copies maskedSplitLoad emptyState splitEnv
              (BlockArgument 1) (BlockArgument 2) WRAP_SIDE_BY_SIDE
              eq_refl (or_introl eq_refl)
              (fun H : true = false =>
                 False_ind _ (Bool.diff_true_false H))
              (fun _ => conj eq_refl (conj eq_refl (conj eq_refl eq_refl))))
    as (s' & src1 & src2 & o1 & z1 & o2 & z2 & st & Hrun & Hcopies & _).
  exists s'. split; [exact Hrun|]. rewrite Hcopies. reflexivity.
Defined.

(** ** Memory: writes, copies and fills *)

Lemma Buffer_eqb_eq (a b : Buffer) : Buffer_eqb a b = true <-> a = b.
Proof.
  destruct a, b; cbn; try (split; intros; discriminate);
    rewrite Nat.eqb_eq; split; intros H; congruence.
Qed.

Lemma Buffer_eqb_refl (a : Buffer) : Buffer_eqb a a = true.
Proof. apply Buffer_eqb_eq. reflexivity. Qed.

Lemma Buffer_eqb_neq (a b : Buffer) : a <> b -> Buffer_eqb a b = false.
Proof.
  intros H. destruct (Buffer_eqb a b) eqn:E; [|reflexivity].
  apply Buffer_eqb_eq in E. contradiction.
Qed.

Section Writes.
Variables (B : Buffer) (f g : list Z -> Z).

Lemma writeAll_snoc (L : list (list Z)) (x : list Z) (mem : Mem) :
  writeAll B f g (L ++ [x]) mem = write (writeAll B f g L mem) B (f x) (g x).
Proof. unfold writeAll. rewrite fold_left_app. reflexivity. Qed.

Lemma writeAll_other (L : list (list Z)) (mem : Mem) (b : Buffer) (a : Z) :
  b <> B -> writeAll B f g L mem b a = mem b a.
Proof.
  intros Hb. induction L as [|x L IH] using rev_ind; [reflexivity|].
  rewrite writeAll_snoc. unfold write at 1.
  rewrite Buffer_eqb_neq by congruence. exact IH.
Qed.

Lemma writeAll_miss (L : list (list Z)) (mem : Mem) (a : Z) :
  (forall idx, In idx L -> f idx <> a) -> writeAll B f g L mem B a = mem B a.
Proof.
  induction L as [|x L IH] using rev_ind; intros Hmiss; [reflexivity|].
  rewrite writeAll_snoc. unfold write at 1.
  rewrite Buffer_eqb_refl.
  destruct (f x =? a) eqn:E.
  - apply Z.eqb_eq in E. exfalso. apply (Hmiss x); [|exact E].
    apply in_or_app. right. left. reflexivity.
  - cbn. apply IH. intros idx Hin. apply Hmiss. apply in_or_app. left. exact Hin.
Qed.

Lemma writeAll_hit (L : list (list Z)) (mem : Mem) (idx0 : list Z) :
  In idx0 L ->
  (forall idx, In idx L -> f idx = f idx0 -> g idx = g idx0) ->
  writeAll B f g L mem B (f idx0) = g idx0.
Proof.
  induction L as [|x L IH] using rev_ind; intros Hin Hsame; [destruct Hin|].
  rewrite writeAll_snoc. unfold write at 1.
  rewrite Buffer_eqb_refl.
  destruct (f x =? f idx0) eqn:E.
  - apply Z.eqb_eq in E. cbn. apply Hsame; [|exact E].
    apply in_or_app. right. left. reflexivity.
  - cbn. apply IH.
    + apply in_app_or in Hin. destruct Hin as [Hin|[<-|[]]]; [exact Hin|].
      rewrite Z.eqb_refl in E. discriminate.
    + intros idx Hin'. apply Hsame. apply in_or_app. left. exact Hin'.
Qed.
End Writes.

(** *** Index tuples *)

Lemma In_range (n i : Z) : In i (range n) <-> 0 <= i < n.
Proof.
  unfold range. rewrite in_map_iff. split.
  - intros (k & <- & Hk). apply in_seq in Hk. lia.
  - intros H. exists (Z.to_nat i). split; [lia|]. apply in_seq. lia.
Qed.

Lemma In_indices (sizes : list Z) :
  forall idx, In idx (indices sizes) <-> inRegion sizes idx.
Proof.
  unfold inRegion.
  induction sizes as [|n sizes IH]; intros idx; cbn [indices].
  - split.
    + intros [<-|[]]. constructor.
    + intros H. inversion H. left. reflexivity.
  - rewrite in_flat_map. split.
    + intros (i & Hi & Hin). apply in_map_iff in Hin.
      destruct Hin as (idx' & <- & Hin').
      constructor; [apply In_range; exact Hi|apply IH; exact Hin'].
    + intros H. inversion H as [|i n' idx' sizes' Hi Hrest]; subst.
      exists i. split; [apply In_range; exact Hi|].
      apply in_map. apply IH. exact Hrest.
Qed.

Lemma inRegionb_iff (extents : list Z) :
  forall idx, inRegionb extents idx = true <-> inRegion extents idx.
Proof.
  unfold inRegion.
  induction extents as [|e extents IH]; intros [|i idx]; cbn [inRegionb].
  - split; [constructor|reflexivity].
  - split; [discriminate|intros H; inversion H].
  - split; [discriminate|intros H; inversion H].
  - rewrite !andb_true_iff, IH, Z.leb_le, Z.ltb_lt. split.
    + intros [[H1 H2] H3]. constructor; [lia|exact H3].
    + intros H. inversion H; subst. repeat split; try lia. assumption.
Qed.

Lemma inRegion_length (extents idx : list Z) :
  inRegion extents idx -> List.length idx = List.length extents.
Proof. apply Forall2_length. Qed.

(** *** The dense row-major layout *)

Lemma rowMajor_bound (shape idx : list Z) :
  inRegion shape idx ->
  0 <= dot idx (rowMajorStrides shape) < prod shape.
Proof.
  unfold inRegion. induction 1 as [|i e idx shape Hi Hrest IH]; cbn; [lia|].
  nia.
Qed.

Lemma rowMajor_injective (shape a b : list Z) :
  inRegion shape a -> inRegion shape b ->
  dot a (rowMajorStrides shape) = dot b (rowMajorStrides shape) ->
  a = b.
Proof.
  unfold inRegion. intros Ha. revert b.
  induction Ha as [|i e a shape Hi Hrest IH]; intros b Hb Heq.
  - inversion Hb. reflexivity.
  - inversion Hb as [|j e' b' shape' Hj Hrest']; subst.
    cbn in Heq.
    pose proof (rowMajor_bound _ _ Hrest) as Ba.
    pose proof (rowMajor_bound _ _ Hrest') as Bb.
    assert (i = j) by nia. subst j.
    f_equal. apply IH; [exact Hrest'|lia].
Qed.

(** *** Boxes within a dense buffer *)

Lemma dot_vadd (a : list Z) :
  forall b c, List.length a = List.length b ->
              dot (vadd a b) c = dot a c + dot b c.
Proof.
  induction a as [|x a IH]; intros [|y b] c Hlen; try discriminate; [reflexivity|].
  destruct c as [|z c]; [reflexivity|].
  cbn. rewrite IH by (cbn in Hlen; lia). ring.
Qed.

Lemma vadd_vsub (a : list Z) :
  forall b, List.length a = List.length b -> vadd b (vsub a b) = a.
Proof.
  induction a as [|x a IH]; intros [|y b] Hlen; try discriminate; [reflexivity|].
  cbn. f_equal; [ring|]. apply IH. cbn in Hlen. lia.
Qed.

Lemma vsub_vadd (a : list Z) :
  forall b, List.length a = List.length b -> vsub (vadd a b) a = b.
Proof.
  induction a as [|x a IH]; intros [|y b] Hlen; try discriminate; [reflexivity|].
  cbn. f_equal; [ring|]. apply IH. cbn in Hlen. lia.
Qed.

Lemma fitsIn_length (offsets : list Z) :
  forall sizes shape,
    fitsIn offsets sizes shape ->
    List.length offsets = List.length shape /\ List.length sizes = List.length shape.
Proof.
  induction offsets as [|o offsets IH]; intros [|n sizes] [|e shape] Hfit;
    cbn in Hfit; try contradiction; [split; reflexivity|].
  destruct Hfit as (_ & _ & _ & Hfit). destruct (IH _ _ Hfit). cbn. lia.
Qed.

Lemma fitsIn_region (offsets : list Z) :
  forall sizes shape idx,
    fitsIn offsets sizes shape -> inRegion sizes idx ->
    inRegion shape (vadd offsets idx).
Proof.
  unfold inRegion.
  induction offsets as [|o offsets IH]; intros [|n sizes] [|e shape] idx Hfit Hin;
    cbn in Hfit; try contradiction.
  - inversion Hin. constructor.
  - destruct Hfit as (Ho & Hn & Hle & Hfit).
    inversion Hin as [|i n' idx' sizes' Hi Hrest]; subst.
    cbn. constructor; [lia|]. apply (IH sizes); assumption.
Qed.

Lemma inBoxb_iff (offsets : list Z) :
  forall sizes idx,
    List.length offsets = List.length idx ->
    List.length sizes = List.length idx ->
    inBoxb offsets sizes idx = true <-> inRegion sizes (vsub idx offsets).
Proof.
  unfold inRegion.
  induction offsets as [|o offsets IH]; intros [|n sizes] [|i idx] H1 H2;
    try discriminate; cbn [inBoxb vsub].
  - split; [constructor|reflexivity].
  - rewrite !andb_true_iff, Z.leb_le, Z.ltb_lt, IH by (cbn in *; lia). split.
    + intros [[Ha Hb] Hc]. constructor; [lia|exact Hc].
    + intros H. inversion H; subst. repeat split; try lia. assumption.
Qed.

Lemma copyView_other (src dst : View) (mem : Mem) (b : Buffer) (a : Z) :
  b <> v_buffer dst -> copyView src dst mem b a = mem b a.
Proof. intros H. unfold copyView. apply writeAll_other. exact H. Qed.

Lemma fillView_other (x : Z) (dst : View) (mem : Mem) (b : Buffer) (a : Z) :
  b <> v_buffer dst -> fillView x dst mem b a = mem b a.
Proof. intros H. unfold fillView. apply writeAll_other. exact H. Qed.

(** A copy into the box at [offsets] of a dense buffer of the given shape:
    inside the box the buffer holds the source elements, outside it is as
    before. *)
Lemma copyView_box (id : nat) (shape offsets sizes : list Z) (src dst : View)
    (mem : Mem) (idx : list Z) :
  v_buffer dst = AllocBuffer id ->
  v_offset dst = dot offsets (rowMajorStrides shape) ->
  v_strides dst = rowMajorStrides shape ->
  v_sizes src = sizes ->
  fitsIn offsets sizes shape ->
  inRegion shape idx ->
  copyView src dst mem (AllocBuffer id) (dot idx (rowMajorStrides shape)) =
  if inBoxb offsets sizes idx
  then readView mem src (vsub idx offsets)
  else mem (AllocBuffer id) (dot idx (rowMajorStrides shape)).
Proof.
  intros Hbuf Hoff Hstr Hsizes Hfit Hidx.
  destruct (fitsIn_length _ _ _ Hfit) as [Hlo Hls].
  pose proof (inRegion_length _ _ Hidx) as Hli.
  assert (Haddr : forall i, inRegion sizes i ->
            addr dst i = dot (vadd offsets i) (rowMajorStrides shape)).
  { intros i Hi. unfold addr. rewrite Hoff, Hstr, dot_vadd; [reflexivity|].
    rewrite (inRegion_length _ _ Hi). lia. }
  assert (Hinj : forall i, inRegion sizes i ->
            addr dst i = dot idx (rowMajorStrides shape) -> i = vsub idx offsets).
  { intros i Hi Heq. rewrite (Haddr i Hi) in Heq.
    apply rowMajor_injective in Heq;
      [|apply (fitsIn_region _ _ _ _ Hfit Hi)|exact Hidx].
    rewrite <- Heq. symmetry. apply vsub_vadd.
    rewrite (inRegion_length _ _ Hi). lia. }
  unfold copyView. rewrite Hbuf, Hsizes.
  destruct (inBoxb offsets sizes idx) eqn:Hbox.
  - apply inBoxb_iff in Hbox; [|lia|lia].
    replace (dot idx (rowMajorStrides shape)) with (addr dst (vsub idx offsets)).
    + apply writeAll_hit; [apply In_indices; exact Hbox|].
      intros i Hi Heq. apply In_indices in Hi.
      rewrite (Hinj i Hi); [reflexivity|].
      rewrite Heq, (Haddr _ Hbox), vadd_vsub by lia. reflexivity.
    + rewrite (Haddr _ Hbox), vadd_vsub by lia. reflexivity.
  - apply writeAll_miss. intros i Hi Heq. apply In_indices in Hi.
    pose proof (Hinj i Hi Heq) as ->.
    apply inBoxb_iff in Hi; [|lia|lia]. congruence.
Qed.

(** A fill of a dense buffer sets every element. *)
Lemma fillView_dense (id : nat) (shape : list Z) (x : Z) (dst : View)
    (mem : Mem) (idx : list Z) :
  v_buffer dst = AllocBuffer id ->
  v_offset dst = 0 ->
  v_strides dst = rowMajorStrides shape ->
  v_sizes dst = shape ->
  inRegion shape idx ->
  fillView x dst mem (AllocBuffer id) (dot idx (rowMajorStrides shape)) = x.
Proof.
  intros Hbuf Hoff Hstr Hsizes Hidx.
  unfold fillView. rewrite Hbuf, Hsizes.
  replace (dot idx (rowMajorStrides shape)) with (addr dst idx)
    by (unfold addr; rewrite Hoff, Hstr; reflexivity).
  apply (writeAll_hit (AllocBuffer id) (addr dst) (fun _ => x)).
  - apply In_indices. exact Hidx.
  - reflexivity.
Qed.

(** ** C6: the fill of a masked load *)

Lemma skipn_nth_error_cons {A} (l : list A) :
  forall (k : nat) (x : A),
    nth_error l k = Some x -> skipn k l = x :: skipn (S k) l.
Proof.
  induction l as [|a l IH]; intros [|k] x H; try discriminate.
  - injection H as ->. reflexivity.
  - cbn in H. cbn [skipn]. rewrite (IH k x H). reflexivity.
Qed.

Lemma Zbool_nonzero (b : bool) : Zbool b <> 0 <-> b = true.
Proof. destruct b; cbn; split; intros; try lia; try discriminate; reflexivity. Qed.

Lemma lor_nonzero (a b : Z) : Z.lor a b <> 0 <-> a <> 0 \/ b <> 0.
Proof. rewrite Z.lor_eq_0_iff. lia. Qed.

(** The or-accumulation over the dimensions from [k] on. *)
Lemma fillCondition_run (op : LoadOp.t) :
  let shape := LoadOp.getTypeShape op in
  let dims := LoadOp.getMixedMaskDims op in
  List.length dims = List.length shape ->
  forall (n k : nat) (acc : Value) (s : RewriterState),
    (k + n = List.length shape)%nat ->
    exists acc' s' ops,
      foldM (LoadConverter.fillConditionStep op dims) (seq k n) acc s
      = Some (acc', s') /\
      createdOnly s s' ops /\
      Forall (fun o => isArith o = true) ops /\
      forall env,
        evalIndex env acc' <> 0 <->
        evalIndex env acc <> 0 \/
        Exists (fun p => fst p < snd p)
               (combine (skipn k (map (evalOFR env) dims)) (skipn k shape)).
Proof.
  intros shape dims Hlen n.
  induction n as [|n IH]; intros k acc s Hk.
  - exists acc, s, []. split; [reflexivity|]. split; [apply createdOnly_refl|].
    split; [constructor|]. intros env.
    rewrite (skipn_all2 shape) by lia. 
    rewrite combine_nil. rewrite Exists_nil. tauto.
  - destruct (nth_error shape k) as [e|] eqn:He;
      [|apply nth_error_None in He; lia].
    destruct (nth_error dims k) as [d|] eqn:Hd;
      [|apply nth_error_None in Hd; lia].
    assert (Hstep : exists dimi ops,
               LoadConverter.fillConditionStep op dims acc k s =
               Some (OrIOp acc (CmpIOp_slt dimi (ConstantOp e)),
                     {| created := created s ++ ops;
                        diagnostics := diagnostics s;
                        rewrites := rewrites s |}) /\
               Forall (fun o => isArith o = true) ops /\
               forall env, evalIndex env dimi = evalOFR env d).
    { unfold LoadConverter.fillConditionStep, at_. fold shape. rewrite He.
      mrun. rewrite Hd. mrun.
      destruct d as [i|v].
      - unfold LoadOp.getStaticMaskDims, staticPart. fold dims.
        rewrite nth_error_map, Hd. cbn [option_map]. mrun.
        exists (ConstantOp i). eexists. split.
        + rewrite <- !app_assoc. reflexivity.
        + split; [repeat constructor|reflexivity].
      - mrun. exists v. eexists. split.
        + rewrite <- !app_assoc. reflexivity.
        + split; [repeat constructor|reflexivity]. }
    destruct Hstep as (dimi & ops1 & Hrun1 & Ha1 & He1).
    destruct (IH (S k) (OrIOp acc (CmpIOp_slt dimi (ConstantOp e)))
                 {| created := created s ++ ops1;
                    diagnostics := diagnostics s;
                    rewrites := rewrites s |})
      as (acc' & s' & ops2 & Hrun2 & Hc2 & Ha2 & He2); [lia|].
    exists acc', s', (ops1 ++ ops2).
    split.
    { cbn [seq foldM]. rewrite bind_run, Hrun1. exact Hrun2. }
    split.
    { red in Hc2. cbn [created diagnostics rewrites] in Hc2.
      red. rewrite Hc2, app_assoc. reflexivity. }
    split; [apply Forall_app; split; assumption|].
    intros env. rewrite He2. cbn [evalIndex].
    rewrite lor_nonzero, Zbool_nonzero, Z.ltb_lt, He1.
    rewrite (skipn_nth_error_cons (map (evalOFR env) dims) k (evalOFR env d))
      by (rewrite nth_error_map, Hd; reflexivity).
    rewrite (skipn_nth_error_cons shape k e He).
    cbn [combine]. rewrite Exists_cons. cbn [fst snd]. tauto.
Qed.

Lemma execAll_app (env : Env) (l1 l2 : list Operation) (mem : Mem) :
  execAll env (l1 ++ l2) mem = execAll env l2 (execAll env l1 mem).
Proof. unfold execAll. apply fold_left_app. Qed.

Lemma execAll_arith (env : Env) (ops : list Operation) (mem : Mem) :
  Forall (fun o => isArith o = true) ops -> execAll env ops mem = mem.
Proof.
  intros H. revert mem. induction H as [|op ops Hop _ IH]; intros mem; [reflexivity|].
  cbn [execAll fold_left]. fold (execAll env ops (exec env op mem)).
  rewrite IH. destruct op; try discriminate. reflexivity.
Qed.

Lemma rowMajorStrides_length (shape : list Z) :
  List.length (rowMajorStrides shape) = List.length shape.
Proof. induction shape as [|e shape IH]; cbn; [reflexivity|]. rewrite IH. reflexivity. Qed.

Lemma zipMul_ones (l : list Z) :
  forall n, List.length l = n -> zipMul l (repeat 1 n) = l.
Proof.
  induction l as [|x l IH]; intros [|n] H; try discriminate; [reflexivity|].
  cbn. rewrite Z.mul_1_r. f_equal. apply IH. cbn in H. lia.
Qed.

Lemma dot_zipMul_ones (idx : list Z) :
  forall l n, (List.length idx <= n)%nat ->
              dot idx (zipMul l (repeat 1 n)) = dot idx l.
Proof.
  induction idx as [|i idx IH]; intros l n H; [reflexivity|].
  destruct n as [|n]; [cbn in H; lia|].
  destruct l as [|x l]; [reflexivity|].
  cbn. rewrite Z.mul_1_r, IH by (cbn in H; lia). reflexivity.
Qed.

Lemma inBoxb_zeros (sizes : list Z) :
  forall idx,
    inBoxb (repeat 0 (List.length sizes)) sizes idx = inRegionb sizes idx.
Proof.
  induction sizes as [|n sizes IH]; intros [|i idx]; cbn; try reflexivity.
  rewrite IH. reflexivity.
Qed.

Lemma vsub_zeros (idx : list Z) :
  forall n, List.length idx = n -> vsub idx (repeat 0 n) = idx.
Proof.
  induction idx as [|i idx IH]; intros [|n] H; try discriminate; [reflexivity|].
  cbn. rewrite Z.sub_0_r. f_equal. apply IH. cbn in H. lia.
Qed.

Lemma fitsIn_zeros (masks shape : list Z) :
  Forall2 (fun m e => 0 <= m <= e) masks shape ->
  fitsIn (repeat 0 (List.length shape)) masks shape.
Proof.
  induction 1 as [|m e masks shape Hm _ IH]; cbn; [exact I|].
  repeat split; try lia. exact IH.
Qed.

Lemma full_mask (masks shape : list Z) :
  Forall2 (fun m e => 0 <= m <= e) masks shape ->
  ~ Exists (fun p => fst p < snd p) (combine masks shape) ->
  masks = shape.
Proof.
  induction 1 as [|m e masks shape Hm _ IH]; intros Hno; [reflexivity|].
  cbn [combine] in Hno. rewrite Exists_cons in Hno. cbn [fst snd] in Hno.
  f_equal; [lia|]. apply IH. tauto.
Qed.

Lemma isSingleView_facts (ptr : Value) :
  isSingleView ptr = true ->
  getDefiningOp ptr = Some ptr /\ isMemRef ptr = true /\
  (forall name, hasAttr name ptr = false) /\
  (forall env mem idx,
      sourceElement env mem ptr idx = readView mem (evalMemRef env ptr) idx) /\
  sourceBlocks ptr = [ptr].
Proof.
  destruct ptr; try discriminate; intros _; repeat split; reflexivity.
Qed.

Lemma rewriteMaskedLoad_single_run (op : LoadOp.t) (s : RewriterState)
    (other : Value) :
  let ptr := LoadOp.getPtr op in
  let shape := LoadOp.getTypeShape op in
  let dims := LoadOp.getMixedMaskDims op in
  let rank := List.length shape in
  LoadOp.hasMask op = true ->
  LoadOp.getOther op = Some other ->
  isSingleView ptr = true ->
  List.length dims = List.length shape ->
  exists cond before,
    let alloc := AllocOp (List.length (created s)) shape in
    let srcSubview :=
      SubViewOp ptr (repeat (Attr 0) rank) dims (repeat (Attr 1) rank) in
    let dstSubview :=
      SubViewOp alloc (repeat (Attr 0) rank) dims (repeat (Attr 1) rank) in
    let tensor := ToTensorOp alloc true true in
    LoadConverter.matchAndRewrite op s =
    Some (success,
          {| created :=
               created s ++ [Def alloc] ++ before
               ++ [IfOp cond [FillOp other alloc; YieldOp]]
               ++ [Def srcSubview; Def dstSubview;
                   CopyOp srcSubview dstSubview; Def tensor];
             diagnostics := diagnostics s;
             rewrites := rewrites s ++ [ReplaceOp (LoadOp.getLoc op) tensor] |}) /\
    Forall (fun o => isArith o = true) before /\
    forall env,
      evalIndex env cond <> 0 <->
      Exists (fun p => fst p < snd p) (combine (map (evalOFR env) dims) shape).
Proof.
  intros ptr shape dims rank Hmask Hother Hsingle Hlen.
  destruct (isSingleView_facts ptr Hsingle) as (Hdef & Hmem & Hattr & _).
  unfold LoadConverter.matchAndRewrite, LoadConverter.rewriteMaskedLoad.
  rewrite Hmask, Hother. fold ptr shape dims.
  unfold createAlloc, assert. mrun.
  match goal with |- context [foldM _ _ ?acc ?st] =>
    destruct (fillCondition_run op Hlen (List.length shape) 0 acc st eq_refl)
      as (cond & s1 & ops1 & Hrun1 & Hc1 & Ha1 & He1) end.
  red in Hc1. cbn [created diagnostics rewrites] in Hc1. subst s1.
  fold shape dims in Hrun1. rewrite Hrun1. mrun.
  rewrite Hdef. mrun. rewrite !Hattr. cbn [orb].
  unfold getSubview, assert. rewrite Hmem. mrun. cbn [isMemRef]. mrun.
  unfold replaceOp, rewrite. mrun.
  exists cond, (Def (ConstantBoolOp false) :: ops1).
  cbv zeta. split.
  - fold rank. repeat rewrite <- app_assoc. cbn [app]. reflexivity.
  - split; [constructor; [reflexivity|exact Ha1]|].
    intros env. rewrite He1. cbn [evalIndex Zbool skipn]. 
    split; [intros [H|H]; [congruence|exact H]|intros H; right; exact H].
Qed.

(** The memory after the operations of a masked load through a single
    view. *)
Lemma masked_load_single_memory (env : Env) (mem : Mem) (id : nat)
    (shape : list Z) (ptr other cond : Value) (dims : list OpFoldResult)
    (before : list Operation) :
  let rank := List.length shape in
  let masks := map (evalOFR env) dims in
  let alloc := AllocOp id shape in
  let srcSubview :=
    SubViewOp ptr (repeat (Attr 0) rank) dims (repeat (Attr 1) rank) in
  let dstSubview :=
    SubViewOp alloc (repeat (Attr 0) rank) dims (repeat (Attr 1) rank) in
  let ops :=
    [Def alloc] ++ before ++ [IfOp cond [FillOp other alloc; YieldOp]]
    ++ [Def srcSubview; Def dstSubview; CopyOp srcSubview dstSubview;
        Def (ToTensorOp alloc true true)] in
  Forall (fun o => isArith o = true) before ->
  (evalIndex env cond <> 0 <->
   Exists (fun p => fst p < snd p) (combine masks shape)) ->
  Forall2 (fun m e => 0 <= m <= e) masks shape ->
  v_buffer (evalMemRef env ptr) <> AllocBuffer id ->
  forall idx,
    inRegion shape idx ->
    readView (execAll env ops mem) (evalMemRef env alloc) idx =
    if inRegionb masks idx
    then readView mem (evalMemRef env ptr) idx
    else evalScalar env other.
Proof.
  intros rank masks alloc srcSubview dstSubview ops Hbefore Hcond Hmasks Hbuf idx Hidx.
  pose proof (Forall2_length Hmasks) as Hlm.
  pose proof (inRegion_length _ _ Hidx) as Hli.
  subst ops srcSubview dstSubview. rewrite !execAll_app, (execAll_arith env before) by exact Hbefore.
  cbn [execAll fold_left exec].
  set (mem1 := if evalIndex env cond =? 0 then mem
               else fillView (evalScalar env other) (evalMemRef env alloc) mem).
  unfold readView at 1. unfold addr at 1.
  change (evalMemRef env alloc)
    with {| v_buffer := AllocBuffer id; v_offset := 0; v_sizes := shape;
            v_strides := rowMajorStrides shape |} at 1 2 3.
  cbn [v_buffer v_offset v_strides]. rewrite Z.add_0_l.
  rewrite (copyView_box id shape (repeat 0 rank) masks _ _ mem1 idx).
  - replace (repeat 0 rank) with (repeat 0 (List.length masks))
      by (unfold rank; rewrite Hlm; reflexivity).
    rewrite inBoxb_zeros.
    destruct (inRegionb masks idx) eqn:Hin.
    + rewrite vsub_zeros by lia.
      unfold readView, addr. cbn [evalMemRef v_buffer v_offset v_strides].
      rewrite map_evalOFR_repeat, dot_repeat_zero, Z.add_0_r.
      rewrite map_evalOFR_repeat, dot_zipMul_ones by (fold rank; lia).
      unfold mem1. destruct (evalIndex env cond =? 0); [reflexivity|].
      apply fillView_other. exact Hbuf.
    + unfold mem1. destruct (evalIndex env cond =? 0) eqn:Hc.
      * apply Z.eqb_eq in Hc.
        assert (Hfull : masks = shape).
        { apply full_mask; [exact Hmasks|]. intros HE. apply Hcond in HE. lia. }
        rewrite Hfull in Hin. apply inRegionb_iff in Hidx. congruence.
      * apply fillView_dense; try reflexivity. exact Hidx.
  - reflexivity.
  - cbn [evalMemRef v_offset]. rewrite map_evalOFR_repeat, Z.add_0_l. reflexivity.
  - cbn [evalMemRef v_strides]. rewrite map_evalOFR_repeat.
    apply zipMul_ones. apply rowMajorStrides_length.
  - reflexivity.
  - apply fitsIn_zeros. exact Hmasks.
  - exact Hidx.
Qed.

(** Two copies into boxes of a dense buffer, from views elsewhere. *)
Lemma two_copies_box (id : nat) (shape offsets1 sizes1 offsets2 sizes2 : list Z)
    (V1 V2 D1 D2 : View) (mem : Mem) (idx : list Z) :
  v_buffer D1 = AllocBuffer id ->
  v_offset D1 = dot offsets1 (rowMajorStrides shape) ->
  v_strides D1 = rowMajorStrides shape ->
  v_buffer D2 = AllocBuffer id ->
  v_offset D2 = dot offsets2 (rowMajorStrides shape) ->
  v_strides D2 = rowMajorStrides shape ->
  v_sizes V1 = sizes1 -> v_sizes V2 = sizes2 ->
  v_buffer V2 <> AllocBuffer id ->
  fitsIn offsets1 sizes1 shape -> fitsIn offsets2 sizes2 shape ->
  inRegion shape idx ->
  copyView V2 D2 (copyView V1 D1 mem) (AllocBuffer id)
           (dot idx (rowMajorStrides shape)) =
  if inBoxb offsets2 sizes2 idx then readView mem V2 (vsub idx offsets2)
  else if inBoxb offsets1 sizes1 idx then readView mem V1 (vsub idx offsets1)
  else mem (AllocBuffer id) (dot idx (rowMajorStrides shape)).
Proof.
  intros Hb1 Ho1 Hs1 Hb2 Ho2 Hs2 Hz1 Hz2 Hsrc Hfit1 Hfit2 Hidx.
  rewrite (copyView_box id shape offsets2 sizes2 V2 D2 _ idx) by assumption.
  destruct (inBoxb offsets2 sizes2 idx).
  - unfold readView. apply copyView_other. rewrite Hb1. exact Hsrc.
  - apply (copyView_box id shape offsets1 sizes1 V1 D1 mem idx); assumption.
Qed.

Lemma inRegion_pair (R C : Z) (idx : list Z) :
  inRegion [R; C] idx ->
  exists i j, idx = [i; j] /\ 0 <= i < R /\ 0 <= j < C.
Proof.
  intros H. inversion H as [|i ? idx' ? Hi H']; subst.
  inversion H' as [|j ? idx'' ? Hj H'']; subst.
  inversion H''; subst. exists i, j. repeat split; lia.
Qed.

(** The memory after the two copies of a masked side-by-side load. *)
Lemma split_memory_side_by_side (mem mem1 : Mem) (id : nat)
    (R C m0 m1 d1 fill : Z) (B1 B2 V1 V2 D1 D2 : View) :
  let c1 := Z.min d1 m1 in
  let c2 := m1 - c1 in
  let A := AllocBuffer id in
  (forall b a, b <> A -> mem1 b a = mem b a) ->
  (m0 < R \/ m1 < C ->
   forall idx, inRegion [R; C] idx ->
               mem1 A (dot idx (rowMajorStrides [R; C])) = fill) ->
  v_buffer B1 <> A -> v_buffer B2 <> A ->
  v_buffer V1 = v_buffer B1 -> v_buffer V2 = v_buffer B2 ->
  (forall i j, addr V1 [i; j] = addr B1 [i; j]) ->
  (forall i j, addr V2 [i; j] = addr B2 [i; j]) ->
  v_sizes V1 = [m0; c1] -> v_sizes V2 = [m0; c2] ->
  v_buffer D1 = A -> v_offset D1 = dot [0; 0] (rowMajorStrides [R; C]) ->
  v_strides D1 = rowMajorStrides [R; C] ->
  v_buffer D2 = A -> v_offset D2 = dot [0; c1] (rowMajorStrides [R; C]) ->
  v_strides D2 = rowMajorStrides [R; C] ->
  0 <= m0 <= R -> 0 <= m1 <= C -> 0 <= d1 ->
  forall idx,
    inRegion [R; C] idx ->
    copyView V2 D2 (copyView V1 D1 mem1) A (dot idx (rowMajorStrides [R; C])) =
    if inRegionb [m0; m1] idx
    then match idx with
         | [i; j] => if j <? d1 then readView mem B1 [i; j]
                     else readView mem B2 [i; j - d1]
         | _ => 0
         end
    else fill.
Proof.
  intros c1 c2 A Hsame Hfill HB1 HB2 HV1 HV2 Ha1 Ha2 Hz1 Hz2
         Hd1b Hd1o Hd1s Hd2b Hd2o Hd2s Hm0 Hm1 Hd idx Hidx.
  subst A.
  rewrite (two_copies_box id [R; C] [0; 0] [m0; c1] [0; c1] [m0; c2]
             V1 V2 D1 D2 mem1 idx); try assumption.
  - destruct (inRegion_pair _ _ _ Hidx) as (i & j & -> & Hi & Hj).
    cbn [inBoxb inRegionb vsub].
    unfold readView. rewrite HV1, HV2, Ha1, Ha2, !Hsame by assumption.
    rewrite !Z.sub_0_r, !Z.add_0_l, !andb_true_r.
    unfold c2, c1 in *.
    destruct (0 <=? i) eqn:E0; [|apply Z.leb_gt in E0; lia].
    destruct (0 <=? j) eqn:E1; [|apply Z.leb_gt in E1; lia].
    cbn [andb].
    destruct (i <? m0) eqn:E2; cbn [andb].
    + apply Z.ltb_lt in E2.
      destruct (Z.min d1 m1 <=? j) eqn:E3, (j <? m1) eqn:E4, (j <? d1) eqn:E5,
        (j <? Z.min d1 m1) eqn:E6, (j <? Z.min d1 m1 + (m1 - Z.min d1 m1)) eqn:E7;
        cbn [andb];
        try apply Z.leb_le in E3; try apply Z.leb_gt in E3;
        try apply Z.ltb_lt in E4; try apply Z.ltb_ge in E4;
        try apply Z.ltb_lt in E5; try apply Z.ltb_ge in E5;
        try apply Z.ltb_lt in E6; try apply Z.ltb_ge in E6;
        try apply Z.ltb_lt in E7; try apply Z.ltb_ge in E7;
        try lia; try reflexivity;
        try (apply Hfill; [lia|exact Hidx]);
        try (replace (j - Z.min d1 m1) with (j - d1) by lia; reflexivity).
    + apply Z.ltb_ge in E2. apply Hfill; [lia|exact Hidx].
  - rewrite HV2. exact HB2.
  - unfold c1. cbn. lia.
  - unfold c2, c1. cbn. lia.
Qed.

(** The memory after the two copies of a masked stacked load. *)
Lemma split_memory_stacked (mem mem1 : Mem) (id : nat)
    (R C m0 m1 d1 fill : Z) (B1 B2 V1 V2 D1 D2 : View) :
  let c1 := Z.min d1 m0 in
  let c2 := m0 - c1 in
  let A := AllocBuffer id in
  (forall b a, b <> A -> mem1 b a = mem b a) ->
  (m0 < R \/ m1 < C ->
   forall idx, inRegion [R; C] idx ->
               mem1 A (dot idx (rowMajorStrides [R; C])) = fill) ->
  v_buffer B1 <> A -> v_buffer B2 <> A ->
  v_buffer V1 = v_buffer B1 -> v_buffer V2 = v_buffer B2 ->
  (forall i j, addr V1 [i; j] = addr B1 [i; j]) ->
  (forall i j, addr V2 [i; j] = addr B2 [i; j]) ->
  v_sizes V1 = [c1; m1] -> v_sizes V2 = [c2; m1] ->
  v_buffer D1 = A -> v_offset D1 = dot [0; 0] (rowMajorStrides [R; C]) ->
  v_strides D1 = rowMajorStrides [R; C] ->
  v_buffer D2 = A -> v_offset D2 = dot [c1; 0] (rowMajorStrides [R; C]) ->
  v_strides D2 = rowMajorStrides [R; C] ->
  0 <= m0 <= R -> 0 <= m1 <= C -> 0 <= d1 ->
  forall idx,
    inRegion [R; C] idx ->
    copyView V2 D2 (copyView V1 D1 mem1) A (dot idx (rowMajorStrides [R; C])) =
    if inRegionb [m0; m1] idx
    then match idx with
         | [i; j] => if i <? d1 then readView mem B1 [i; j]
                     else readView mem B2 [i - d1; j]
         | _ => 0
         end
    else fill.
Proof.
  intros c1 c2 A Hsame Hfill HB1 HB2 HV1 HV2 Ha1 Ha2 Hz1 Hz2
         Hd1b Hd1o Hd1s Hd2b Hd2o Hd2s Hm0 Hm1 Hd idx Hidx.
  subst A.
  rewrite (two_copies_box id [R; C] [0; 0] [c1; m1] [c1; 0] [c2; m1]
             V1 V2 D1 D2 mem1 idx); try assumption.
  - destruct (inRegion_pair _ _ _ Hidx) as (i & j & -> & Hi & Hj).
    cbn [inBoxb inRegionb vsub].
    unfold readView. rewrite HV1, HV2, Ha1, Ha2, !Hsame by assumption.
    rewrite !Z.sub_0_r, !Z.add_0_l, !andb_true_r.
    unfold c2, c1 in *.
    destruct (0 <=? i) eqn:E0; [|apply Z.leb_gt in E0; lia].
    destruct (0 <=? j) eqn:E1; [|apply Z.leb_gt in E1; lia].
    cbn [andb].
    destruct (j <? m1) eqn:E2; rewrite ?andb_true_r, ?andb_false_r.
    + apply Z.ltb_lt in E2.
      destruct (Z.min d1 m0 <=? i) eqn:E3, (i <? m0) eqn:E4, (i <? d1) eqn:E5,
        (i <? Z.min d1 m0) eqn:E6, (i <? Z.min d1 m0 + (m0 - Z.min d1 m0)) eqn:E7;
        cbn [andb];
        try apply Z.leb_le in E3; try apply Z.leb_gt in E3;
        try apply Z.ltb_lt in E4; try apply Z.ltb_ge in E4;
        try apply Z.ltb_lt in E5; try apply Z.ltb_ge in E5;
        try apply Z.ltb_lt in E6; try apply Z.ltb_ge in E6;
        try apply Z.ltb_lt in E7; try apply Z.ltb_ge in E7;
        try lia; try reflexivity;
        try (apply Hfill; [lia|exact Hidx]);
        try (replace (i - Z.min d1 m0) with (i - d1) by lia; reflexivity).
    + apply Z.ltb_ge in E2. apply Hfill; [lia|exact Hidx].
  - rewrite HV2. exact HB2.
  - unfold c1. cbn. lia.
  - unfold c2, c1. cbn. lia.
Qed.

Ltac run_split_load Hm1 Hm2 :=
  unfold LoadConverter.getSideBySideSubviews, LoadConverter.getStackedSubviews,
    LoadConverter.createSubview,
    LoadConverter.createSideBySideCopies, LoadConverter.createStackedCopies,
    subOFRs, minOFRs, ofrToIndexValue, eraseDefiningOp, replaceOp, rewrite,
    bind, ret, create, emit, assert, abort, at_;
  cbn -[wrap64 Z.min execAll readView evalMemRef evalOFR sourceElement
        inRegionb extent in_int64];
  rewrite ?Hm1;
  cbn -[wrap64 Z.min execAll readView evalMemRef evalOFR sourceElement
        inRegionb extent in_int64];
  rewrite ?Hm2;
  cbn -[wrap64 Z.min execAll readView evalMemRef evalOFR sourceElement
        inRegionb extent in_int64].

Lemma masked_load_split (loc : Location) (elem : nat) (s : RewriterState)
    (env : Env) (mem : Mem) (other block1 block2 : Value) (wrapType : string)
    (R C : Z) (mr mc : OpFoldResult) :
  let ptr := UnrealizedConversionCastOp [block1; block2] [wrapType] in
  let op := {| LoadOp.getLoc := loc; LoadOp.getPtr := ptr;
               LoadOp.getTypeShape := [R; C]; LoadOp.getTypeElement := elem;
               LoadOp.hasMask := true; LoadOp.getMixedMaskDims := [mr; mc];
               LoadOp.getOther := Some other |} in
  let masks := [evalOFR env mr; evalOFR env mc] in
  let id := List.length (created s) in
  let alloc := AllocOp id [R; C] in
  wrapType = WRAP_SIDE_BY_SIDE \/ wrapType = WRAP_STACKED ->
  isMemRef block1 = true -> isMemRef block2 = true ->
  exists s' cond before after,
    let ops := [Def alloc] ++ before
               ++ [IfOp cond [FillOp other alloc; YieldOp]] ++ after in
    LoadConverter.matchAndRewrite op s = Some (success, s') /\
    created s' = created s ++ ops /\
    Forall (fun o => isArith o = true) before /\
    existsb isCopyOp after = true /\
    (evalIndex env cond <> 0 <->
     Exists (fun p => fst p < snd p) (combine masks [R; C])) /\
    (Forall2 (fun m e => 0 <= m <= e) masks [R; C] ->
     v_buffer (evalMemRef env block1) <> AllocBuffer id ->
     v_buffer (evalMemRef env block2) <> AllocBuffer id ->
     0 <= extent env block1 (splitAxis wrapType) ->
     in_int64 (nth (splitAxis wrapType) masks 0) ->
     forall idx,
       inRegion [R; C] idx ->
       readView (execAll env ops mem) (evalMemRef env alloc) idx =
       if inRegionb masks idx then sourceElement env mem ptr idx
       else evalScalar env other).
Proof.
  intros ptr op masks id alloc Hwrap Hm1 Hm2.
  assert (Hlen : List.length (LoadOp.getMixedMaskDims op)
                 = List.length (LoadOp.getTypeShape op)) by reflexivity.
  unfold LoadConverter.matchAndRewrite, LoadConverter.rewriteMaskedLoad.
  cbn [op LoadOp.hasMask LoadOp.getOther LoadOp.getPtr LoadOp.getTypeShape
       LoadOp.getMixedMaskDims LoadOp.getLoc].
  unfold createAlloc, assert. mrun.
  match goal with |- context [foldM _ _ ?acc ?st] =>
    destruct (fillCondition_run op Hlen 2%nat 0%nat acc st eq_refl)
      as (cond & s1 & ops1 & Hrun1 & Hc1 & Ha1 & He1) end.
  red in Hc1. cbn [created diagnostics rewrites] in Hc1. subst s1.
  cbn [op LoadOp.getTypeShape LoadOp.getMixedMaskDims List.length] in Hrun1.
  cbn [List.length]. rewrite Hrun1. mrun.
  assert (Hcond : evalIndex env cond <> 0 <->
                  Exists (fun p => fst p < snd p) (combine masks [R; C])).
  { rewrite He1. cbn [evalIndex Zbool skipn map op LoadOp.getMixedMaskDims
                        LoadOp.getTypeShape].
    split; [intros [H|H]; [congruence|exact H]|intros H; right; exact H]. }
  clear He1 Hrun1 Hlen.
  destruct Hwrap; subst wrapType; destruct mr as [mr|mr], mc as [mc|mc].
  all: run_split_load Hm1 Hm2.
  all: eexists _, cond, (Def (ConstantBoolOp false) :: ops1), _.
  all: split; [reflexivity|].
  all: split;
    [ cbn [created]; etransitivity;
      [ repeat rewrite <- app_assoc; cbn [app]; reflexivity
      | cbn [app]; reflexivity ] | ].
  all: split; [constructor; [reflexivity|exact Ha1]|].
  all: split; [reflexivity|].
  all: split; [exact Hcond|].
  all: intros Hmasks Hb1 Hb2 Hd Hfit idx Hidx.
  all: destruct (inRegion_pair _ _ _ Hidx) as (i & j & -> & Hi & Hj).
  all: inversion Hmasks as [|m0' R' ? ? Hm0 Hrest]; subst;
       inversion Hrest as [|m1' C' ? ? Hm1' _]; subst.
  all: unfold execAll; cbn [app fold_left exec]; rewrite fold_left_app;
       fold (execAll env ops1 mem); rewrite (execAll_arith env ops1 mem Ha1);
       cbn [fold_left exec].
  all: set (mem1 := if evalIndex env cond =? 0 then mem
                    else fillView (evalScalar env other) (evalMemRef env alloc) mem).
  all: unfold readView at 1; unfold addr at 1;
       change (evalMemRef env alloc)
         with {| v_buffer := AllocBuffer id; v_offset := 0; v_sizes := [R; C];
                 v_strides := rowMajorStrides [R; C] |} at 1 2;
       cbn [v_buffer v_offset v_strides]; rewrite Z.add_0_l;
       change (v_strides (evalMemRef env alloc)) with (rowMajorStrides [R; C]).
  all: first
    [ etransitivity;
      [ eapply (split_memory_side_by_side mem mem1 id R C
                  (nth 0 masks 0) (nth 1 masks 0) (extent env block1 1)
                  (evalScalar env other)
                  (evalMemRef env block1) (evalMemRef env block2))
      | reflexivity ]
    | etransitivity;
      [ eapply (split_memory_stacked mem mem1 id R C
                  (nth 0 masks 0) (nth 1 masks 0) (extent env block1 0)
                  (evalScalar env other)
                  (evalMemRef env block1) (evalMemRef env block2))
      | reflexivity ] ].
  all: cbn [nth masks evalOFR] in *.
  all: try exact Hb1; try exact Hb2; try exact Hidx; try exact Hd;
       try exact Hm0; try exact Hm1'.
  all: try reflexivity.
  all: try (intros b a Hne; unfold mem1;
            destruct (evalIndex env cond =? 0); [reflexivity|];
            apply fillView_other; exact Hne).
  all: try (intros Hlt idx' Hidx'; unfold mem1;
            destruct (evalIndex env cond =? 0) eqn:Hc;
            [ apply Z.eqb_eq in Hc; exfalso;
              apply (proj2 Hcond); [|exact Hc];
              cbn [combine];
              destruct Hlt;
              [apply Exists_cons_hd|apply Exists_cons_tl, Exists_cons_hd];
              assumption
            | apply fillView_dense; try reflexivity; exact Hidx' ]).
  all: try (intros i' j'; unfold addr;
            cbn [evalMemRef v_offset v_strides map evalOFR];
            match goal with
            | |- context [v_strides (evalMemRef ?e ?b)] =>
                destruct (v_strides (evalMemRef e b)) as [|s0 [|s1 t]]
            end; cbn; ring).
  all: try (cbn [evalMemRef v_sizes map evalOFR evalIndex nth]; unfold extent;
            rewrite wrap64_id; [reflexivity|];
            unfold extent, in_int64 in *; cbn [evalOFR] in *; lia).
  all: try (cbn; rewrite !Z.mul_1_r; reflexivity).
Qed.

(** C6: a masked load with a fill value allocates the destination, computes
    the or-accumulation of "valid extent < full extent" over the dimensions
    with index arithmetic only, fills the whole destination under that
    condition, and only then copies; the condition holds exactly when some
    dimension's valid extent is smaller than the full one.  When the valid
    extents lie between zero and the full extents and the sources are not
    the new buffer, the destination afterwards holds, at every index of the
    shape, the source element inside the mask and the fill value outside. *)
Theorem masked_load_fill (op : LoadOp.t) (s : RewriterState) (env : Env)
    (mem : Mem) (other : Value) :
  let ptr := LoadOp.getPtr op in
  let shape := LoadOp.getTypeShape op in
  let dims := LoadOp.getMixedMaskDims op in
  let masks := map (evalOFR env) dims in
  let id := List.length (created s) in
  let alloc := AllocOp id shape in
  LoadOp.hasMask op = true ->
  LoadOp.getOther op = Some other ->
  List.length dims = List.length shape ->
  (isSingleView ptr = true \/
   exists block1 block2 wrapType,
     ptr = UnrealizedConversionCastOp [block1; block2] [wrapType] /\
     (wrapType = WRAP_SIDE_BY_SIDE \/ wrapType = WRAP_STACKED) /\
     isMemRef block1 = true /\ isMemRef block2 = true /\
     List.length shape = 2%nat) ->
  exists s' cond before after,
    let ops := [Def alloc] ++ before
               ++ [IfOp cond [FillOp other alloc; YieldOp]] ++ after in
    LoadConverter.matchAndRewrite op s = Some (success, s') /\
    created s' = created s ++ ops /\
    Forall (fun o => isArith o = true) before /\
    existsb isCopyOp after = true /\
    (evalIndex env cond <> 0 <->
     Exists (fun p => fst p < snd p) (combine masks shape)) /\
    (Forall2 (fun m e => 0 <= m <= e) masks shape ->
     Forall (fun b => v_buffer (evalMemRef env b) <> AllocBuffer id)
            (sourceBlocks ptr) ->
     (forall block1 block2 wrapType,
         ptr = UnrealizedConversionCastOp [block1; block2] [wrapType] ->
         0 <= extent env block1 (splitAxis wrapType) /\
         in_int64 (nth (splitAxis wrapType) masks 0)) ->
     forall idx,
       inRegion shape idx ->
       readView (execAll env ops mem) (evalMemRef env alloc) idx =
       if inRegionb masks idx then sourceElement env mem ptr idx
       else evalScalar env other).
Proof.
  intros ptr shape dims masks id alloc Hmask Hother Hlen [Hsingle|Hsplit].
  - destruct (rewriteMaskedLoad_single_run op s other Hmask Hother Hsingle Hlen)
      as (cond & before & Hrun & Hbefore & Hcond).
    cbv zeta in Hrun. fold ptr shape dims id alloc in Hrun.
    destruct (isSingleView_facts ptr Hsingle) as (_ & _ & _ & Hsrc & Hblocks).
    eexists _, cond, before, _. cbv zeta.
    split; [exact Hrun|].
    split; [reflexivity|].
    split; [exact Hbefore|].
    split; [reflexivity|].
    split; [apply Hcond|].
    intros Hmasks Hbuf _ idx Hidx.
    rewrite Hsrc. rewrite Hblocks in Hbuf. inversion Hbuf as [|? ? Hb _]; subst.
    apply masked_load_single_memory; try assumption. apply Hcond.
  - destruct Hsplit as (block1 & block2 & wrapType & Hptr & Hwrap & Hm1 & Hm2 & Hrank).
    destruct op as [loc ptr' shape' elem mask dims' other'].
    cbn [LoadOp.getPtr LoadOp.hasMask LoadOp.getOther LoadOp.getMixedMaskDims
         LoadOp.getTypeShape LoadOp.getLoc] in *.
    subst ptr shape dims. subst ptr' mask other'.
    destruct shape' as [|R [|C [|]]]; try discriminate.
    destruct dims' as [|mr [|mc [|]]]; try discriminate.
    destruct (masked_load_split loc elem s env mem other block1 block2 wrapType
                R C mr mc Hwrap Hm1 Hm2)
      as (s' & cond & before & after & Hrun & Hcreated & Hbefore & Hafter
          & Hcond & Hsem).
    exists s', cond, before, after. cbv zeta.
    split; [exact Hrun|].
    split; [exact Hcreated|].
    split; [exact Hbefore|].
    split; [exact Hafter|].
    split; [exact Hcond|].
    intros Hmasks Hbuf Hext idx Hidx.
    cbn [sourceBlocks] in Hbuf.
    inversion Hbuf as [|? ? Hb1 Hbuf']; subst.
    inversion Hbuf' as [|? ? Hb2 _]; subst.
    destruct (Hext block1 block2 wrapType eq_refl) as [Hd Hfit].
    apply Hsem; assumption.
Qed.

(** C6 at [maskedSplitLoad]: index (1, 2) lies inside the mask and gets the
    element of the second chunk at (1, 0), address 8; index (3, 0) lies
    outside and gets the fill value. *)
Lemma masked_load_fill_witness :
  exists s',
    LoadConverter.matchAndRewrite maskedSplitLoad emptyState = Some (success, s') /\
    let final := execAll splitEnv (created s') addressMem in
    let alloc := evalMemRef splitEnv (AllocOp 0 [4; 4]) in
    readView final alloc [1; 2] = 8 /\ readView final alloc [3; 0] = -1.
Proof.
  destruct (masked_load_fill maskedSplitLoad emptyState splitEnv addressMem
              (BlockArgument 3) eq_refl eq_refl eq_refl)
    as (s' & cond & before & after & Hrun & Hcreated & _ & _ & _ & Hsem).
  { right. exists (BlockArgument 1), (BlockArgument 2), WRAP_SIDE_BY_SIDE.
    repeat split; try reflexivity. left. reflexivity. }
  exists s'. split; [exact Hrun|]. cbv zeta.
  rewrite Hcreated.
  assert (Hmasks : Forall2 (fun m e => 0 <= m <= e) [3; 3] [4; 4])
    by (repeat constructor; lia).
  assert (Hbuf : Forall (fun b => v_buffer (evalMemRef splitEnv b) <> AllocBuffer 0)
                        [BlockArgument 1; BlockArgument 2])
    by (repeat constructor; discriminate).
  assert (Hext : forall block1 block2 wrapType,
             UnrealizedConversionCastOp [BlockArgument 1; BlockArgument 2]
               [WRAP_SIDE_BY_SIDE]
             = UnrealizedConversionCastOp [block1; block2] [wrapType] ->
             0 <= extent splitEnv block1 (splitAxis wrapType) /\
             in_int64 (nth (splitAxis wrapType) [3; 3] 0)).
  { intros b1 b2 w Heq. injection Heq as <- <- <-.
    split; [cbn; lia|unfold in_int64; cbn; lia]. }
  split.
  - etransitivity;
      [apply (Hsem Hmasks Hbuf Hext [1; 2]); repeat constructor; lia|reflexivity].
  - etransitivity;
      [apply (Hsem Hmasks Hbuf Hext [3; 0]); repeat constructor; lia|reflexivity].
Defined.

(** * Further properties

    Properties of the three patterns beyond the ones above. *)

(** ** The conversion of a descriptor: what it accepts and what it leaves *)

Lemma is_sorted_greater_false (l : list Z) :
  is_sorted_greater l = false <-> exists i, increasingAt l i.
Proof.
  unfold increasingAt.
  induction l as [|a l IH].
  - split; [discriminate|]. intros (i & x & y & H & _). destruct i; discriminate.
  - destruct l as [|b l].
    + split; [discriminate|].
      intros (i & x & y & H1 & H2 & _). destruct i as [|[|i]]; discriminate.
    + change (is_sorted_greater (a :: b :: l))
        with (negb (b >? a) && is_sorted_greater (b :: l)).
      rewrite andb_false_iff, IH, negb_false_iff, Z.gtb_ltb, Z.ltb_lt. split.
      * intros [H|(i & x & y & H1 & H2 & H3)].
        -- exists 0%nat, a, b. repeat split; auto.
        -- exists (S i), x, y. repeat split; auto.
      * intros (i & x & y & H1 & H2 & H3). destruct i as [|i].
        -- cbn in H1, H2. injection H1 as <-. injection H2 as <-. left; exact H3.
        -- right. exists i, x, y. repeat split; auto.
Qed.

Lemma bind_inv {A B} (m : M A) (k : A -> M B) (s s' : RewriterState) (b : B) :
  bind m k s = Some (b, s') ->
  exists a s1, m s = Some (a, s1) /\ k a s1 = Some (b, s').
Proof.
  rewrite bind_run. destruct (m s) as [[a s1]|]; [|discriminate].
  intros H. exists a, s1. split; [reflexivity|exact H].
Qed.

Lemma createSideBySideCastOps_None (op : MakeTensorPtrOp.t) (s : RewriterState) :
  nth_error (MakeTensorPtrOp.getSizes op) 0 = None \/
  nth_error (MakeTensorPtrOp.getSizes op) 1 = None \/
  nth_error (MakeTensorPtrOp.getMixedShape op) 1 = None ->
  MakeTensorPtrConverter.createSideBySideCastOps op s = None.
Proof.
  intros H.
  destruct (accumulateTargetOffset_run op s) as (ofr & s1 & ops1 & Hr1 & _).
  destruct (ofrToIndexValue_run ofr s1) as (t & s2 & ops2 & Hr2 & _).
  unfold MakeTensorPtrConverter.createSideBySideCastOps, at_.
  rewrite bind_run, Hr1, bind_run, Hr2.
  destruct (nth_error (MakeTensorPtrOp.getSizes op) 0) as [r|] eqn:E0; [|reflexivity].
  mrun.
  destruct (nth_error (MakeTensorPtrOp.getSizes op) 1) as [c|] eqn:E1; [|reflexivity].
  mrun.
  destruct (nth_error (MakeTensorPtrOp.getMixedShape op) 1) as [sh|] eqn:E2; [|reflexivity].
  exfalso. destruct H as [H|[H|H]]; discriminate.
Qed.

Lemma createStackedCastOps_None (op : MakeTensorPtrOp.t) (s : RewriterState) :
  List.length (MakeTensorPtrOp.getTypeShape op) <> 2%nat \/
  nth_error (MakeTensorPtrOp.getSizes op) 0 = None \/
  nth_error (MakeTensorPtrOp.getSizes op) 1 = None \/
  nth_error (MakeTensorPtrOp.getMixedStrides op) 0 = None \/
  nth_error (MakeTensorPtrOp.getMixedStrides op) 1 = None \/
  nth_error (MakeTensorPtrOp.getShape op) 0 = None ->
  MakeTensorPtrConverter.createStackedCastOps op s = None.
Proof.
  intros H.
  unfold MakeTensorPtrConverter.createStackedCastOps, at_.
  destruct (Nat.eqb (List.length (MakeTensorPtrOp.getTypeShape op)) 2) eqn:Hrank;
    [|reflexivity].
  apply Nat.eqb_eq in Hrank.
  cbn [assert]. mrun.
  destruct (accumulateTargetOffset_run op s) as (ofr & s1 & ops1 & Hr1 & _).
  destruct (ofrToIndexValue_run ofr s1) as (t & s2 & ops2 & Hr2 & _).
  rewrite Hr1. mrun. rewrite Hr2.
  destruct (nth_error (MakeTensorPtrOp.getSizes op) 0) as [r|] eqn:E0; [|reflexivity].
  mrun.
  destruct (nth_error (MakeTensorPtrOp.getSizes op) 1) as [c|] eqn:E1; [|reflexivity].
  mrun.
  destruct (nth_error (MakeTensorPtrOp.getMixedStrides op) 0) as [st0|] eqn:E2;
    [|reflexivity].
  mrun.
  match goal with |- context [ofrToIndexValue st0 ?st] =>
    destruct (ofrToIndexValue_run st0 st) as (sr & s3 & ops3 & Hr3 & _) end.
  rewrite Hr3.
  destruct (nth_error (MakeTensorPtrOp.getMixedStrides op) 1) as [st1|] eqn:E3;
    [|reflexivity].
  mrun.
  match goal with |- context [ofrToIndexValue st1 ?st] =>
    destruct (ofrToIndexValue_run st1 st) as (sc & s4 & ops4 & Hr4 & _) end.
  rewrite Hr4.
  destruct (nth_error (MakeTensorPtrOp.getShape op) 0) as [m|] eqn:E4; [|reflexivity].
  exfalso. destruct H as [H|[H|[H|[H|[H|H]]]]]; try discriminate. contradiction.
Qed.

Lemma getResultMemrefType_split (op : MakeTensorPtrOp.t) :
  MakeTensorPtrConverter.getResultMemrefType op kDynamic
    (repeat kDynamic (List.length (MakeTensorPtrOp.getTypeShape op)))
    [kDynamic; kDynamic]
  = splitViewType op.
Proof.
  unfold MakeTensorPtrConverter.getResultMemrefType, splitViewType,
    MakeTensorPtrConverter.getElementTypeBlockPtr,
    MakeTensorPtrConverter.getElementTypeStructuredPtr.
  destruct (MakeTensorPtrOp.isBlockPtr op); reflexivity.
Qed.

Lemma nth_error_defined {A} (l : list A) (i : nat) :
  (i < List.length l)%nat -> exists x, nth_error l i = Some x.
Proof.
  intros H. destruct (nth_error l i) as [x|] eqn:E; [exists x; reflexivity|].
  apply nth_error_None in E. lia.
Qed.

Lemma createSideBySideCastOps_views (op : MakeTensorPtrOp.t) (s : RewriterState) :
  (2 <= List.length (MakeTensorPtrOp.getSizes op))%nat ->
  (2 <= List.length (MakeTensorPtrOp.getMixedShape op))%nat ->
  exists offset1 sizes1 offset2 sizes2 strides ops d2,
    let cast1 := ReinterpretCastOp (splitViewType op) (MakeTensorPtrOp.getBase op)
                   offset1 sizes1 strides in
    let cast2 := ReinterpretCastOp (splitViewType op) (MakeTensorPtrOp.getBase op)
                   offset2 sizes2 strides in
    MakeTensorPtrConverter.createSideBySideCastOps op s =
    Some ((cast1, cast2),
          {| created := created s ++ ops ++ [Def cast1; Def d2; Def cast2];
             diagnostics := diagnostics s;
             rewrites := rewrites s |}) /\
    Forall (fun o => isArith o = true) ops /\ isArith (Def d2) = true.
Proof.
  intros Hs Hm.
  destruct (nth_error_defined (MakeTensorPtrOp.getSizes op) 0) as [rowSize H0]; [lia|].
  destruct (nth_error_defined (MakeTensorPtrOp.getSizes op) 1) as [colSize H1]; [lia|].
  destruct (nth_error_defined (MakeTensorPtrOp.getMixedShape op) 1) as [shape1 H2]; [lia|].
  destruct (createSideBySideCastOps_run op s rowSize colSize shape1 H0 H1 H2)
    as (t & modN & strideVals & resultType & ops & s' & Hrun & Hc & Ha & _).
  cbv zeta in Hrun, Hc. red in Hc. subst s'.
  assert (Hty : resultType = splitViewType op).
  { revert Hrun. unfold MakeTensorPtrConverter.createSideBySideCastOps.
    rewrite getResultMemrefType_split. intros Hrun.
    destruct (accumulateTargetOffset_run op s) as (ofr & s1 & ops1 & Hr1 & _).
    rewrite bind_run, Hr1 in Hrun.
    destruct (ofrToIndexValue_run ofr s1) as (t' & s2 & ops2 & Hr2 & _).
    rewrite bind_run, Hr2 in Hrun. unfold at_ in Hrun. rewrite H0 in Hrun.
    revert Hrun. mrun. rewrite H1. mrun. rewrite H2. mrun.
    match goal with |- context [ofrToIndexValue shape1 ?st] =>
      destruct (ofrToIndexValue_run shape1 st) as (modN' & s3 & ops3 & Hr3 & _) end.
    rewrite Hr3. mrun.
    match goal with |- context [ofrsToIndexValues ?l ?st] =>
      destruct (ofrsToIndexValues_run l st) as (sv & s4 & ops4 & Hr4 & _) end.
    rewrite Hr4. mrun. intros Hrun. injection Hrun as Hrun _. congruence. }
  subst resultType.
  eexists _, _, _, _, _, ops, _. cbv zeta.
  split; [rewrite Hrun; f_equal; f_equal; f_equal; rewrite <- app_assoc; reflexivity|].
  split; [exact Ha|reflexivity].
Qed.

Lemma createStackedCastOps_views (op : MakeTensorPtrOp.t) (s : RewriterState) :
  List.length (MakeTensorPtrOp.getTypeShape op) = 2%nat ->
  (2 <= List.length (MakeTensorPtrOp.getSizes op))%nat ->
  (2 <= List.length (MakeTensorPtrOp.getMixedStrides op))%nat ->
  (1 <= List.length (MakeTensorPtrOp.getShape op))%nat ->
  exists offset1 sizes1 offset2 sizes2 strides ops d2,
    let cast1 := ReinterpretCastOp (splitViewType op) (MakeTensorPtrOp.getBase op)
                   offset1 sizes1 strides in
    let cast2 := ReinterpretCastOp (splitViewType op) (MakeTensorPtrOp.getBase op)
                   offset2 sizes2 strides in
    MakeTensorPtrConverter.createStackedCastOps op s =
    Some ((cast1, cast2),
          {| created := created s ++ ops ++ [Def cast1; Def d2; Def cast2];
             diagnostics := diagnostics s;
             rewrites := rewrites s |}) /\
    Forall (fun o => isArith o = true) ops /\ isArith (Def d2) = true.
Proof.
  intros Hrank Hs Hst Hsh.
  destruct (nth_error_defined (MakeTensorPtrOp.getSizes op) 0) as [rowSize H0]; [lia|].
  destruct (nth_error_defined (MakeTensorPtrOp.getSizes op) 1) as [colSize H1]; [lia|].
  destruct (nth_error_defined (MakeTensorPtrOp.getMixedStrides op) 0) as [st0 H2]; [lia|].
  destruct (nth_error_defined (MakeTensorPtrOp.getMixedStrides op) 1) as [st1 H3]; [lia|].
  destruct (nth_error_defined (MakeTensorPtrOp.getShape op) 0) as [modRow H4]; [lia|].
  destruct (createStackedCastOps_run op s rowSize colSize st0 st1 modRow
              Hrank H0 H1 H2 H3 H4)
    as (t & sr & sc & resultType & ops & s' & Hrun & Hc & Ha & _).
  cbv zeta in Hrun, Hc. red in Hc. subst s'.
  assert (Hty : resultType = splitViewType op).
  { revert Hrun. unfold MakeTensorPtrConverter.createStackedCastOps.
    rewrite getResultMemrefType_split, Hrank. cbn [Nat.eqb assert]. mrun.
    destruct (accumulateTargetOffset_run op s) as (ofr & s1 & ops1 & Hr1 & _).
    rewrite Hr1. mrun.
    destruct (ofrToIndexValue_run ofr s1) as (t' & s2 & ops2 & Hr2 & _).
    rewrite Hr2. unfold at_. rewrite H0. mrun. rewrite H1. mrun. rewrite H2. mrun.
    match goal with |- context [ofrToIndexValue st0 ?st] =>
      destruct (ofrToIndexValue_run st0 st) as (sr' & s3 & ops3 & Hr3 & _) end.
    rewrite Hr3, H3. mrun.
    match goal with |- context [ofrToIndexValue st1 ?st] =>
      destruct (ofrToIndexValue_run st1 st) as (sc' & s4 & ops4 & Hr4 & _) end.
    rewrite Hr4, H4. mrun. intros Hrun. injection Hrun as Hrun _. congruence. }
  subst resultType.
  eexists _, _, _, _, _, ops, _. cbv zeta.
  split; [rewrite Hrun; f_equal; f_equal; f_equal; rewrite <- app_assoc; reflexivity|].
  split; [exact Ha|reflexivity].
Qed.

Lemma rewriteSplitPtr_run (op : MakeTensorPtrOp.t) (s : RewriterState) :
  splitPreconditions op = true ->
  exists offset1 sizes1 offset2 sizes2 strides ops,
    let cast1 := ReinterpretCastOp (splitViewType op) (MakeTensorPtrOp.getBase op)
                   offset1 sizes1 strides in
    let cast2 := ReinterpretCastOp (splitViewType op) (MakeTensorPtrOp.getBase op)
                   offset2 sizes2 strides in
    let pair := UnrealizedConversionCastOp [cast1; cast2] [wrapTypeOf op] in
    MakeTensorPtrConverter.rewriteSplitPtr op s =
    Some (success,
          {| created := created s ++ ops ++ [Def pair];
             diagnostics := diagnostics s;
             rewrites := rewrites s ++ [ReplaceOp (MakeTensorPtrOp.getLoc op) pair] |}) /\
    Forall (fun o => isArith o || isView o = true) ops.
Proof.
  unfold splitPreconditions, wrapTypeOf, MakeTensorPtrConverter.rewriteSplitPtr, at_.
  destruct (MakeTensorPtrOp.getStaticShape op) as [|p0 rest] eqn:Hp; [discriminate|].
  cbn [nth_error nth]. mrun.
  destruct (p0 =? kDynamic) eqn:Hk.
  - destruct rest as [|p1 rest]; [discriminate|].
    rewrite !andb_true_iff. intros [[[[Hz Hrank] Hs] Hst] Hsh].
    apply Nat.eqb_eq in Hrank. apply Nat.leb_le in Hs, Hst, Hsh.
    cbn [nth_error]. mrun. rewrite Hz. cbn [assert]. mrun.
    destruct (createStackedCastOps_views op s Hrank Hs Hst Hsh)
      as (o1 & z1 & o2 & z2 & st & ops & d2 & Hrun & Ha & Hd).
    cbv zeta in Hrun. rewrite Hrun. mrun. unfold replaceOp, rewrite. mrun.
    exists o1, z1, o2, z2, st.
    exists (ops ++ [Def (ReinterpretCastOp (splitViewType op)
                           (MakeTensorPtrOp.getBase op) o1 z1 st);
                    Def d2;
                    Def (ReinterpretCastOp (splitViewType op)
                           (MakeTensorPtrOp.getBase op) o2 z2 st)]).
    split.
    + f_equal. f_equal. f_equal.
      rewrite <- !app_assoc. reflexivity.
    + apply Forall_app. split.
      * eapply Forall_impl; [|exact Ha]. intros o Ho. cbn beta in Ho. rewrite Ho. reflexivity.
      * constructor; [reflexivity|]. constructor; [|constructor; [reflexivity|constructor]].
        cbn beta. rewrite Hd. reflexivity.
  - rewrite !andb_true_iff. intros [[Hz Hs] Hm].
    apply Nat.leb_le in Hs, Hm. rewrite Hz. cbn [assert]. mrun.
    destruct (createSideBySideCastOps_views op s Hs Hm)
      as (o1 & z1 & o2 & z2 & st & ops & d2 & Hrun & Ha & Hd).
    cbv zeta in Hrun. rewrite Hrun. mrun. unfold replaceOp, rewrite. mrun.
    exists o1, z1, o2, z2, st.
    exists (ops ++ [Def (ReinterpretCastOp (splitViewType op)
                           (MakeTensorPtrOp.getBase op) o1 z1 st);
                    Def d2;
                    Def (ReinterpretCastOp (splitViewType op)
                           (MakeTensorPtrOp.getBase op) o2 z2 st)]).
    split.
    + f_equal. f_equal. f_equal.
      rewrite <- !app_assoc. reflexivity.
    + apply Forall_app. split.
      * eapply Forall_impl; [|exact Ha]. intros o Ho. cbn beta in Ho. rewrite Ho. reflexivity.
      * constructor; [reflexivity|]. constructor; [|constructor; [reflexivity|constructor]].
        cbn beta. rewrite Hd. reflexivity.
Qed.

Lemma nth_error_short {A} (l : list A) (i : nat) :
  (List.length l <= i)%nat -> nth_error l i = None.
Proof. apply nth_error_None. Qed.

Lemma rewriteSplitPtr_None (op : MakeTensorPtrOp.t) (s : RewriterState) :
  splitPreconditions op = false ->
  MakeTensorPtrConverter.rewriteSplitPtr op s = None.
Proof.
  unfold splitPreconditions, MakeTensorPtrConverter.rewriteSplitPtr, at_.
  destruct (MakeTensorPtrOp.getStaticShape op) as [|p0 rest] eqn:Hp; [reflexivity|].
  cbn [nth_error]. mrun.
  destruct (p0 =? kDynamic) eqn:Hk.
  - destruct rest as [|p1 rest]; [reflexivity|].
    cbn [nth_error]. mrun.
    destruct (p1 =? 0); [|reflexivity].
    cbn [assert andb]. mrun. intros H.
    rewrite createStackedCastOps_None; [reflexivity|].
    destruct (Nat.eqb (List.length (MakeTensorPtrOp.getTypeShape op)) 2) eqn:E1;
      [|left; apply Nat.eqb_neq; exact E1].
    destruct (Nat.leb 2 (List.length (MakeTensorPtrOp.getSizes op))) eqn:E2;
      [|apply Nat.leb_gt in E2; right; right; left; apply nth_error_short; lia].
    destruct (Nat.leb 2 (List.length (MakeTensorPtrOp.getMixedStrides op))) eqn:E3;
      [|apply Nat.leb_gt in E3; do 4 right; left; apply nth_error_short; lia].
    cbn [andb] in H. apply Nat.leb_gt in H.
    do 5 right. apply nth_error_short. lia.
  - destruct (p0 =? 0); [|reflexivity].
    cbn [assert andb]. mrun. intros H.
    rewrite createSideBySideCastOps_None; [reflexivity|].
    destruct (Nat.leb 2 (List.length (MakeTensorPtrOp.getSizes op))) eqn:E2;
      [|apply Nat.leb_gt in E2; right; left; apply nth_error_short; lia].
    cbn [andb] in H. apply Nat.leb_gt in H.
    right; right. apply nth_error_short. lia.
Qed.

Lemma withDiagnostic_neq (s : RewriterState) (d : Location * string) :
  withDiagnostic s d <> s.
Proof.
  intros H. apply (f_equal diagnostics) in H. cbn in H.
  apply (f_equal (@List.length _)) in H. rewrite length_app in H. cbn in H. lia.
Qed.

(** X1: the order check rejects exactly the orders in which some entry is
    smaller than the entry after it.  For those the conversion returns
    failure with the order diagnostic at the operation's location; an empty
    order, a single entry and an order with equal neighbours pass the check.
    The order diagnostic is the only diagnostic the conversion ever emits. *)
Theorem matchAndRewrite_order_check (op : MakeTensorPtrOp.t) (s : RewriterState) :
  let d := (MakeTensorPtrOp.getLoc op, orderDiagnostic) in
  (MakeTensorPtrConverter.matchAndRewrite op s = Some (failure, withDiagnostic s d)
   <-> exists i, increasingAt (MakeTensorPtrOp.getOrder op) i) /\
  forall r s',
    MakeTensorPtrConverter.matchAndRewrite op s = Some (r, s') ->
    diagnostics s' = diagnostics s \/ s' = withDiagnostic s d.
Proof.
  cbv zeta.
  assert (Hok : is_sorted_greater (MakeTensorPtrOp.getOrder op) = true ->
                forall r s',
                  MakeTensorPtrConverter.matchAndRewrite op s = Some (r, s') ->
                  diagnostics s' = diagnostics s /\ (r = failure -> s' = s)).
  { intros Hs r s'. unfold MakeTensorPtrConverter.matchAndRewrite.
    rewrite Hs. cbn [negb].
    unfold MakeTensorPtrConverter.rewriteBlockPtr,
      MakeTensorPtrConverter.rewriteStructuredPtr.
    assert (Hptr : forall b,
               MakeTensorPtrConverter.rewritePtr (MakeTensorPtrOp.getTypeShape op) b op s
               = Some (r, s') ->
               diagnostics s' = diagnostics s /\ (r = failure -> s' = s)).
    { intros b H.
      destruct (rewritePtr_run (MakeTensorPtrOp.getTypeShape op) b op s)
        as (t & ops & Hrun & _).
      cbv zeta in Hrun. rewrite Hrun in H. injection H as <- <-.
      split; [reflexivity|discriminate]. }
    destruct (MakeTensorPtrOp.isBlockPtr op); [apply Hptr|].
    destruct (MakeTensorPtrOp.isStructuredPtr op); [apply Hptr|].
    destruct (MakeTensorPtrOp.isSplitPtr op).
    - destruct (splitPreconditions op) eqn:Hpre.
      + destruct (rewriteSplitPtr_run op s Hpre)
          as (o1 & z1 & o2 & z2 & st & ops & Hrun & _).
        cbv zeta in Hrun. rewrite Hrun. intros H. injection H as <- <-.
        split; [reflexivity|discriminate].
      + rewrite (rewriteSplitPtr_None op s Hpre). discriminate.
    - intros H. injection H as <- <-. split; [reflexivity|reflexivity]. }
  split.
  - rewrite <- is_sorted_greater_false. split.
    + intros H.
      destruct (is_sorted_greater (MakeTensorPtrOp.getOrder op)) eqn:Hs; [|reflexivity].
      destruct (Hok eq_refl _ _ H) as [_ Hsame].
      exfalso. apply (withDiagnostic_neq s (MakeTensorPtrOp.getLoc op, orderDiagnostic)).
      apply Hsame. reflexivity.
    + intros Hs. unfold MakeTensorPtrConverter.matchAndRewrite. rewrite Hs. reflexivity.
  - intros r s' H.
    destruct (is_sorted_greater (MakeTensorPtrOp.getOrder op)) eqn:Hs.
    + left. apply (Hok eq_refl r s' H).
    + right. unfold MakeTensorPtrConverter.matchAndRewrite in H. rewrite Hs in H.
      cbn in H. injection H as _ <-. reflexivity.
Qed.

Lemma load_split_succeeds (op : LoadOp.t) (s : RewriterState)
    (block1 block2 : Value) (wrapType : string) :
  LoadOp.getPtr op = UnrealizedConversionCastOp [block1; block2] [wrapType] ->
  wrapType = WRAP_SIDE_BY_SIDE \/ wrapType = WRAP_STACKED ->
  isMemRef block1 = true -> isMemRef block2 = true ->
  (if LoadOp.hasMask op
   then List.length (LoadOp.getMixedMaskDims op) = 2%nat /\
        List.length (LoadOp.getTypeShape op) = 2%nat
   else LoadOp.getOther op = None) ->
  exists s', LoadConverter.matchAndRewrite op s = Some (success, s').
Proof.
  intros Hptr Hwrap Hm1 Hm2 Hwf.
  destruct op as [loc ptr shape elem mask dims otherValue].
  cbn [LoadOp.getPtr LoadOp.hasMask LoadOp.getOther LoadOp.getMixedMaskDims
       LoadOp.getTypeShape LoadOp.getLoc] in *.
  subst ptr.
  destruct mask.
  - destruct Hwf as [Hd Hs].
    destruct dims as [|mr [|mc [|]]]; try discriminate.
    destruct shape as [|R [|C [|]]]; try discriminate.
    destruct Hwrap; subst wrapType;
      destruct otherValue as [otherValue|], mr as [mr|mr], mc as [mc|mc].
    all: unfold_load; rewrite ?Hm1; cbn -[wrap64 Z.min];
         rewrite ?Hm2; cbn -[wrap64 Z.min].
    all: eexists; reflexivity.
  - rewrite Hwf.
    destruct Hwrap; subst wrapType.
    all: unfold_load.
    all: eexists; reflexivity.
Qed.



(** X3: the rewrite of a split descriptor returns success exactly when the
    first entry of the shape is dynamic, the second is the constant 0, the
    result type has rank 2, there are at least two sizes and two strides and
    the shape has a dynamic operand (stacked), or when the first entry of the
    shape is the constant 0 and there are at least two sizes and two shape
    entries (side by side).  In every other case it fails an assertion or a
    subscript; it never returns failure. *)
Theorem rewriteSplitPtr_asserts (op : MakeTensorPtrOp.t) (s : RewriterState) :
  if splitPreconditions op
  then exists s', MakeTensorPtrConverter.rewriteSplitPtr op s = Some (success, s')
  else MakeTensorPtrConverter.rewriteSplitPtr op s = None.
Proof.
  destruct (splitPreconditions op) eqn:Hpre.
  - destruct (rewriteSplitPtr_run op s Hpre) as (o1 & z1 & o2 & z2 & st & ops & Hrun & _).
    eexists. exact Hrun.
  - apply rewriteSplitPtr_None. exact Hpre.
Qed.

(** X4: what the rewrite of a split descriptor builds.  The descriptor is
    replaced by one combined cast of exactly two views of the descriptor's
    base; both views have the same type, with every extent, the offset and
    every stride dynamic, and the same strides; the cast carries exactly one
    wrap attribute, stacked when the first shape entry is dynamic and side by
    side otherwise.  Every 2-D load through that cast, masked or not, is
    converted successfully. *)
Theorem rewriteSplitPtr_pair (op : MakeTensorPtrOp.t) (s s' : RewriterState)
    (r : LogicalResult) :
  MakeTensorPtrConverter.rewriteSplitPtr op s = Some (r, s') ->
  exists offset1 sizes1 offset2 sizes2 strides ops,
    let cast1 := ReinterpretCastOp (splitViewType op) (MakeTensorPtrOp.getBase op)
                   offset1 sizes1 strides in
    let cast2 := ReinterpretCastOp (splitViewType op) (MakeTensorPtrOp.getBase op)
                   offset2 sizes2 strides in
    let pair := UnrealizedConversionCastOp [cast1; cast2] [wrapTypeOf op] in
    r = success /\
    s' = {| created := created s ++ ops ++ [Def pair];
            diagnostics := diagnostics s;
            rewrites := rewrites s ++ [ReplaceOp (MakeTensorPtrOp.getLoc op) pair] |} /\
    Forall (fun o => isArith o || isView o = true) ops /\
    hasAttr WRAP_STACKED pair = negb (hasAttr WRAP_SIDE_BY_SIDE pair) /\
    forall (load : LoadOp.t) (s1 : RewriterState),
      LoadOp.getPtr load = pair ->
      (if LoadOp.hasMask load
       then List.length (LoadOp.getMixedMaskDims load) = 2%nat /\
            List.length (LoadOp.getTypeShape load) = 2%nat
       else LoadOp.getOther load = None) ->
      exists s2, LoadConverter.matchAndRewrite load s1 = Some (success, s2).
Proof.
  intros H.
  destruct (splitPreconditions op) eqn:Hpre;
    [|rewrite (rewriteSplitPtr_None op s Hpre) in H; discriminate].
  destruct (rewriteSplitPtr_run op s Hpre) as (o1 & z1 & o2 & z2 & st & ops & Hrun & Ha).
  cbv zeta in Hrun. rewrite Hrun in H. injection H as <- <-.
  exists o1, z1, o2, z2, st, ops. cbv zeta.
  split; [reflexivity|]. split; [reflexivity|]. split; [exact Ha|].
  split.
  - unfold wrapTypeOf.
    destruct (nth 0 (MakeTensorPtrOp.getStaticShape op) 0 =? kDynamic); reflexivity.
  - intros load s1 Hptr Hwf.
    apply (load_split_succeeds load s1 _ _ (wrapTypeOf op) Hptr); try reflexivity;
      [|exact Hwf].
    unfold wrapTypeOf.
    destruct (nth 0 (MakeTensorPtrOp.getStaticShape op) 0 =? kDynamic);
      [right|left]; reflexivity.
Qed.

(** X4 at [sideBySideExample], with an unmasked load through the pair. *)
Lemma rewriteSplitPtr_pair_witness :
  exists cast1 cast2 s' s2,
    MakeTensorPtrConverter.rewriteSplitPtr sideBySideExample emptyState
    = Some (success, s') /\
    rewrites s' =
    [ReplaceOp 0%nat (UnrealizedConversionCastOp [cast1; cast2] [WRAP_SIDE_BY_SIDE])] /\
    LoadConverter.matchAndRewrite
      {| LoadOp.getLoc := 1%nat;
         LoadOp.getPtr := UnrealizedConversionCastOp [cast1; cast2] [WRAP_SIDE_BY_SIDE];
         LoadOp.getTypeShape := [4; 6];
         LoadOp.getTypeElement := 0%nat;
         LoadOp.hasMask := false;
         LoadOp.getMixedMaskDims := [];
         LoadOp.getOther := None |} s'
    = Some (success, s2).
Proof.
  assert (E : exists s', MakeTensorPtrConverter.rewriteSplitPtr sideBySideExample
                           emptyState = Some (success, s'))
    by (eexists; vm_compute; reflexivity).
  destruct E as [s' E].
  destruct (rewriteSplitPtr_pair _ _ _ _ E)
    as (o1 & z1 & o2 & z2 & st & ops & _ & Hs & _ & _ & Hload).
  cbv zeta in Hs, Hload.
  match type of Hload with
  | forall load s1, LoadOp.getPtr load = ?p -> _ =>
      destruct (Hload {| LoadOp.getLoc := 1%nat; LoadOp.getPtr := p;
                         LoadOp.getTypeShape := [4; 6];
                         LoadOp.getTypeElement := 0%nat;
                         LoadOp.hasMask := false;
                         LoadOp.getMixedMaskDims := [];
                         LoadOp.getOther := None |} s' eq_refl eq_refl) as [s2 H2]
  end.
  eexists _, _, s', s2. split; [exact E|]. split; [rewrite Hs; reflexivity|exact H2].
Defined.

(** ** The adjusted strides *)

Lemma wrap32_fixed (z : Z) : wrap32 z = z <-> in_int32 z.
Proof.
  split; [|apply wrap32_id].
  unfold wrap32, in_int32. intros H.
  pose proof (Z.mod_pos_bound (z + 2147483648) 4294967296). lia.
Qed.

Lemma wrap32_multiple (z : Z) : z mod 4294967296 = 0 -> wrap32 z = 0.
Proof.
  intros H. unfold wrap32.
  rewrite <- Zplus_mod_idemp_l, H. reflexivity.
Qed.

(** X5: the stride that replaces a zero stride on a dimension of size 1 is
    the product of the inner sizes truncated to 32 bits.  It is the product
    itself exactly when the product fits 32 bits, and it is again zero when
    the product is a multiple of 2^32. *)
Theorem getMixedStridesForMemref_accumulator_wraps
    (op : MakeTensorPtrOp.t) (k : nat) :
  List.length (MakeTensorPtrOp.getSizes op)
  = List.length (MakeTensorPtrOp.getMixedStrides op) ->
  nth_error (MakeTensorPtrOp.getSizes op) k = Some 1 ->
  nth_error (MakeTensorPtrOp.getMixedStrides op) k = Some (Attr 0) ->
  let inner := prod (skipn (S k) (MakeTensorPtrOp.getSizes op)) in
  let result := nth_error (MakeTensorPtrConverter.getMixedStridesForMemref op) k in
  result = Some (Attr (wrap32 inner)) /\
  (result = Some (Attr inner) <-> in_int32 inner) /\
  (inner mod 4294967296 = 0 -> result = Some (Attr 0)).
Proof.
  intros Hlen Hsize Hstride inner result.
  assert (Hres : result = Some (Attr (wrap32 inner))).
  { unfold result. rewrite getMixedStridesForMemref_adjustStrides.
    rewrite (adjustStrides_nth _ _ _ _ _ Hlen Hsize Hstride). reflexivity. }
  split; [exact Hres|]. split.
  - rewrite Hres, <- wrap32_fixed. split; [intros H; congruence|intros ->; reflexivity].
  - intros Hm. rewrite Hres, (wrap32_multiple _ Hm). reflexivity.
Qed.

(** X5 at [wideExample]: the replaced stride is zero again. *)
Lemma getMixedStridesForMemref_accumulator_wraps_witness :
  prod [65536; 65536] mod 4294967296 = 0 /\
  nth_error (MakeTensorPtrConverter.getMixedStridesForMemref wideExample) 0
  = Some (Attr 0).
Proof.
  assert (Hm : prod [65536; 65536] mod 4294967296 = 0) by reflexivity.
  split; [exact Hm|].
  exact (proj2 (proj2 (getMixedStridesForMemref_accumulator_wraps wideExample 0
                         eq_refl eq_refl eq_refl)) Hm).
Defined.

Lemma adjustStrides_length (dims : list (Z * OpFoldResult)) :
  List.length (fst (adjustStrides dims)) = List.length dims.
Proof.
  induction dims as [|[size stride] inner IH]; [reflexivity|].
  cbn [adjustStrides]. destruct (adjustStrides inner) as [strides accumulate].
  cbn [fst List.length] in *. rewrite IH. reflexivity.
Qed.

Lemma adjustStrides_unchanged (dims : list (Z * OpFoldResult)) :
  Forall (fun d => (fst d =? 1) && isZeroAttr (snd d) = false) dims ->
  fst (adjustStrides dims) = map snd dims.
Proof.
  induction 1 as [|[size stride] inner Hd _ IH]; [reflexivity|].
  cbn [adjustStrides map snd]. destruct (adjustStrides inner) as [strides accumulate].
  cbn [fst snd] in *. rewrite Hd, IH. reflexivity.
Qed.

Lemma map_snd_combine_same_length {A B} (a : list A) :
  forall b : list B,
    List.length a = List.length b -> map snd (combine a b) = b.
Proof.
  induction a as [|x a IH]; intros [|y b] Hlen; try discriminate; [reflexivity|].
  cbn. f_equal. apply IH. cbn in Hlen. lia.
Qed.

Lemma Forall_combine_nth {A B} (P : A * B -> Prop) (a : list A) :
  forall b : list B,
    (forall k x y, nth_error a k = Some x -> nth_error b k = Some y -> P (x, y)) ->
    Forall P (combine a b).
Proof.
  induction a as [|x a IH]; intros [|y b] H; cbn; try constructor.
  - apply (H 0%nat); reflexivity.
  - apply IH. intros k x' y' Hx Hy. apply (H (S k)); assumption.
Qed.

(** X6: the adjusted strides are as many as the shorter of sizes and
    strides, and a descriptor in which no dimension has both size 1 and the
    constant stride 0 keeps its strides as they are. *)
Theorem getMixedStridesForMemref_keeps_strides (op : MakeTensorPtrOp.t) :
  let sizes := MakeTensorPtrOp.getSizes op in
  let strides := MakeTensorPtrOp.getMixedStrides op in
  let result := MakeTensorPtrConverter.getMixedStridesForMemref op in
  List.length result = Nat.min (List.length sizes) (List.length strides) /\
  (List.length sizes = List.length strides ->
   (forall k size stride,
       nth_error sizes k = Some size -> nth_error strides k = Some stride ->
       size <> 1 \/ stride <> Attr 0) ->
   result = strides).
Proof.
  cbv zeta. rewrite getMixedStridesForMemref_adjustStrides. split.
  - rewrite adjustStrides_length. apply length_combine.
  - intros Hlen Hno.
    rewrite adjustStrides_unchanged; [apply map_snd_combine_same_length; exact Hlen|].
    apply Forall_combine_nth. intros k size stride Hs Ht. cbn [fst snd].
    destruct (Hno k size stride Hs Ht) as [H|H].
    + apply andb_false_iff. left. apply Z.eqb_neq. exact H.
    + apply andb_false_iff. right. destruct stride as [i|v]; [|reflexivity].
      cbn. apply Z.eqb_neq. intros ->. apply H. reflexivity.
Qed.

(** X6 at [offsetExample]. *)
Lemma getMixedStridesForMemref_keeps_strides_witness :
  MakeTensorPtrConverter.getMixedStridesForMemref offsetExample = [Attr 10; Attr 1].
Proof.
  apply (proj2 (getMixedStridesForMemref_keeps_strides offsetExample)); [reflexivity|].
  intros k size stride Hs Ht.
  destruct k as [|[|[|k]]]; cbn in Hs; try discriminate;
    injection Hs as <-; left; discriminate.
Defined.

(** ** The layout in the type of a view *)

Lemma addOFRs_kind (lhs rhs r : OpFoldResult) (s s' : RewriterState) :
  addOFRs lhs rhs s = Some (r, s') ->
  isStaticOFR r = isStaticOFR lhs && isStaticOFR rhs.
Proof.
  destruct lhs as [l|l], rhs as [x|x]; cbn; intros H; injection H as <- _; reflexivity.
Qed.

Lemma foldM_addOFRs_kind (offsets : list OpFoldResult) :
  forall (acc r : OpFoldResult) (s s' : RewriterState),
    foldM (fun targetOffset o => addOFRs targetOffset o) offsets acc s = Some (r, s') ->
    isStaticOFR r = isStaticOFR acc && forallb isStaticOFR offsets.
Proof.
  induction offsets as [|o offsets IH]; intros acc r s s' H.
  - cbn in H. injection H as <- _. cbn. rewrite andb_true_r. reflexivity.
  - cbn [foldM] in H. apply bind_inv in H. destruct H as (a & s1 & H1 & H2).
    rewrite (IH _ _ _ _ H2), (addOFRs_kind _ _ _ _ _ H1). cbn [forallb].
    rewrite andb_assoc. reflexivity.
Qed.

(** X7: the type of the view of a block or structured descriptor has the
    descriptor's shape and element type; its layout offset is the constant
    offset when every offset is static and dynamic as soon as one offset is
    dynamic, in which case the offset operand is a value; its layout strides
    are the adjusted strides with every dynamic one marked dynamic. *)
Theorem matchAndRewrite_layout_in_type (op : MakeTensorPtrOp.t) (s : RewriterState) :
  MakeTensorPtrOp.isBlockPtr op = true \/ MakeTensorPtrOp.isStructuredPtr op = true ->
  is_sorted_greater (MakeTensorPtrOp.getOrder op) = true ->
  exists targetOffset layoutOffset ops,
    let strides := MakeTensorPtrConverter.getMixedStridesForMemref op in
    let resultType :=
      MkMemRefType (MakeTensorPtrOp.getTypeShape op) (MakeTensorPtrOp.getTypeElement op)
                   layoutOffset (staticPart strides) in
    let castOp :=
      ReinterpretCastOp resultType (MakeTensorPtrOp.getBase op) targetOffset
        (MakeTensorPtrOp.getMixedSizes op) strides in
    MakeTensorPtrConverter.matchAndRewrite op s =
    Some (success,
          {| created := created s ++ ops ++ [Def castOp];
             diagnostics := diagnostics s;
             rewrites := rewrites s ++ [ReplaceOp (MakeTensorPtrOp.getLoc op) castOp] |}) /\
    (forallb isStaticOFR (MakeTensorPtrOp.getMixedOffsets op) = true ->
     targetOffset = Attr layoutOffset) /\
    (forallb isStaticOFR (MakeTensorPtrOp.getMixedOffsets op) = false ->
     layoutOffset = kDynamic /\ exists v, targetOffset = Val v) /\
    (forall k, nth_error (staticPart strides) k = Some kDynamic <->
               (exists v, nth_error strides k = Some (Val v)) \/
               nth_error strides k = Some (Attr kDynamic)).
Proof.
  intros Hkind Hord.
  assert (Hrun : exists b,
             MakeTensorPtrConverter.matchAndRewrite op s =
             MakeTensorPtrConverter.rewritePtr (MakeTensorPtrOp.getTypeShape op) b op s).
  { unfold MakeTensorPtrConverter.matchAndRewrite. rewrite Hord. cbn [negb].
    unfold MakeTensorPtrConverter.rewriteBlockPtr,
      MakeTensorPtrConverter.rewriteStructuredPtr.
    destruct (MakeTensorPtrOp.isBlockPtr op); [exists true; reflexivity|].
    destruct Hkind as [Hk|Hk]; [discriminate|]. rewrite Hk. exists false; reflexivity. }
  destruct Hrun as [b Hrun].
  destruct (rewritePtr_run (MakeTensorPtrOp.getTypeShape op) b op s)
    as (targetOffset & ops & Hptr & Hacc & _).
  cbv zeta in Hptr.
  pose proof (foldM_addOFRs_kind _ _ _ _ _ Hacc) as Hk. cbn [isStaticOFR andb] in Hk.
  exists targetOffset,
    (match getIntAttr targetOffset with Some o => o | None => kDynamic end), ops.
  cbv zeta. split.
  - rewrite Hrun, Hptr. unfold MakeTensorPtrConverter.getResultMemrefType,
      MakeTensorPtrConverter.getElementTypeBlockPtr,
      MakeTensorPtrConverter.getElementTypeStructuredPtr.
    destruct (MakeTensorPtrOp.isBlockPtr op); reflexivity.
  - split; [|split].
    + intros Hs. rewrite Hs in Hk. destruct targetOffset; [reflexivity|discriminate].
    + intros Hs. rewrite Hs in Hk. destruct targetOffset as [i|v]; [discriminate|].
      split; [reflexivity|]. exists v. reflexivity.
    + intros k. unfold staticPart. rewrite nth_error_map.
      destruct (nth_error (MakeTensorPtrConverter.getMixedStridesForMemref op) k)
        as [[i|v]|]; cbn [option_map].
      * split.
        -- intros H. injection H as ->. right. reflexivity.
        -- intros [[v H]|H]; [discriminate|]. injection H as ->. reflexivity.
      * split; [intros _; left; exists v; reflexivity|reflexivity].
      * split; [discriminate|]. intros [[v H]|H]; discriminate.
Qed.

(** X7 at [dynamicOffsetExample]: the layout offset is dynamic. *)
Lemma matchAndRewrite_layout_in_type_witness :
  exists targetOffset layoutOffset ops,
    MakeTensorPtrConverter.matchAndRewrite dynamicOffsetExample emptyState =
    Some (success,
          {| created :=
               ops ++ [Def (ReinterpretCastOp
                              (MkMemRefType [4; 4] 0 layoutOffset [10; 1])
                              (BlockArgument 0) targetOffset
                              [Attr 4; Attr 4] [Attr 10; Attr 1])];
             diagnostics := [];
             rewrites :=
               [ReplaceOp 0%nat
                  (ReinterpretCastOp
                     (MkMemRefType [4; 4] 0 layoutOffset [10; 1])
                     (BlockArgument 0) targetOffset
                     [Attr 4; Attr 4] [Attr 10; Attr 1])] |}) /\
    layoutOffset = kDynamic /\ exists v, targetOffset = Val v.
Proof.
  destruct (matchAndRewrite_layout_in_type dynamicOffsetExample emptyState
              (or_intror eq_refl) eq_refl)
    as (targetOffset & layoutOffset & ops & Hrun & _ & Hdyn & _).
  exists targetOffset, layoutOffset, ops.
  split; [exact Hrun|]. apply Hdyn. reflexivity.
Defined.

(** ** What a rewriter program creates *)

Section EmitsOnly.
Variables (P : Operation -> Prop) (R : Rewrite -> Prop).











End EmitsOnly.


Section LoadEmits.
Variables (id : nat) (ptr : Value).









End LoadEmits.

(** ** Loads: the destination buffer *)









Lemma getDefiningOp_Some (v d : Value) : getDefiningOp v = Some d -> d = v.
Proof. destruct v; cbn; intros H; try discriminate; injection H as <-; reflexivity. Qed.




(** ** Loads: the contents of the destination *)

Lemma inRegion_shape_nonneg (shape idx : list Z) :
  inRegion shape idx -> Forall2 (fun m e => 0 <= m <= e) shape shape.
Proof.
  unfold inRegion. induction 1 as [|i e idx shape Hi _ IH]; constructor; [lia|exact IH].
Qed.

Lemma load_unmasked_single_run (op : LoadOp.t) (s : RewriterState) :
  LoadOp.hasMask op = false ->
  LoadOp.getOther op = None ->
  isSingleView (LoadOp.getPtr op) = true ->
  let alloc := AllocOp (List.length (created s)) (LoadOp.getTypeShape op) in
  let tensor := ToTensorOp alloc true true in
  LoadConverter.matchAndRewrite op s =
  Some (success,
        {| created := created s ++ [Def alloc; CopyOp (LoadOp.getPtr op) alloc; Def tensor];
           diagnostics := diagnostics s;
           rewrites := rewrites s ++ [ReplaceOp (LoadOp.getLoc op) tensor] |}).
Proof.
  intros Hmask Hother Hsingle alloc tensor.
  destruct (isSingleView_facts _ Hsingle) as (Hdef & _ & Hattr & _).
  unfold LoadConverter.matchAndRewrite, LoadConverter.rewriteStructuredLoad.
  rewrite Hmask, Hother, Hdef. unfold createAlloc, assert. cbn [negb]. mrun.
  rewrite !Hattr. cbn [orb]. mrun. unfold replaceOp, rewrite. mrun.
  rewrite <- !app_assoc. reflexivity.
Qed.

Lemma copy_whole_memory (env : Env) (mem : Mem) (id : nat) (shape : list Z)
    (src : View) (idx : list Z) :
  v_sizes src = shape ->
  inRegion shape idx ->
  let alloc := evalMemRef env (AllocOp id shape) in
  readView (copyView src alloc mem) alloc idx = readView mem src idx.
Proof.
  intros Hsizes Hidx alloc.
  pose proof (inRegion_length _ _ Hidx) as Hli.
  unfold readView at 1. unfold addr at 1. cbn [alloc evalMemRef v_buffer v_offset v_strides].
  rewrite Z.add_0_l.
  rewrite (copyView_box id shape (repeat 0 (List.length shape)) shape src _ mem idx).
  - rewrite inBoxb_zeros.
    replace (inRegionb shape idx) with true
      by (symmetry; apply inRegionb_iff; exact Hidx).
    rewrite vsub_zeros by exact Hli. reflexivity.
  - reflexivity.
  - cbn [v_offset]. rewrite dot_repeat_zero. reflexivity.
  - reflexivity.
  - exact Hsizes.
  - apply fitsIn_zeros. apply (inRegion_shape_nonneg _ _ Hidx).
  - exact Hidx.
Qed.

(** X9: an unmasked load through a single view creates the destination
    buffer, one copy of the view into it and the tensor of the buffer, which
    replaces the load.  When the view has the extents of the loaded tensor,
    the buffer afterwards holds at every index the element the view
    designates there. *)
Theorem load_unmasked_single_view (op : LoadOp.t) (s : RewriterState) :
  LoadOp.hasMask op = false ->
  LoadOp.getOther op = None ->
  isSingleView (LoadOp.getPtr op) = true ->
  let ptr := LoadOp.getPtr op in
  let shape := LoadOp.getTypeShape op in
  let alloc := AllocOp (List.length (created s)) shape in
  let tensor := ToTensorOp alloc true true in
  let ops := [Def alloc; CopyOp ptr alloc; Def tensor] in
  LoadConverter.matchAndRewrite op s =
  Some (success,
        {| created := created s ++ ops;
           diagnostics := diagnostics s;
           rewrites := rewrites s ++ [ReplaceOp (LoadOp.getLoc op) tensor] |}) /\
  forall env mem,
    v_sizes (evalMemRef env ptr) = shape ->
    forall idx,
      inRegion shape idx ->
      readView (execAll env ops mem) (evalMemRef env alloc) idx
      = readView mem (evalMemRef env ptr) idx.
Proof.
  intros Hmask Hother Hsingle ptr shape alloc tensor ops.
  split; [apply load_unmasked_single_run; assumption|].
  intros env mem Hsizes idx Hidx.
  unfold ops, execAll. cbn [fold_left exec].
  apply copy_whole_memory; assumption.
Qed.

(** X9 at [unmaskedLoad]: index (2, 1) gets the element at address
    3 + 2 * 10 + 1. *)
Lemma load_unmasked_single_view_witness :
  exists s',
    LoadConverter.matchAndRewrite unmaskedLoad emptyState = Some (success, s') /\
    readView (execAll (constEnv 0) (created s') addressMem)
             (evalMemRef (constEnv 0) (AllocOp 0 [4; 4])) [2; 1] = 24.
Proof.
  destruct (load_unmasked_single_view unmaskedLoad emptyState eq_refl eq_refl eq_refl)
    as [Hrun Hmem].
  eexists. split; [exact Hrun|].
  etransitivity;
    [apply (Hmem (constEnv 0) addressMem eq_refl [2; 1]); repeat constructor; lia
    |reflexivity].
Defined.

(** X10: a masked load without a fill value through a single view creates
    the destination buffer, the two sub-views and the copy, and neither a
    conditional nor a fill.  With valid extents between zero and the full
    extents, the buffer afterwards holds the source element at every index
    inside the mask, and outside the mask what it held before. *)
Theorem masked_load_without_other (op : LoadOp.t) (s : RewriterState) :
  LoadOp.hasMask op = true ->
  LoadOp.getOther op = None ->
  isSingleView (LoadOp.getPtr op) = true ->
  let ptr := LoadOp.getPtr op in
  let shape := LoadOp.getTypeShape op in
  let dims := LoadOp.getMixedMaskDims op in
  let rank := List.length shape in
  let id := List.length (created s) in
  let alloc := AllocOp id shape in
  let srcSubview := SubViewOp ptr (repeat (Attr 0) rank) dims (repeat (Attr 1) rank) in
  let dstSubview := SubViewOp alloc (repeat (Attr 0) rank) dims (repeat (Attr 1) rank) in
  let tensor := ToTensorOp alloc true true in
  let ops := [Def alloc; Def srcSubview; Def dstSubview;
              CopyOp srcSubview dstSubview; Def tensor] in
  LoadConverter.matchAndRewrite op s =
  Some (success,
        {| created := created s ++ ops;
           diagnostics := diagnostics s;
           rewrites := rewrites s ++ [ReplaceOp (LoadOp.getLoc op) tensor] |}) /\
  forall env mem,
    let masks := map (evalOFR env) dims in
    Forall2 (fun m e => 0 <= m <= e) masks shape ->
    forall idx,
      inRegion shape idx ->
      readView (execAll env ops mem) (evalMemRef env alloc) idx =
      if inRegionb masks idx
      then readView mem (evalMemRef env ptr) idx
      else readView mem (evalMemRef env alloc) idx.
Proof.
  intros Hmask Hother Hsingle ptr shape dims rank id alloc srcSubview dstSubview
         tensor ops.
  destruct (isSingleView_facts _ Hsingle) as (Hdef & Hmem & Hattr & _).
  split.
  - unfold LoadConverter.matchAndRewrite, LoadConverter.rewriteMaskedLoad.
    rewrite Hmask, Hother, Hdef. unfold createAlloc, assert. mrun.
    rewrite !Hattr. cbn [orb]. unfold getSubview, assert. rewrite Hmem. mrun.
    cbn [isMemRef]. mrun. unfold replaceOp, rewrite. mrun.
    rewrite <- !app_assoc. reflexivity.
  - intros env mem masks Hmasks idx Hidx.
    pose proof (Forall2_length Hmasks) as Hlm.
    pose proof (inRegion_length _ _ Hidx) as Hli.
    unfold ops, execAll. cbn [fold_left exec].
    unfold readView at 1. unfold addr at 1.
    change (evalMemRef env alloc)
      with {| v_buffer := AllocBuffer id; v_offset := 0; v_sizes := shape;
              v_strides := rowMajorStrides shape |} at 1 2.
    cbn [v_buffer v_offset v_strides]. rewrite Z.add_0_l.
    rewrite (copyView_box id shape (repeat 0 rank) masks _ _ mem idx).
    + replace (repeat 0 rank) with (repeat 0 (List.length masks))
        by (unfold rank; rewrite Hlm; reflexivity).
      rewrite inBoxb_zeros.
      destruct (inRegionb masks idx) eqn:Hin.
      * rewrite vsub_zeros by lia.
        unfold readView, addr. cbn [srcSubview evalMemRef v_buffer v_offset v_strides].
        rewrite map_evalOFR_repeat, dot_repeat_zero, Z.add_0_r.
        rewrite map_evalOFR_repeat, dot_zipMul_ones by (fold rank; lia).
        reflexivity.
      * unfold readView, addr. cbn [alloc evalMemRef v_buffer v_offset v_strides].
        rewrite Z.add_0_l. reflexivity.
    + reflexivity.
    + cbn [dstSubview alloc evalMemRef v_offset].
      rewrite map_evalOFR_repeat, Z.add_0_l. reflexivity.
    + cbn [dstSubview alloc evalMemRef v_strides]. rewrite map_evalOFR_repeat.
      apply zipMul_ones. apply rowMajorStrides_length.
    + reflexivity.
    + apply fitsIn_zeros. exact Hmasks.
    + exact Hidx.
Qed.

(** X10 at [maskedLoadNoOther]: index (1, 1) gets the source element at
    address 14, index (3, 0) keeps what the buffer held at address 12. *)
Lemma masked_load_without_other_witness :
  exists s',
    LoadConverter.matchAndRewrite maskedLoadNoOther emptyState = Some (success, s') /\
    let final := execAll (constEnv 0) (created s') addressMem in
    let alloc := evalMemRef (constEnv 0) (AllocOp 0 [4; 4]) in
    readView final alloc [1; 1] = 14 /\ readView final alloc [3; 0] = 12.
Proof.
  destruct (masked_load_without_other maskedLoadNoOther emptyState
              eq_refl eq_refl eq_refl) as [Hrun Hmem].
  eexists. split; [exact Hrun|]. cbv zeta.
  assert (Hmasks : Forall2 (fun m e => 0 <= m <= e) [2; 3] [4; 4])
    by (repeat constructor; lia).
  split.
  - etransitivity;
      [apply (Hmem (constEnv 0) addressMem Hmasks [1; 1]); repeat constructor; lia
      |reflexivity].
  - etransitivity;
      [apply (Hmem (constEnv 0) addressMem Hmasks [3; 0]); repeat constructor; lia
      |reflexivity].
Defined.

Lemma load_unmasked_split_run (loc : Location) (elem : nat)
    (dims : list OpFoldResult) (s : RewriterState)
    (block1 block2 : Value) (wrapType : string) (R C : Z) :
  let ptr := UnrealizedConversionCastOp [block1; block2] [wrapType] in
  let op := {| LoadOp.getLoc := loc; LoadOp.getPtr := ptr;
               LoadOp.getTypeShape := [R; C]; LoadOp.getTypeElement := elem;
               LoadOp.hasMask := false; LoadOp.getMixedMaskDims := dims;
               LoadOp.getOther := None |} in
  let id := List.length (created s) in
  let alloc := AllocOp id [R; C] in
  let tensor := ToTensorOp alloc true true in
  wrapType = WRAP_SIDE_BY_SIDE \/ wrapType = WRAP_STACKED ->
  exists ops,
    LoadConverter.matchAndRewrite op s =
    Some (success,
          {| created := created s ++ ops;
             diagnostics := diagnostics s;
             rewrites := rewrites s ++ [ReplaceOp loc tensor] |}) /\
    forall env mem d1,
      let axis := splitAxis wrapType in
      let along := nth axis [R; C] 0 in
      let across := nth (1 - axis) [R; C] 0 in
      v_sizes (evalMemRef env block1) = onAxis axis d1 across ->
      v_sizes (evalMemRef env block2) = onAxis axis (along - d1) across ->
      0 <= d1 <= along ->
      v_buffer (evalMemRef env block2) <> AllocBuffer id ->
      forall idx,
        inRegion [R; C] idx ->
        readView (execAll env ops mem) (evalMemRef env alloc) idx
        = sourceElement env mem ptr idx.
Proof.
  intros ptr op id alloc tensor Hwrap.
  destruct Hwrap; subst wrapType.
  all: subst op ptr; unfold_load.
  all: eexists; split;
    [ etransitivity;
      [ f_equal; f_equal; f_equal; repeat rewrite <- app_assoc; cbn [app]; reflexivity
      | reflexivity ] | ].
  all: intros env mem d1 Hz1 Hz2 Hd Hb2 idx Hidx.
  all: destruct (inRegion_pair _ _ _ Hidx) as (i & j & -> & Hi & Hj).
  all: unfold execAll; cbn [fold_left exec].
  all: unfold readView at 1; unfold addr at 1;
       cbn [v_buffer v_offset v_strides]; rewrite Z.add_0_l.
  - etransitivity;
      [ apply (two_copies_box id [R; C] [0; 0] [R; d1] [0; d1] [R; C - d1]
                 (evalMemRef env block1) (evalMemRef env block2) _ _ mem [i; j]);
        try assumption; try reflexivity | ].
    all: try (cbn; lia).
    + cbn. rewrite !Z.mul_1_r. reflexivity.
    + cbn [evalMemRef v_offset map evalOFR evalIndex]. rewrite Hz1. cbn. ring.
    + cbn. rewrite !Z.mul_1_r. reflexivity.
    + cbn [inBoxb vsub].
      rewrite Hz1. cbn [nth]. rewrite !Z.sub_0_r.
      destruct (j <? d1) eqn:E.
      * apply Z.ltb_lt in E.
        replace (d1 <=? j) with false by (symmetry; apply Z.leb_gt; lia).
        cbn [andb].
        replace (0 <=? i) with true by (symmetry; apply Z.leb_le; lia).
        replace (i <? 0 + R) with true by (symmetry; apply Z.ltb_lt; lia).
        replace (0 <=? j) with true by (symmetry; apply Z.leb_le; lia).
        replace (j <? 0 + d1) with true by (symmetry; apply Z.ltb_lt; lia).
        reflexivity.
      * apply Z.ltb_ge in E.
        replace (d1 <=? j) with true by (symmetry; apply Z.leb_le; lia).
        replace (0 <=? i) with true by (symmetry; apply Z.leb_le; lia).
        replace (i <? 0 + R) with true by (symmetry; apply Z.ltb_lt; lia).
        replace (j <? d1 + (C - d1)) with true by (symmetry; apply Z.ltb_lt; lia).
        reflexivity.
  - etransitivity;
      [ apply (two_copies_box id [R; C] [0; 0] [d1; C] [d1; 0] [R - d1; C]
                 (evalMemRef env block1) (evalMemRef env block2) _ _ mem [i; j]);
        try assumption; try reflexivity | ].
    all: try (cbn; lia).
    + cbn. rewrite !Z.mul_1_r. reflexivity.
    + cbn [evalMemRef v_offset map evalOFR evalIndex]. rewrite Hz1. cbn. ring.
    + cbn. rewrite !Z.mul_1_r. reflexivity.
    + cbn [inBoxb vsub].
      rewrite Hz1. cbn [nth]. rewrite !Z.sub_0_r.
      destruct (i <? d1) eqn:E.
      * apply Z.ltb_lt in E.
        replace (d1 <=? i) with false by (symmetry; apply Z.leb_gt; lia).
        cbn [andb].
        replace (0 <=? i) with true by (symmetry; apply Z.leb_le; lia).
        replace (i <? 0 + d1) with true by (symmetry; apply Z.ltb_lt; lia).
        replace (0 <=? j) with true by (symmetry; apply Z.leb_le; lia).
        replace (j <? 0 + C) with true by (symmetry; apply Z.ltb_lt; lia).
        reflexivity.
      * apply Z.ltb_ge in E.
        replace (d1 <=? i) with true by (symmetry; apply Z.leb_le; lia).
        replace (i <? d1 + (R - d1)) with true by (symmetry; apply Z.ltb_lt; lia).
        replace (0 <=? j) with true by (symmetry; apply Z.leb_le; lia).
        replace (j <? 0 + C) with true by (symmetry; apply Z.ltb_lt; lia).
        reflexivity.
Qed.

(** X11: an unmasked 2-D load through a split pair is converted
    successfully, and when the extents of the two chunks partition the
    tensor's extent along the split axis and equal it along the other axis,
    the destination buffer afterwards holds at every index the element the
    pair designates there: the first chunk's up to its extent along the split
    axis, the second chunk's after it. *)
Theorem load_unmasked_split_pair (op : LoadOp.t) (s : RewriterState)
    (block1 block2 : Value) (wrapType : string) (R C : Z) :
  LoadOp.getPtr op = UnrealizedConversionCastOp [block1; block2] [wrapType] ->
  wrapType = WRAP_SIDE_BY_SIDE \/ wrapType = WRAP_STACKED ->
  LoadOp.hasMask op = false ->
  LoadOp.getOther op = None ->
  LoadOp.getTypeShape op = [R; C] ->
  let id := List.length (created s) in
  let alloc := AllocOp id [R; C] in
  let tensor := ToTensorOp alloc true true in
  exists ops,
    LoadConverter.matchAndRewrite op s =
    Some (success,
          {| created := created s ++ ops;
             diagnostics := diagnostics s;
             rewrites := rewrites s ++ [ReplaceOp (LoadOp.getLoc op) tensor] |}) /\
    forall env mem d1,
      let axis := splitAxis wrapType in
      let along := nth axis [R; C] 0 in
      let across := nth (1 - axis) [R; C] 0 in
      v_sizes (evalMemRef env block1) = onAxis axis d1 across ->
      v_sizes (evalMemRef env block2) = onAxis axis (along - d1) across ->
      0 <= d1 <= along ->
      v_buffer (evalMemRef env block2) <> AllocBuffer id ->
      forall idx,
        inRegion [R; C] idx ->
        readView (execAll env ops mem) (evalMemRef env alloc) idx
        = sourceElement env mem (LoadOp.getPtr op) idx.
Proof.
  intros Hptr Hwrap Hmask Hother Hshape.
  destruct op as [loc ptr shape elem mask dims otherValue].
  cbn [LoadOp.getPtr LoadOp.hasMask LoadOp.getOther LoadOp.getMixedMaskDims
       LoadOp.getTypeShape LoadOp.getLoc] in *.
  subst ptr mask otherValue shape.
  exact (load_unmasked_split_run loc elem dims s block1 block2 wrapType R C Hwrap).
Qed.

(** X11 at [unmaskedSplitLoad]: index (1, 3) gets the element of the second
    chunk at (1, 1), address 9. *)
Lemma load_unmasked_split_pair_witness :
  exists s',
    LoadConverter.matchAndRewrite unmaskedSplitLoad emptyState = Some (success, s') /\
    readView (execAll splitEnv (created s') addressMem)
             (evalMemRef splitEnv (AllocOp 0 [4; 4])) [1; 3] = 9.
Proof.
  destruct (load_unmasked_split_pair unmaskedSplitLoad emptyState
              (BlockArgument 1) (BlockArgument 2) WRAP_SIDE_BY_SIDE 4 4
              eq_refl (or_introl eq_refl) eq_refl eq_refl eq_refl)
    as (ops & Hrun & Hmem).
  eexists. split; [exact Hrun|].
  etransitivity;
    [apply (Hmem splitEnv addressMem 2 eq_refl eq_refl);
     [cbn; lia|discriminate|repeat constructor; lia]
    |reflexivity].
Defined.

(** ** A split descriptor and a load through it *)

Lemma execAll_defs (env : Env) (ops : list Operation) (mem : Mem) :
  Forall (fun o => isDef o = true) ops -> execAll env ops mem = mem.
Proof.
  intros H. revert mem. induction H as [|op ops Hop _ IH]; intros mem; [reflexivity|].
  cbn [execAll fold_left]. fold (execAll env ops (exec env op mem)).
  rewrite IH. destruct op; try discriminate. reflexivity.
Qed.

Lemma isArith_isView_isDef (ops : list Operation) :
  Forall (fun o => isArith o || isView o = true) ops ->
  Forall (fun o => isDef o = true) ops.
Proof.
  apply Forall_impl. intros [v| | | | |]; try discriminate. reflexivity.
Qed.

Lemma matchAndRewrite_side_by_side_run (op : MakeTensorPtrOp.t) (s : RewriterState)
    (rowSize colSize : Z) (shape1 : OpFoldResult) :
  is_sorted_greater (MakeTensorPtrOp.getOrder op) = true ->
  MakeTensorPtrOp.isBlockPtr op = false ->
  MakeTensorPtrOp.isStructuredPtr op = false ->
  MakeTensorPtrOp.isSplitPtr op = true ->
  MakeTensorPtrOp.getSizes op = [rowSize; colSize] ->
  MakeTensorPtrOp.getMixedShape op = [Attr 0; shape1] ->
  exists cast1 cast2 ops,
    let pair := UnrealizedConversionCastOp [cast1; cast2] [WRAP_SIDE_BY_SIDE] in
    MakeTensorPtrConverter.matchAndRewrite op s =
    Some (success,
          {| created := created s ++ ops ++ [Def pair];
             diagnostics := diagnostics s;
             rewrites := rewrites s ++ [ReplaceOp (MakeTensorPtrOp.getLoc op) pair] |}) /\
    Forall (fun o => isArith o || isView o = true) ops /\
    forall env,
      let targetOffset := scalarOffset env op in
      let N := evalOFR env shape1 in
      let x := targetOffset mod N in
      let d1 := Z.min (x + colSize) N - x in
      0 <= targetOffset -> 0 < N -> in_int64 N ->
      0 <= colSize -> in_int64 (x + colSize) ->
      evalMemRef env cast1 =
      {| v_buffer := v_buffer (evalMemRef env (MakeTensorPtrOp.getBase op));
         v_offset := targetOffset;
         v_sizes := [rowSize; d1];
         v_strides := map (evalOFR env) (MakeTensorPtrOp.getMixedStrides op) |} /\
      evalMemRef env cast2 =
      {| v_buffer := v_buffer (evalMemRef env (MakeTensorPtrOp.getBase op));
         v_offset := targetOffset - x;
         v_sizes := [rowSize; colSize - d1];
         v_strides := map (evalOFR env) (MakeTensorPtrOp.getMixedStrides op) |}.
Proof.
  intros Hord Hb Hst Hsp Hsizes Hshape.
  assert (H0 : nth_error (MakeTensorPtrOp.getSizes op) 0 = Some rowSize)
    by (rewrite Hsizes; reflexivity).
  assert (H1 : nth_error (MakeTensorPtrOp.getSizes op) 1 = Some colSize)
    by (rewrite Hsizes; reflexivity).
  assert (H2 : nth_error (MakeTensorPtrOp.getMixedShape op) 1 = Some shape1)
    by (rewrite Hshape; reflexivity).
  destruct (createSideBySideCastOps_run op s rowSize colSize shape1 H0 H1 H2)
    as (t & modN & strideVals & resultType & ops & s' & Hrun & Hc & Ha & Het & HeN & Hes).
  cbv zeta in Hrun, Hc. red in Hc. subst s'.
  eexists _, _, (ops ++ [_; _; _]). cbv zeta. split; [|split].
  - unfold MakeTensorPtrConverter.matchAndRewrite,
      MakeTensorPtrConverter.rewriteSplitPtr, MakeTensorPtrOp.getStaticShape, at_.
    rewrite Hord, Hb, Hst, Hsp, Hshape. cbn [negb staticPart map nth_error]. mrun.
    replace (0 =? kDynamic) with false by reflexivity.
    cbn [Z.eqb assert]. mrun. rewrite Hrun. mrun. unfold replaceOp, rewrite. mrun.
    f_equal. f_equal. f_equal. rewrite <- !app_assoc. reflexivity.
  - apply Forall_app. split.
    + eapply Forall_impl; [|exact Ha]. intros o Ho. cbn beta in Ho. rewrite Ho. reflexivity.
    + repeat constructor.
  - intros env. 
    set (targetOffset := scalarOffset env op). set (N := evalOFR env shape1).
    intros Ht HN HNfit Hcol Hnext.
    cbn [fst snd evalMemRef evalOFR evalIndex map].
    rewrite Hes, Het, HeN. fold targetOffset N.
    assert (Htfit : in_int64 targetOffset) by apply wrap64_range.
    rewrite (Z.rem_mod_nonneg targetOffset N) by lia.
    pose proof (Z.mod_pos_bound targetOffset N HN) as Hx.
    pose proof (Z.mod_le targetOffset N Ht HN) as Hxt.
    set (x := targetOffset mod N) in *.
    unfold in_int64 in *.
    rewrite (wrap64_id (x + colSize)) by (unfold in_int64; lia).
    rewrite (wrap64_id (Z.min (x + colSize) N - x)) by (unfold in_int64; lia).
    rewrite (wrap64_id (colSize - (Z.min (x + colSize) N - x))) by (unfold in_int64; lia).
    rewrite (wrap64_id (targetOffset - x)) by (unfold in_int64; lia).
    split; reflexivity.
Qed.

(** X12: converting a side-by-side split descriptor and then an unmasked
    load through the pair that replaces it gives a buffer whose element
    (i, j) is the element of the base buffer at column [x + j] of row [i] as
    long as [x + j] is below the modulus [N], and at column [x + j - N],
    counted from the start of the row, from there on; [x] is the accumulated
    offset modulo [N]. *)
Theorem side_by_side_load_wraps_columns
    (op : MakeTensorPtrOp.t) (s : RewriterState)
    (loadLoc : Location) (elem : nat) (dims : list OpFoldResult)
    (R C : Z) (stride0 stride1 shape1 : OpFoldResult) :
  is_sorted_greater (MakeTensorPtrOp.getOrder op) = true ->
  MakeTensorPtrOp.isBlockPtr op = false ->
  MakeTensorPtrOp.isStructuredPtr op = false ->
  MakeTensorPtrOp.isSplitPtr op = true ->
  MakeTensorPtrOp.getSizes op = [R; C] ->
  MakeTensorPtrOp.getMixedStrides op = [stride0; stride1] ->
  MakeTensorPtrOp.getMixedShape op = [Attr 0; shape1] ->
  exists ptr s1 s2 ops,
    let load := {| LoadOp.getLoc := loadLoc; LoadOp.getPtr := ptr;
                   LoadOp.getTypeShape := [R; C]; LoadOp.getTypeElement := elem;
                   LoadOp.hasMask := false; LoadOp.getMixedMaskDims := dims;
                   LoadOp.getOther := None |} in
    let id := List.length (created s1) in
    MakeTensorPtrConverter.matchAndRewrite op s = Some (success, s1) /\
    rewrites s1 = rewrites s ++ [ReplaceOp (MakeTensorPtrOp.getLoc op) ptr] /\
    LoadConverter.matchAndRewrite load s1 = Some (success, s2) /\
    created s2 = created s ++ ops /\
    forall env mem,
      let base := v_buffer (evalMemRef env (MakeTensorPtrOp.getBase op)) in
      let targetOffset := scalarOffset env op in
      let N := evalOFR env shape1 in
      let x := targetOffset mod N in
      let s0 := evalOFR env stride0 in
      let s1 := evalOFR env stride1 in
      0 <= targetOffset -> 0 < N -> in_int64 N ->
      in_int64 (x + C) ->
      base <> AllocBuffer id ->
      forall i j,
        0 <= i < R -> 0 <= j < C ->
        readView (execAll env ops mem) (evalMemRef env (AllocOp id [R; C])) [i; j] =
        mem base (if x + j <? N
                  then targetOffset + (i * s0 + j * s1)
                  else targetOffset - x + (i * s0 + (x + j - N) * s1)).
Proof.
  intros Hord Hb Hst Hsp Hsizes Hstrides Hshape.
  destruct (matchAndRewrite_side_by_side_run op s R C shape1
              Hord Hb Hst Hsp Hsizes Hshape)
    as (cast1 & cast2 & ops1 & Hrun1 & Ha1 & Heval).
  cbv zeta in Hrun1.
  set (pair := UnrealizedConversionCastOp [cast1; cast2] [WRAP_SIDE_BY_SIDE]) in *.
  set (st1 := {| created := created s ++ ops1 ++ [Def pair];
                 diagnostics := diagnostics s;
                 rewrites := rewrites s ++ [ReplaceOp (MakeTensorPtrOp.getLoc op) pair] |})
    in *.
  destruct (load_unmasked_split_run loadLoc elem dims st1 cast1 cast2
              WRAP_SIDE_BY_SIDE R C (or_introl eq_refl))
    as (ops2 & Hrun2 & Hmem).
  exists pair, st1. eexists. exists ((ops1 ++ [Def pair]) ++ ops2).
  cbv zeta.
  split; [exact Hrun1|]. split; [reflexivity|]. split; [exact Hrun2|].
  split; [cbn [created st1]; rewrite <- !app_assoc; reflexivity|].
  intros env mem Ht HN HNfit Hnext Hbase i j Hi Hj.
  assert (HC : 0 <= C) by lia.
  destruct (Heval env Ht HN HNfit HC Hnext) as [Hv1 Hv2].
  pose proof (Z.mod_pos_bound (scalarOffset env op) (evalOFR env shape1) HN) as Hx.
  set (x := scalarOffset env op mod evalOFR env shape1) in *.
  set (N := evalOFR env shape1) in *.
  set (d1 := Z.min (x + C) N - x) in *.
  rewrite execAll_app.
  rewrite (execAll_defs env (ops1 ++ [Def pair])).
  2:{ apply Forall_app. split; [apply isArith_isView_isDef; exact Ha1|].
      repeat constructor. }
  rewrite (Hmem env mem d1).
  - cbn [sourceElement pair existsb String.eqb Ascii.eqb Bool.eqb orb
         WRAP_SIDE_BY_SIDE].
    rewrite Hv1, Hv2, Hstrides. cbn [v_sizes nth map].
    unfold readView, addr. cbn [v_buffer v_offset v_strides dot].
    destruct (j <? d1) eqn:E1, (x + j <? N) eqn:E2;
      try apply Z.ltb_lt in E1; try apply Z.ltb_ge in E1;
      try apply Z.ltb_lt in E2; try apply Z.ltb_ge in E2;
      try (exfalso; unfold d1 in E1; lia).
    + f_equal. ring.
    + f_equal. unfold d1. replace (Z.min (x + C) N) with N by lia. ring.
  - rewrite Hv1. reflexivity.
  - rewrite Hv2. reflexivity.
  - cbn [splitAxis nth]. unfold d1. cbn. lia.
  - rewrite Hv2. exact Hbase.
  - repeat constructor; lia.
Qed.

(** X12 at [sideBySideExample]: element (1, 2) comes from address 19 and
    element (1, 4), past the modulus, from address 11. *)
Lemma side_by_side_load_wraps_columns_witness :
  exists ptr s1 s2 ops,
    MakeTensorPtrConverter.matchAndRewrite sideBySideExample emptyState
    = Some (success, s1) /\
    LoadConverter.matchAndRewrite
      {| LoadOp.getLoc := 1%nat; LoadOp.getPtr := ptr;
         LoadOp.getTypeShape := [4; 6]; LoadOp.getTypeElement := 0%nat;
         LoadOp.hasMask := false; LoadOp.getMixedMaskDims := [];
         LoadOp.getOther := None |} s1
    = Some (success, s2) /\
    created s2 = ops /\
    let alloc := evalMemRef (constEnv 0) (AllocOp (List.length (created s1)) [4; 6]) in
    readView (execAll (constEnv 0) ops addressMem) alloc [1; 2] = 19 /\
    readView (execAll (constEnv 0) ops addressMem) alloc [1; 4] = 11.
Proof.
  destruct (side_by_side_load_wraps_columns sideBySideExample emptyState
              1%nat 0%nat [] 4 6 (Attr 10) (Attr 1) (Attr 10)
              eq_refl eq_refl eq_refl eq_refl eq_refl eq_refl eq_refl)
    as (ptr & s1 & s2 & ops & Hrun1 & _ & Hrun2 & Hc & Hmem).
  exists ptr, s1, s2, ops. cbv zeta in *.
  split; [exact Hrun1|]. split; [exact Hrun2|]. split; [exact Hc|].
  assert (Ht : scalarOffset (constEnv 0) sideBySideExample = 7) by reflexivity.
  specialize (Hmem (constEnv 0) addressMem).
  rewrite Ht in Hmem. cbn [evalOFR] in Hmem. change (7 mod 10) with 7 in Hmem.
  assert (H : forall i j, 0 <= i < 4 -> 0 <= j < 6 ->
            readView (execAll (constEnv 0) ops addressMem)
              (evalMemRef (constEnv 0) (AllocOp (List.length (created s1)) [4; 6]))
              [i; j]
            = addressMem
                (v_buffer (evalMemRef (constEnv 0)
                             (MakeTensorPtrOp.getBase sideBySideExample)))
                (if 7 + j <? 10 then 7 + (i * 10 + j * 1)
                 else 7 - 7 + (i * 10 + (7 + j - 10) * 1))).
  { apply Hmem; unfold in_int64; try lia. discriminate. }
  split.
  - rewrite H by lia. reflexivity.
  - rewrite H by lia. reflexivity.
Defined.

Lemma matchAndRewrite_stacked_run (op : MakeTensorPtrOp.t) (s : RewriterState)
    (rowSize colSize : Z) (stride0 stride1 : OpFoldResult) (modRowValue : Value) :
  is_sorted_greater (MakeTensorPtrOp.getOrder op) = true ->
  MakeTensorPtrOp.isBlockPtr op = false ->
  MakeTensorPtrOp.isStructuredPtr op = false ->
  MakeTensorPtrOp.isSplitPtr op = true ->
  List.length (MakeTensorPtrOp.getTypeShape op) = 2%nat ->
  MakeTensorPtrOp.getSizes op = [rowSize; colSize] ->
  MakeTensorPtrOp.getMixedStrides op = [stride0; stride1] ->
  MakeTensorPtrOp.getMixedShape op = [Val modRowValue; Attr 0] ->
  exists cast1 cast2 ops,
    let pair := UnrealizedConversionCastOp [cast1; cast2] [WRAP_STACKED] in
    MakeTensorPtrConverter.matchAndRewrite op s =
    Some (success,
          {| created := created s ++ ops ++ [Def pair];
             diagnostics := diagnostics s;
             rewrites := rewrites s ++ [ReplaceOp (MakeTensorPtrOp.getLoc op) pair] |}) /\
    Forall (fun o => isArith o || isView o = true) ops /\
    forall env,
      let targetOffset := scalarOffset env op in
      let strideRow := evalOFR env stride0 in
      let modRow := evalIndex env modRowValue in
      let wrapped := targetOffset mod strideRow in
      let d1 := ((modRow + wrapped) - targetOffset) / strideRow in
      0 <= targetOffset -> 0 < strideRow ->
      targetOffset <= modRow -> in_int64 (modRow + strideRow) ->
      0 <= rowSize -> in_int64 rowSize ->
      evalMemRef env cast1 =
      {| v_buffer := v_buffer (evalMemRef env (MakeTensorPtrOp.getBase op));
         v_offset := targetOffset;
         v_sizes := [d1; colSize];
         v_strides := [strideRow; evalOFR env stride1] |} /\
      evalMemRef env cast2 =
      {| v_buffer := v_buffer (evalMemRef env (MakeTensorPtrOp.getBase op));
         v_offset := wrapped;
         v_sizes := [rowSize - d1; colSize];
         v_strides := [strideRow; evalOFR env stride1] |}.
Proof.
  intros Hord Hb Hst Hsp Hrank Hsizes Hstrides Hshape.
  assert (H0 : nth_error (MakeTensorPtrOp.getSizes op) 0 = Some rowSize)
    by (rewrite Hsizes; reflexivity).
  assert (H1 : nth_error (MakeTensorPtrOp.getSizes op) 1 = Some colSize)
    by (rewrite Hsizes; reflexivity).
  assert (H2 : nth_error (MakeTensorPtrOp.getMixedStrides op) 0 = Some stride0)
    by (rewrite Hstrides; reflexivity).
  assert (H3 : nth_error (MakeTensorPtrOp.getMixedStrides op) 1 = Some stride1)
    by (rewrite Hstrides; reflexivity).
  assert (H4 : nth_error (MakeTensorPtrOp.getShape op) 0 = Some modRowValue)
    by (unfold MakeTensorPtrOp.getShape; rewrite Hshape; reflexivity).
  destruct (createStackedCastOps_run op s rowSize colSize stride0 stride1 modRowValue
              Hrank H0 H1 H2 H3 H4)
    as (t & sr & sc & resultType & ops & s' & Hrun & Hc & Ha & Het & Her & Hec).
  cbv zeta in Hrun, Hc. red in Hc. subst s'.
  eexists _, _, (ops ++ [_; _; _]). cbv zeta. split; [|split].
  - unfold MakeTensorPtrConverter.matchAndRewrite,
      MakeTensorPtrConverter.rewriteSplitPtr, MakeTensorPtrOp.getStaticShape, at_.
    rewrite Hord, Hb, Hst, Hsp, Hshape. cbn [negb staticPart map nth_error]. mrun.
    rewrite Z.eqb_refl. cbn [nth_error]. mrun.
    change (assert (0 =? 0) s) with (Some (tt, s)). mrun.
    rewrite Hrun. mrun. unfold replaceOp, rewrite. mrun.
    f_equal. f_equal. f_equal. rewrite <- !app_assoc. reflexivity.
  - apply Forall_app. split.
    + eapply Forall_impl; [|exact Ha]. intros o Ho. cbn beta in Ho. rewrite Ho. reflexivity.
    + repeat constructor.
  - intros env.
    set (targetOffset := scalarOffset env op). set (strideRow := evalOFR env stride0).
    set (modRow := evalIndex env modRowValue).
    intros Ht Hstride Hle Hfit Hrow0 Hrow.
    cbn [fst snd evalMemRef evalOFR evalIndex map].
    rewrite Het, Her, Hec. fold targetOffset strideRow modRow.
    rewrite (Z.rem_mod_nonneg targetOffset strideRow) by lia.
    pose proof (Z.mod_pos_bound targetOffset strideRow Hstride) as Hw.
    set (wrapped := targetOffset mod strideRow) in *.
    unfold in_int64 in *.
    rewrite (wrap64_id (modRow + wrapped)) by (unfold in_int64; lia).
    rewrite (wrap64_id (modRow + wrapped - targetOffset)) by (unfold in_int64; lia).
    rewrite Z.quot_div_nonneg by lia.
    assert (Hd : 0 <= (modRow + wrapped - targetOffset) / strideRow
                 <= modRow + wrapped - targetOffset).
    { split; [apply Z.div_pos; lia|].
      apply Z.div_le_upper_bound; [lia|]. nia. }
    rewrite (wrap64_id ((modRow + wrapped - targetOffset) / strideRow))
      by (unfold in_int64; lia).
    rewrite (wrap64_id (rowSize - _)) by (unfold in_int64; lia).
    split; reflexivity.
Qed.

(** X13: converting a stacked split descriptor whose access reaches the wrap
    boundary and then an unmasked load through the pair that replaces it
    gives a buffer whose rows below [d1] are the rows of the base buffer from
    the accumulated offset on, and whose rows from [d1] on are the rows from
    the wrapped offset on; [d1] is the number of rows up to the boundary. *)
Theorem stacked_load_wraps_rows
    (op : MakeTensorPtrOp.t) (s : RewriterState)
    (loadLoc : Location) (elem : nat) (dims : list OpFoldResult)
    (R C : Z) (stride0 stride1 : OpFoldResult) (modRowValue : Value) :
  is_sorted_greater (MakeTensorPtrOp.getOrder op) = true ->
  MakeTensorPtrOp.isBlockPtr op = false ->
  MakeTensorPtrOp.isStructuredPtr op = false ->
  MakeTensorPtrOp.isSplitPtr op = true ->
  List.length (MakeTensorPtrOp.getTypeShape op) = 2%nat ->
  MakeTensorPtrOp.getSizes op = [R; C] ->
  MakeTensorPtrOp.getMixedStrides op = [stride0; stride1] ->
  MakeTensorPtrOp.getMixedShape op = [Val modRowValue; Attr 0] ->
  exists ptr s1 s2 ops,
    let load := {| LoadOp.getLoc := loadLoc; LoadOp.getPtr := ptr;
                   LoadOp.getTypeShape := [R; C]; LoadOp.getTypeElement := elem;
                   LoadOp.hasMask := false; LoadOp.getMixedMaskDims := dims;
                   LoadOp.getOther := None |} in
    let id := List.length (created s1) in
    MakeTensorPtrConverter.matchAndRewrite op s = Some (success, s1) /\
    rewrites s1 = rewrites s ++ [ReplaceOp (MakeTensorPtrOp.getLoc op) ptr] /\
    LoadConverter.matchAndRewrite load s1 = Some (success, s2) /\
    created s2 = created s ++ ops /\
    forall env mem,
      let base := v_buffer (evalMemRef env (MakeTensorPtrOp.getBase op)) in
      let targetOffset := scalarOffset env op in
      let strideRow := evalOFR env stride0 in
      let strideCol := evalOFR env stride1 in
      let modRow := evalIndex env modRowValue in
      let wrapped := targetOffset mod strideRow in
      let d1 := ((modRow + wrapped) - targetOffset) / strideRow in
      0 <= targetOffset -> 0 < strideRow ->
      targetOffset <= modRow -> in_int64 (modRow + strideRow) ->
      in_int64 R -> d1 <= R ->
      base <> AllocBuffer id ->
      forall i j,
        0 <= i < R -> 0 <= j < C ->
        readView (execAll env ops mem) (evalMemRef env (AllocOp id [R; C])) [i; j] =
        mem base (if i <? d1
                  then targetOffset + (i * strideRow + j * strideCol)
                  else wrapped + ((i - d1) * strideRow + j * strideCol)).
Proof.
  intros Hord Hb Hst Hsp Hrank Hsizes Hstrides Hshape.
  destruct (matchAndRewrite_stacked_run op s R C stride0 stride1 modRowValue
              Hord Hb Hst Hsp Hrank Hsizes Hstrides Hshape)
    as (cast1 & cast2 & ops1 & Hrun1 & Ha1 & Heval).
  cbv zeta in Hrun1.
  set (pair := UnrealizedConversionCastOp [cast1; cast2] [WRAP_STACKED]) in *.
  set (st1 := {| created := created s ++ ops1 ++ [Def pair];
                 diagnostics := diagnostics s;
                 rewrites := rewrites s ++ [ReplaceOp (MakeTensorPtrOp.getLoc op) pair] |})
    in *.
  destruct (load_unmasked_split_run loadLoc elem dims st1 cast1 cast2
              WRAP_STACKED R C (or_intror eq_refl))
    as (ops2 & Hrun2 & Hmem).
  exists pair, st1. eexists. exists ((ops1 ++ [Def pair]) ++ ops2).
  cbv zeta.
  split; [exact Hrun1|]. split; [reflexivity|]. split; [exact Hrun2|].
  split; [cbn [created st1]; rewrite <- !app_assoc; reflexivity|].
  intros env mem Ht Hstride Hle Hfit HR Hreach Hbase i j Hi Hj.
  assert (HR0 : 0 <= R) by lia.
  destruct (Heval env Ht Hstride Hle Hfit HR0 HR) as [Hv1 Hv2].
  pose proof (Z.mod_pos_bound (scalarOffset env op) (evalOFR env stride0) Hstride) as Hw.
  set (wrapped := scalarOffset env op mod evalOFR env stride0) in *.
  set (d1 := (evalIndex env modRowValue + wrapped - scalarOffset env op)
             / evalOFR env stride0) in *.
  assert (Hd : 0 <= d1) by (apply Z.div_pos; lia).
  rewrite execAll_app.
  rewrite (execAll_defs env (ops1 ++ [Def pair])).
  2:{ apply Forall_app. split; [apply isArith_isView_isDef; exact Ha1|].
      repeat constructor. }
  rewrite (Hmem env mem d1).
  - cbn [sourceElement pair existsb String.eqb Ascii.eqb Bool.eqb orb
         WRAP_SIDE_BY_SIDE WRAP_STACKED].
    rewrite Hv1, Hv2. cbn [v_sizes nth map].
    unfold readView, addr. cbn [v_buffer v_offset v_strides dot].
    destruct (i <? d1); f_equal; ring.
  - rewrite Hv1. reflexivity.
  - rewrite Hv2. reflexivity.
  - cbn [splitAxis nth]. cbn. lia.
  - rewrite Hv2. exact Hbase.
  - repeat constructor; lia.
Qed.

(** X13 at [stackedWrapExample]: row 1 comes from row 7 of the tensor, row 3
    from row 1. *)
Lemma stacked_load_wraps_rows_witness :
  exists ptr s1 s2 ops,
    MakeTensorPtrConverter.matchAndRewrite stackedWrapExample emptyState
    = Some (success, s1) /\
    LoadConverter.matchAndRewrite
      {| LoadOp.getLoc := 1%nat; LoadOp.getPtr := ptr;
         LoadOp.getTypeShape := [4; 4]; LoadOp.getTypeElement := 0%nat;
         LoadOp.hasMask := false; LoadOp.getMixedMaskDims := [];
         LoadOp.getOther := None |} s1
    = Some (success, s2) /\
    created s2 = ops /\
    let alloc := evalMemRef (constEnv 64) (AllocOp (List.length (created s1)) [4; 4]) in
    readView (execAll (constEnv 64) ops addressMem) alloc [1; 2] = 58 /\
    readView (execAll (constEnv 64) ops addressMem) alloc [3; 1] = 9.
Proof.
  destruct (stacked_load_wraps_rows stackedWrapExample emptyState
              1%nat 0%nat [] 4 4 (Attr 8) (Attr 1) (BlockArgument 1)
              eq_refl eq_refl eq_refl eq_refl eq_refl eq_refl eq_refl eq_refl)
    as (ptr & s1 & s2 & ops & Hrun1 & _ & Hrun2 & Hc & Hmem).
  exists ptr, s1, s2, ops. cbv zeta in *.
  split; [exact Hrun1|]. split; [exact Hrun2|]. split; [exact Hc|].
  assert (Ht : scalarOffset (constEnv 64) stackedWrapExample = 48) by reflexivity.
  specialize (Hmem (constEnv 64) addressMem).
  rewrite Ht in Hmem. cbn [evalOFR evalIndex constEnv indexOf] in Hmem.
  change (48 mod 8) with 0 in Hmem. change ((64 + 0 - 48) / 8) with 2 in Hmem.
  assert (H : forall i j, 0 <= i < 4 -> 0 <= j < 4 ->
            readView (execAll (constEnv 64) ops addressMem)
              (evalMemRef (constEnv 64) (AllocOp (List.length (created s1)) [4; 4]))
              [i; j]
            = addressMem
                (v_buffer (evalMemRef (constEnv 64)
                             (MakeTensorPtrOp.getBase stackedWrapExample)))
                (if i <? 2 then 48 + (i * 8 + j * 1)
                 else 0 + ((i - 2) * 8 + j * 1))).
  { apply Hmem; unfold in_int64; try lia. discriminate. }
  split.
  - rewrite H by lia. reflexivity.
  - rewrite H by lia. reflexivity.
Defined.

(** ** A block or structured descriptor and a load through it *)

Lemma adjustStrides_addresses (env : Env) (dims : list (Z * OpFoldResult)) :
  forall idx,
    inRegion (map fst dims) idx ->
    dot idx (map (evalOFR env) (fst (adjustStrides dims)))
    = dot idx (map (evalOFR env) (map snd dims)).
Proof.
  unfold inRegion.
  induction dims as [|[size stride] inner IH]; intros idx Hidx.
  - inversion Hidx. reflexivity.
  - cbn [map fst] in Hidx. inversion Hidx as [|i e idx' shape' Hi Hrest]; subst.
    cbn [adjustStrides]. specialize (IH idx' Hrest).
    destruct (adjustStrides inner) as [strides accumulate].
    cbn [fst snd map dot] in *. rewrite IH. f_equal.
    destruct ((size =? 1) && isZeroAttr stride) eqn:E; [|reflexivity].
    apply andb_true_iff in E. destruct E as [E1 E2]. apply Z.eqb_eq in E1.
    assert (i = 0) by lia. subst i. ring.
Qed.

(** X14: adjusting the strides does not change which element an index
    designates: for every index tuple within the sizes, the linear offset
    under the adjusted strides equals the one under the descriptor's
    strides. *)
Theorem getMixedStridesForMemref_preserves_addresses
    (op : MakeTensorPtrOp.t) (env : Env) (idx : list Z) :
  List.length (MakeTensorPtrOp.getSizes op)
  = List.length (MakeTensorPtrOp.getMixedStrides op) ->
  inRegion (MakeTensorPtrOp.getSizes op) idx ->
  dot idx (map (evalOFR env) (MakeTensorPtrConverter.getMixedStridesForMemref op))
  = dot idx (map (evalOFR env) (MakeTensorPtrOp.getMixedStrides op)).
Proof.
  intros Hlen Hidx.
  rewrite getMixedStridesForMemref_adjustStrides, adjustStrides_addresses.
  - rewrite map_snd_combine_same_length by exact Hlen. reflexivity.
  - rewrite map_fst_combine_same_length by exact Hlen. exact Hidx.
Qed.

(** X14 at [zeroStrideExample] and the index (2, 0, 5). *)
Lemma getMixedStridesForMemref_preserves_addresses_witness :
  dot [2; 0; 5]
      (map (evalOFR (constEnv 3))
           (MakeTensorPtrConverter.getMixedStridesForMemref zeroStrideExample))
  = dot [2; 0; 5] (map (evalOFR (constEnv 3)) [Val (BlockArgument 1); Attr 0; Attr 1]).
Proof.
  apply (getMixedStridesForMemref_preserves_addresses zeroStrideExample (constEnv 3)
           [2; 0; 5] eq_refl).
  repeat constructor; lia.
Defined.

(** X15: converting a block or structured descriptor and then an unmasked
    load through the view that replaces it gives a buffer that holds, at
    every index within the sizes, the element of the base buffer at the
    accumulated offset plus the sum of index times stride, with the
    descriptor's own strides. *)
Theorem structured_load_reads_strided_region
    (op : MakeTensorPtrOp.t) (s : RewriterState)
    (loadLoc : Location) (elem : nat) (dims : list OpFoldResult) :
  MakeTensorPtrOp.isBlockPtr op = true \/ MakeTensorPtrOp.isStructuredPtr op = true ->
  is_sorted_greater (MakeTensorPtrOp.getOrder op) = true ->
  List.length (MakeTensorPtrOp.getSizes op)
  = List.length (MakeTensorPtrOp.getMixedStrides op) ->
  exists ptr s1 s2 ops,
    let shape := MakeTensorPtrOp.getSizes op in
    let load := {| LoadOp.getLoc := loadLoc; LoadOp.getPtr := ptr;
                   LoadOp.getTypeShape := shape; LoadOp.getTypeElement := elem;
                   LoadOp.hasMask := false; LoadOp.getMixedMaskDims := dims;
                   LoadOp.getOther := None |} in
    let alloc := AllocOp (List.length (created s1)) shape in
    MakeTensorPtrConverter.matchAndRewrite op s = Some (success, s1) /\
    rewrites s1 = rewrites s ++ [ReplaceOp (MakeTensorPtrOp.getLoc op) ptr] /\
    LoadConverter.matchAndRewrite load s1 = Some (success, s2) /\
    created s2 = created s ++ ops /\
    rewrites s2 = rewrites s1 ++ [ReplaceOp loadLoc (ToTensorOp alloc true true)] /\
    forall env mem idx,
      inRegion shape idx ->
      readView (execAll env ops mem) (evalMemRef env alloc) idx =
      mem (v_buffer (evalMemRef env (MakeTensorPtrOp.getBase op)))
          (scalarOffset env op
           + dot idx (map (evalOFR env) (MakeTensorPtrOp.getMixedStrides op))).
Proof.
  intros Hkind Hord Hlen.
  assert (Hrun : exists b,
             MakeTensorPtrConverter.matchAndRewrite op s =
             MakeTensorPtrConverter.rewritePtr (MakeTensorPtrOp.getTypeShape op) b op s).
  { unfold MakeTensorPtrConverter.matchAndRewrite. rewrite Hord. cbn [negb].
    unfold MakeTensorPtrConverter.rewriteBlockPtr,
      MakeTensorPtrConverter.rewriteStructuredPtr.
    destruct (MakeTensorPtrOp.isBlockPtr op); [exists true; reflexivity|].
    destruct Hkind as [Hk|Hk]; [discriminate|]. rewrite Hk. exists false; reflexivity. }
  destruct Hrun as [b Hrun].
  destruct (rewritePtr_run (MakeTensorPtrOp.getTypeShape op) b op s)
    as (targetOffset & ops1 & Hptr & _ & Ha1 & He).
  cbv zeta in Hptr. rewrite <- Hrun in Hptr.
  match type of Hptr with
  | _ = Some (_, {| created := _ ++ _ ++ [Def ?c]; diagnostics := _; rewrites := _ |}) =>
      set (castOp := c) in *
  end.
  match type of Hptr with _ = Some (_, ?st) => set (st1 := st) in * end.
  set (load := {| LoadOp.getLoc := loadLoc; LoadOp.getPtr := castOp;
                  LoadOp.getTypeShape := MakeTensorPtrOp.getSizes op;
                  LoadOp.getTypeElement := elem;
                  LoadOp.hasMask := false; LoadOp.getMixedMaskDims := dims;
                  LoadOp.getOther := None |}).
  pose proof (load_unmasked_single_run load st1 eq_refl eq_refl eq_refl) as Hrun2.
  cbv zeta in Hrun2.
  exists castOp, st1. eexists.
  exists ((ops1 ++ [Def castOp])
          ++ [Def (AllocOp (List.length (created st1)) (MakeTensorPtrOp.getSizes op));
              CopyOp castOp
                (AllocOp (List.length (created st1)) (MakeTensorPtrOp.getSizes op));
              Def (ToTensorOp
                     (AllocOp (List.length (created st1)) (MakeTensorPtrOp.getSizes op))
                     true true)]).
  cbv zeta.
  split; [exact Hptr|]. split; [reflexivity|]. split; [exact Hrun2|].
  split; [cbn [created st1 load LoadOp.getPtr LoadOp.getTypeShape];
          rewrite <- !app_assoc; reflexivity|].
  split; [reflexivity|].
  intros env mem idx Hidx.
  rewrite execAll_app.
  rewrite (execAll_defs env (ops1 ++ [Def castOp])).
  2:{ apply Forall_app. split; [|repeat constructor].
      eapply Forall_impl; [|exact Ha1]. intros [v| | | | |]; try discriminate.
      reflexivity. }
  unfold execAll. cbn [fold_left exec].
  rewrite copy_whole_memory.
  - unfold readView, addr. cbn [castOp evalMemRef v_buffer v_offset v_strides].
    rewrite He. f_equal. f_equal.
    rewrite getMixedStridesForMemref_adjustStrides, adjustStrides_addresses.
    + rewrite map_snd_combine_same_length by exact Hlen. reflexivity.
    + rewrite map_fst_combine_same_length by exact Hlen. exact Hidx.
  - cbn [castOp evalMemRef v_sizes]. apply map_evalOFR_Attr.
  - exact Hidx.
Qed.

(** X15 at [offsetExample]. *)
Lemma structured_load_reads_strided_region_witness :
  exists ptr s1 s2 ops,
    MakeTensorPtrConverter.matchAndRewrite offsetExample emptyState
    = Some (success, s1) /\
    LoadConverter.matchAndRewrite
      {| LoadOp.getLoc := 1%nat; LoadOp.getPtr := ptr;
         LoadOp.getTypeShape := [4; 4]; LoadOp.getTypeElement := 0%nat;
         LoadOp.hasMask := false; LoadOp.getMixedMaskDims := [];
         LoadOp.getOther := None |} s1
    = Some (success, s2) /\
    created s2 = ops /\
    readView (execAll (constEnv 0) ops addressMem)
             (evalMemRef (constEnv 0) (AllocOp (List.length (created s1)) [4; 4]))
             [2; 1] = 24.
Proof.
  destruct (structured_load_reads_strided_region offsetExample emptyState
              1%nat 0%nat [] (or_intror eq_refl) eq_refl eq_refl)
    as (ptr & s1 & s2 & ops & Hrun1 & _ & Hrun2 & Hc & _ & Hmem).
  exists ptr, s1, s2, ops. cbv zeta in *.
  split; [exact Hrun1|]. split; [exact Hrun2|]. split; [exact Hc|].
  etransitivity;
    [apply (Hmem (constEnv 0) addressMem [2; 1]); repeat constructor; lia
    |reflexivity].
Defined.

(** X16: converting a block or structured descriptor and then a masked load
    with a fill value through the view that replaces it gives a buffer that
    holds, at every index within the sizes, the element of the base buffer
    at the accumulated offset plus the sum of index times stride inside the
    mask, and the fill value outside it. *)
Theorem structured_masked_load_reads_or_fills
    (op : MakeTensorPtrOp.t) (s : RewriterState)
    (loadLoc : Location) (elem : nat) (dims : list OpFoldResult) (other : Value) :
  MakeTensorPtrOp.isBlockPtr op = true \/ MakeTensorPtrOp.isStructuredPtr op = true ->
  is_sorted_greater (MakeTensorPtrOp.getOrder op) = true ->
  List.length (MakeTensorPtrOp.getSizes op)
  = List.length (MakeTensorPtrOp.getMixedStrides op) ->
  List.length dims = List.length (MakeTensorPtrOp.getSizes op) ->
  exists ptr s1 s2 ops,
    let shape := MakeTensorPtrOp.getSizes op in
    let load := {| LoadOp.getLoc := loadLoc; LoadOp.getPtr := ptr;
                   LoadOp.getTypeShape := shape; LoadOp.getTypeElement := elem;
                   LoadOp.hasMask := true; LoadOp.getMixedMaskDims := dims;
                   LoadOp.getOther := Some other |} in
    let id := List.length (created s1) in
    let alloc := AllocOp id shape in
    MakeTensorPtrConverter.matchAndRewrite op s = Some (success, s1) /\
    rewrites s1 = rewrites s ++ [ReplaceOp (MakeTensorPtrOp.getLoc op) ptr] /\
    LoadConverter.matchAndRewrite load s1 = Some (success, s2) /\
    created s2 = created s ++ ops /\
    rewrites s2 = rewrites s1 ++ [ReplaceOp loadLoc (ToTensorOp alloc true true)] /\
    forall env mem,
      let base := v_buffer (evalMemRef env (MakeTensorPtrOp.getBase op)) in
      let masks := map (evalOFR env) dims in
      Forall2 (fun m e => 0 <= m <= e) masks shape ->
      base <> AllocBuffer id ->
      forall idx,
        inRegion shape idx ->
        readView (execAll env ops mem) (evalMemRef env alloc) idx =
        if inRegionb masks idx
        then mem base
                 (scalarOffset env op
                  + dot idx (map (evalOFR env) (MakeTensorPtrOp.getMixedStrides op)))
        else evalScalar env other.
Proof.
  intros Hkind Hord Hlen Hdims.
  assert (Hrun : exists b,
             MakeTensorPtrConverter.matchAndRewrite op s =
             MakeTensorPtrConverter.rewritePtr (MakeTensorPtrOp.getTypeShape op) b op s).
  { unfold MakeTensorPtrConverter.matchAndRewrite. rewrite Hord. cbn [negb].
    unfold MakeTensorPtrConverter.rewriteBlockPtr,
      MakeTensorPtrConverter.rewriteStructuredPtr.
    destruct (MakeTensorPtrOp.isBlockPtr op); [exists true; reflexivity|].
    destruct Hkind as [Hk|Hk]; [discriminate|]. rewrite Hk. exists false; reflexivity. }
  destruct Hrun as [b Hrun].
  destruct (rewritePtr_run (MakeTensorPtrOp.getTypeShape op) b op s)
    as (targetOffset & ops1 & Hptr & _ & Ha1 & He).
  cbv zeta in Hptr. rewrite <- Hrun in Hptr.
  match type of Hptr with
  | _ = Some (_, {| created := _ ++ _ ++ [Def ?c]; diagnostics := _; rewrites := _ |}) =>
      set (castOp := c) in *
  end.
  match type of Hptr with _ = Some (_, ?st) => set (st1 := st) in * end.
  set (load := {| LoadOp.getLoc := loadLoc; LoadOp.getPtr := castOp;
                  LoadOp.getTypeShape := MakeTensorPtrOp.getSizes op;
                  LoadOp.getTypeElement := elem;
                  LoadOp.hasMask := true; LoadOp.getMixedMaskDims := dims;
                  LoadOp.getOther := Some other |}).
  destruct (rewriteMaskedLoad_single_run load st1 other eq_refl eq_refl eq_refl Hdims)
    as (cond & before & Hrun2 & Hbefore & Hcond).
  cbv zeta in Hrun2.
  cbn [load LoadOp.getPtr LoadOp.getTypeShape LoadOp.getMixedMaskDims LoadOp.getLoc]
    in Hrun2, Hcond.
  exists castOp, st1. eexists.
  match type of Hrun2 with
  | _ = Some (_, {| created := _ ++ ?l; diagnostics := _; rewrites := _ |}) =>
      exists ((ops1 ++ [Def castOp]) ++ l)
  end.
  cbv zeta.
  split; [exact Hptr|]. split; [reflexivity|]. split; [exact Hrun2|].
  split; [cbn [created st1]; rewrite <- !app_assoc; reflexivity|].
  split; [reflexivity|].
  intros env mem Hmasks Hbase idx Hidx.
  rewrite execAll_app.
  rewrite (execAll_defs env (ops1 ++ [Def castOp])).
  2:{ apply Forall_app. split; [|repeat constructor].
      eapply Forall_impl; [|exact Ha1]. intros [v| | | | |]; try discriminate.
      reflexivity. }
  rewrite (masked_load_single_memory env mem (List.length (created st1))
             (MakeTensorPtrOp.getSizes op) castOp other cond dims before
             Hbefore (Hcond env) Hmasks Hbase idx Hidx).
  destruct (inRegionb (map (evalOFR env) dims) idx); [|reflexivity].
  unfold readView, addr. cbn [castOp evalMemRef v_buffer v_offset v_strides].
  rewrite He. f_equal. f_equal.
  rewrite getMixedStridesForMemref_adjustStrides, adjustStrides_addresses.
  - rewrite map_snd_combine_same_length by exact Hlen. reflexivity.
  - rewrite map_fst_combine_same_length by exact Hlen. exact Hidx.
Qed.

(** X16 at [offsetExample] with valid extents 2 by 3: index (1, 2) gets the
    element at address 15, index (2, 0) the fill value. *)
Lemma structured_masked_load_reads_or_fills_witness :
  exists ptr s1 s2 ops,
    MakeTensorPtrConverter.matchAndRewrite offsetExample emptyState
    = Some (success, s1) /\
    LoadConverter.matchAndRewrite
      {| LoadOp.getLoc := 1%nat; LoadOp.getPtr := ptr;
         LoadOp.getTypeShape := [4; 4]; LoadOp.getTypeElement := 0%nat;
         LoadOp.hasMask := true; LoadOp.getMixedMaskDims := [Attr 2; Attr 3];
         LoadOp.getOther := Some (BlockArgument 3) |} s1
    = Some (success, s2) /\
    created s2 = ops /\
    let alloc := evalMemRef splitEnv (AllocOp (List.length (created s1)) [4; 4]) in
    readView (execAll splitEnv ops addressMem) alloc [1; 2] = 15 /\
    readView (execAll splitEnv ops addressMem) alloc [2; 0] = -1.
Proof.
  destruct (structured_masked_load_reads_or_fills offsetExample emptyState
              1%nat 0%nat [Attr 2; Attr 3] (BlockArgument 3)
              (or_intror eq_refl) eq_refl eq_refl eq_refl)
    as (ptr & s1 & s2 & ops & Hrun1 & _ & Hrun2 & Hc & _ & Hmem).
  exists ptr, s1, s2, ops. cbv zeta in *.
  split; [exact Hrun1|]. split; [exact Hrun2|]. split; [exact Hc|].
  assert (Hmasks : Forall2 (fun m e => 0 <= m <= e) [2; 3] [4; 4])
    by (repeat constructor; lia).
  assert (Hbase : v_buffer (evalMemRef splitEnv
                              (MakeTensorPtrOp.getBase offsetExample))
                  <> AllocBuffer (List.length (created s1)))
    by discriminate.
  split.
  - etransitivity;
      [apply (Hmem splitEnv addressMem Hmasks Hbase [1; 2]); repeat constructor; lia
      |reflexivity].
  - etransitivity;
      [apply (Hmem splitEnv addressMem Hmasks Hbase [2; 0]); repeat constructor; lia
      |reflexivity].
Defined.

(** ** Sub-views, failing loads and erased casts *)

(** X17: [getSubview] fails on a source that is not a memref.  On a memref it
    creates one sub-view at offsets 0 with unit strides; the sub-view has the
    buffer and the offset of its source, the given sizes, and designates at
    every index of at most [rank] entries the element the source
    designates. *)
Theorem getSubview_addresses (rank : nat) (dims : list OpFoldResult)
    (source : Value) (s : RewriterState) :
  if isMemRef source then
    let v := SubViewOp source (repeat (Attr 0) rank) dims (repeat (Attr 1) rank) in
    getSubview rank dims source s =
    Some (v, {| created := created s ++ [Def v];
                diagnostics := diagnostics s;
                rewrites := rewrites s |}) /\
    forall env,
      let view := evalMemRef env v in
      let src := evalMemRef env source in
      v_buffer view = v_buffer src /\
      v_offset view = v_offset src /\
      v_sizes view = map (evalOFR env) dims /\
      forall idx mem,
        (List.length idx <= rank)%nat ->
        addr view idx = addr src idx /\ readView mem view idx = readView mem src idx
  else getSubview rank dims source s = None.
Proof.
  unfold getSubview. destruct (isMemRef source); [|reflexivity].
  cbv zeta. split; [reflexivity|].
  intros env. cbn [evalMemRef v_buffer v_offset v_sizes].
  rewrite !map_evalOFR_repeat, dot_repeat_zero, Z.add_0_r.
  repeat split.
  - unfold addr. cbn [v_offset v_strides]. rewrite dot_zipMul_ones by assumption.
    reflexivity.
  - unfold readView, addr. cbn [v_buffer v_offset v_strides].
    rewrite dot_zipMul_ones by assumption. reflexivity.
Qed.

Lemma bind_None {A B} (m : M A) (k : A -> M B) (s : RewriterState) :
  (forall a s1, k a s1 = None) -> bind m k s = None.
Proof.
  intros H. rewrite bind_run. destruct (m s) as [[a s1]|]; [apply H|reflexivity].
Qed.

(** X18: inputs on which the load conversion does not return: a pointer
    without defining operation; a fill value on an unmasked load; a combined
    cast with a wrap attribute whose operands are not exactly two; and a
    masked load through a pointer that is neither a wrap-tagged cast nor a
    memref. *)
Theorem load_assertion_failures (op : LoadOp.t) (s : RewriterState) :
  let ptr := LoadOp.getPtr op in
  (getDefiningOp ptr = None -> LoadConverter.matchAndRewrite op s = None) /\
  (LoadOp.hasMask op = false -> LoadOp.getOther op <> None ->
   LoadConverter.matchAndRewrite op s = None) /\
  (forall operands attrs,
      ptr = UnrealizedConversionCastOp operands attrs ->
      hasAttr WRAP_SIDE_BY_SIDE ptr || hasAttr WRAP_STACKED ptr = true ->
      List.length operands <> 2%nat ->
      LoadConverter.matchAndRewrite op s = None) /\
  (LoadOp.hasMask op = true ->
   hasAttr WRAP_SIDE_BY_SIDE ptr || hasAttr WRAP_STACKED ptr = false ->
   isMemRef ptr = false ->
   LoadConverter.matchAndRewrite op s = None).
Proof.
  cbv zeta. unfold LoadConverter.matchAndRewrite.
  split; [|split; [|split]].
  - intros Hdef.
    destruct (LoadOp.hasMask op);
      unfold LoadConverter.rewriteMaskedLoad, LoadConverter.rewriteStructuredLoad.
    + do 3 (apply bind_None; intros ? ?). rewrite bind_run, Hdef. reflexivity.
    + do 3 (apply bind_None; intros ? ?). rewrite bind_run, Hdef. reflexivity.
  - intros Hmask Hother. rewrite Hmask.
    unfold LoadConverter.rewriteStructuredLoad.
    do 2 (apply bind_None; intros ? ?).
    destruct (LoadOp.getOther op); [reflexivity|contradiction].
  - intros operands attrs Hptr Hattr Hlen.
    assert (Hdef : getDefiningOp (LoadOp.getPtr op) = Some (LoadOp.getPtr op))
      by (rewrite Hptr; reflexivity).
    assert (Hops : castOperands (LoadOp.getPtr op) = ret operands)
      by (rewrite Hptr; reflexivity).
    apply Nat.eqb_neq in Hlen.
    destruct (LoadOp.hasMask op);
      unfold LoadConverter.rewriteMaskedLoad, LoadConverter.rewriteStructuredLoad.
    + do 3 (apply bind_None; intros ? ?). rewrite bind_run, Hdef. cbn [ret].
      rewrite bind_run, Hattr, bind_run, Hops. cbn [ret].
      rewrite bind_run, Hlen. reflexivity.
    + do 3 (apply bind_None; intros ? ?). rewrite bind_run, Hdef. cbn [ret].
      rewrite bind_run, Hattr, bind_run, Hops. cbn [ret].
      rewrite bind_run, Hlen. reflexivity.
  - intros Hmask Hattr Hmem. rewrite Hmask.
    unfold LoadConverter.rewriteMaskedLoad.
    do 3 (apply bind_None; intros ? ?).
    rewrite bind_run.
    destruct (getDefiningOp (LoadOp.getPtr op)) as [d|] eqn:Hdef; [|reflexivity].
    apply getDefiningOp_Some in Hdef. subst d.
    cbn [ret]. rewrite bind_run, Hattr. unfold getSubview.
    rewrite !bind_run, Hmem. reflexivity.
Qed.

(** X18 at [argumentLoad]. *)
Lemma load_assertion_failures_witness :
  LoadConverter.matchAndRewrite argumentLoad emptyState = None.
Proof.
  exact (proj1 (load_assertion_failures argumentLoad emptyState) eq_refl).
Defined.

(** X19: a masked load through a split pair erases the combined cast that
    defines its pointer before it replaces the load; an unmasked load through
    a split pair does not erase it. *)
Theorem load_split_erases_pair (op : LoadOp.t) (s : RewriterState)
    (block1 block2 : Value) (wrapType : string) :
  LoadOp.getPtr op = UnrealizedConversionCastOp [block1; block2] [wrapType] ->
  wrapType = WRAP_SIDE_BY_SIDE \/ wrapType = WRAP_STACKED ->
  isMemRef block1 = true -> isMemRef block2 = true ->
  (if LoadOp.hasMask op
   then List.length (LoadOp.getMixedMaskDims op) = 2%nat /\
        List.length (LoadOp.getTypeShape op) = 2%nat
   else LoadOp.getOther op = None) ->
  let tensor :=
    ToTensorOp (AllocOp (List.length (created s)) (LoadOp.getTypeShape op)) true true in
  exists s',
    LoadConverter.matchAndRewrite op s = Some (success, s') /\
    rewrites s' =
    rewrites s
    ++ (if LoadOp.hasMask op then [EraseDefiningOp (LoadOp.getPtr op)] else [])
    ++ [ReplaceOp (LoadOp.getLoc op) tensor].
Proof.
  intros Hptr Hwrap Hm1 Hm2 Hwf.
  destruct op as [loc ptr shape elem mask dims otherValue].
  cbn [LoadOp.getPtr LoadOp.hasMask LoadOp.getOther LoadOp.getMixedMaskDims
       LoadOp.getTypeShape LoadOp.getLoc] in *.
  subst ptr.
  destruct mask.
  - destruct Hwf as [Hd Hs].
    destruct dims as [|mr [|mc [|]]]; try discriminate.
    destruct shape as [|R [|C [|]]]; try discriminate.
    destruct Hwrap; subst wrapType;
      destruct otherValue as [otherValue|], mr as [mr|mr], mc as [mc|mc].
    all: unfold_load; rewrite ?Hm1; cbn -[wrap64 Z.min];
         rewrite ?Hm2; cbn -[wrap64 Z.min].
    all: eexists; split; [reflexivity|].
    all: cbn [rewrites]; rewrite <- ?app_assoc; reflexivity.
  - rewrite Hwf.
    destruct Hwrap; subst wrapType.
    all: unfold_load.
    all: eexists; split; [reflexivity|].
    all: cbn [rewrites]; rewrite <- ?app_assoc; reflexivity.
Qed.

(** X19 at [maskedSplitLoad]. *)
Lemma load_split_erases_pair_witness :
  exists s' tensor,
    LoadConverter.matchAndRewrite maskedSplitLoad emptyState = Some (success, s') /\
    rewrites s' = [EraseDefiningOp (LoadOp.getPtr maskedSplitLoad);
                   ReplaceOp 0%nat tensor].
Proof.
  destruct (load_split_erases_pair maskedSplitLoad emptyState
              (BlockArgument 1) (BlockArgument 2) WRAP_SIDE_BY_SIDE
              eq_refl (or_introl eq_refl) eq_refl eq_refl (conj eq_refl eq_refl))
    as (s' & Hrun & Hrw).
  exists s'. eexists. split; [exact Hrun|]. rewrite Hrw. reflexivity.
Defined.

(** ** Stores *)

Lemma writeAll_ext (B : Buffer) (f f' g g' : list Z -> Z) (L : list (list Z))
    (mem : Mem) :
  (forall idx, In idx L -> f idx = f' idx /\ g idx = g' idx) ->
  writeAll B f g L mem = writeAll B f' g' L mem.
Proof.
  unfold writeAll. revert mem. induction L as [|x L IH]; intros mem H; [reflexivity|].
  cbn [fold_left]. destruct (H x (or_introl eq_refl)) as [-> ->].
  apply IH. intros idx Hin. apply H. right. exact Hin.
Qed.

Lemma vadd_zeros (l : list Z) :
  forall n, List.length l = n -> vadd (repeat 0 n) l = l.
Proof.
  induction l as [|x l IH]; intros [|n] H; try discriminate; [reflexivity|].
  cbn. f_equal. apply IH. cbn in H. lia.
Qed.

Lemma store_run (op : StoreOp.t) (s : RewriterState) (env : Env)
    (tensorOf : nat -> Tensor) (mem : Mem) :
  (StoreOp.hasMask op = true ->
   isMemRef (StoreOp.getPtr op) = true /\
   List.length (StoreOp.getMixedMaskDims op) = StoreOp.getValueRank op) ->
  exists ops,
    StoreConverter.matchAndRewrite op s =
    Some (success,
          {| created := created s ++ ops;
             diagnostics := diagnostics s;
             rewrites := rewrites s ++ [EraseOp (StoreOp.getLoc op)] |}) /\
    fold_left (fun m o => execStore env tensorOf o m) ops mem =
    writeAll (v_buffer (evalMemRef env (StoreOp.getPtr op)))
             (addr (evalMemRef env (StoreOp.getPtr op)))
             (evalTensor env tensorOf (StoreOp.getValue op))
             (indices (storedRegion env op)) mem.
Proof.
  intros Hwf. unfold StoreConverter.matchAndRewrite, storedRegion.
  destruct (StoreOp.hasMask op).
  - destruct (Hwf eq_refl) as [Hmem Hlen].
    unfold StoreConverter.getExtractSlice, getSubview. rewrite Hmem.
    eexists [_; _; _]. split.
    + cbn. rewrite <- !app_assoc. reflexivity.
    + cbn [fold_left execStore exec]. unfold materialize.
      cbn [evalMemRef v_buffer v_sizes].
      apply writeAll_ext. intros idx Hin.
      apply In_indices, inRegion_length in Hin.
      rewrite length_map, Hlen in Hin.
      split.
      * unfold addr. cbn [v_offset v_strides].
        rewrite !map_evalOFR_repeat, dot_repeat_zero, Z.add_0_r.
        rewrite dot_zipMul_ones by lia. reflexivity.
      * cbn [evalTensor]. rewrite !map_evalOFR_repeat.
        rewrite zipMul_ones by exact Hin.
        rewrite vadd_zeros by exact Hin. reflexivity.
  - eexists [_]. split; [reflexivity|]. reflexivity.
Qed.

(** X20: a store into a memref writes, at every index inside its region (the
    mask's extents, or the destination's extents without a mask), the element
    of the stored tensor at that index to the element the destination view
    designates there, provided no other index of the region designates the
    same element; it changes no other buffer and no element that no index of
    the region designates. *)
Theorem store_writes_exactly_the_masked_region (op : StoreOp.t) (s : RewriterState)
    (env : Env) (tensorOf : nat -> Tensor) (mem : Mem) :
  (StoreOp.hasMask op = true ->
   isMemRef (StoreOp.getPtr op) = true /\
   List.length (StoreOp.getMixedMaskDims op) = StoreOp.getValueRank op) ->
  let view := evalMemRef env (StoreOp.getPtr op) in
  let region := storedRegion env op in
  exists s' ops,
    StoreConverter.matchAndRewrite op s = Some (success, s') /\
    created s' = created s ++ ops /\
    let mem' := fold_left (fun m o => execStore env tensorOf o m) ops mem in
    (forall b a,
        b <> v_buffer view \/ (forall idx, inRegion region idx -> addr view idx <> a) ->
        mem' b a = mem b a) /\
    (forall idx,
        inRegion region idx ->
        (forall idx', inRegion region idx' -> addr view idx' = addr view idx ->
                      idx' = idx) ->
        mem' (v_buffer view) (addr view idx)
        = evalTensor env tensorOf (StoreOp.getValue op) idx).
Proof.
  intros Hwf view region.
  destruct (store_run op s env tensorOf mem Hwf) as (ops & Hrun & Hmem).
  eexists _, ops. split; [exact Hrun|]. split; [reflexivity|].
  cbv zeta. rewrite Hmem. fold view region. split.
  - intros b a [Hb|Hmiss].
    + apply writeAll_other. exact Hb.
    + destruct (Buffer_eqb_eq b (v_buffer view)) as [_ Heq].
      destruct (Buffer_eqb b (v_buffer view)) eqn:E.
      * apply Buffer_eqb_eq in E. subst b.
        apply writeAll_miss. intros idx Hin. apply Hmiss. apply In_indices. exact Hin.
      * apply writeAll_other. intros ->. rewrite Buffer_eqb_refl in E. discriminate.
  - intros idx Hidx Hinj.
    apply (writeAll_hit (v_buffer view) (addr view)
             (evalTensor env tensorOf (StoreOp.getValue op))).
    + apply In_indices. exact Hidx.
    + intros idx' Hin Heq. apply In_indices in Hin.
      rewrite (Hinj idx' Hin Heq). reflexivity.
Qed.

(** X20 at [maskedStore]: address 15 gets the tensor's element (1, 2),
    address 16 is left as it was. *)
Lemma store_writes_exactly_the_masked_region_witness :
  exists s' ops,
    StoreConverter.matchAndRewrite maskedStore emptyState = Some (success, s') /\
    created s' = ops /\
    let final := fold_left (fun m o => execStore (constEnv 0) indexTensor o m)
                           ops addressMem in
    final (BaseBuffer 0) 15 = 102 /\ final (BaseBuffer 0) 16 = 16.
Proof.
  destruct (store_writes_exactly_the_masked_region maskedStore emptyState
              (constEnv 0) indexTensor addressMem (fun _ => conj eq_refl eq_refl))
    as (s' & ops & Hrun & Hc & Hout & Hin).
  exists s', ops. split; [exact Hrun|]. split; [exact Hc|]. cbv zeta. split.
  - assert (Hidx : inRegion [2; 3] [1; 2]) by (repeat constructor; lia).
    etransitivity; [apply (Hin [1; 2] Hidx)|reflexivity].
    intros idx' Hidx' Heq.
    destruct (inRegion_pair _ _ _ Hidx') as (i & j & -> & Hi & Hj).
    unfold addr in Heq. cbn -[Z.add Z.mul] in Heq, Hi, Hj.
    assert (i = 1) by lia. assert (j = 2) by lia. subst. reflexivity.
  - etransitivity; [apply Hout|reflexivity].
    right. intros idx Hidx.
    destruct (inRegion_pair _ _ _ Hidx) as (i & j & -> & Hi & Hj).
    unfold addr. cbn -[Z.add Z.mul] in Hi, Hj |- *. lia.
Defined.

(** ** A descriptor and a store through it *)

Lemma inRegion_within (region sizes idx : list Z) :
  Forall2 (fun m e => m <= e) region sizes ->
  inRegion region idx -> inRegion sizes idx.
Proof.
  unfold inRegion. intros H. revert idx.
  induction H as [|m e region sizes Hme _ IH]; intros idx Hidx.
  - inversion Hidx. constructor.
  - inversion Hidx as [|i ? idx' ? Hi Hrest]; subst. constructor; [lia|].
    apply IH. exact Hrest.
Qed.

(** X21: converting a block or structured descriptor and then a store
    through the view that replaces it writes, at every index inside the
    store's region, the element of the stored tensor to the element of the
    base buffer at the accumulated offset plus the sum of index times stride,
    with the descriptor's own strides, and changes nothing else. *)
Theorem structured_store_writes_strided_region
    (op : MakeTensorPtrOp.t) (s : RewriterState)
    (storeLoc : Location) (value : Value) (rank : nat) (mask : bool)
    (dims : list OpFoldResult) :
  MakeTensorPtrOp.isBlockPtr op = true \/ MakeTensorPtrOp.isStructuredPtr op = true ->
  is_sorted_greater (MakeTensorPtrOp.getOrder op) = true ->
  List.length (MakeTensorPtrOp.getSizes op)
  = List.length (MakeTensorPtrOp.getMixedStrides op) ->
  (mask = true -> List.length dims = rank) ->
  exists ptr s1 s2 ops,
    let store := {| StoreOp.getLoc := storeLoc; StoreOp.getPtr := ptr;
                    StoreOp.getValue := value; StoreOp.getValueRank := rank;
                    StoreOp.hasMask := mask; StoreOp.getMixedMaskDims := dims |} in
    MakeTensorPtrConverter.matchAndRewrite op s = Some (success, s1) /\
    rewrites s1 = rewrites s ++ [ReplaceOp (MakeTensorPtrOp.getLoc op) ptr] /\
    StoreConverter.matchAndRewrite store s1 = Some (success, s2) /\
    created s2 = created s ++ ops /\
    rewrites s2 = rewrites s1 ++ [EraseOp storeLoc] /\
    forall env tensorOf mem,
      let base := v_buffer (evalMemRef env (MakeTensorPtrOp.getBase op)) in
      let region := if mask then map (evalOFR env) dims
                    else MakeTensorPtrOp.getSizes op in
      let address idx :=
        scalarOffset env op
        + dot idx (map (evalOFR env) (MakeTensorPtrOp.getMixedStrides op)) in
      let mem' := fold_left (fun m o => execStore env tensorOf o m) ops mem in
      Forall2 (fun m e => m <= e) region (MakeTensorPtrOp.getSizes op) ->
      (forall b a,
          b <> base \/ (forall idx, inRegion region idx -> address idx <> a) ->
          mem' b a = mem b a) /\
      (forall idx,
          inRegion region idx ->
          (forall idx', inRegion region idx' -> address idx' = address idx ->
                        idx' = idx) ->
          mem' base (address idx) = evalTensor env tensorOf value idx).
Proof.
  intros Hkind Hord Hlen Hrank.
  assert (Hrun : exists b,
             MakeTensorPtrConverter.matchAndRewrite op s =
             MakeTensorPtrConverter.rewritePtr (MakeTensorPtrOp.getTypeShape op) b op s).
  { unfold MakeTensorPtrConverter.matchAndRewrite. rewrite Hord. cbn [negb].
    unfold MakeTensorPtrConverter.rewriteBlockPtr,
      MakeTensorPtrConverter.rewriteStructuredPtr.
    destruct (MakeTensorPtrOp.isBlockPtr op); [exists true; reflexivity|].
    destruct Hkind as [Hk|Hk]; [discriminate|]. rewrite Hk. exists false; reflexivity. }
  destruct Hrun as [b Hrun].
  destruct (rewritePtr_run (MakeTensorPtrOp.getTypeShape op) b op s)
    as (targetOffset & ops1 & Hptr & _ & Ha1 & He).
  cbv zeta in Hptr. rewrite <- Hrun in Hptr.
  match type of Hptr with
  | _ = Some (_, {| created := _ ++ _ ++ [Def ?c]; diagnostics := _; rewrites := _ |}) =>
      set (castOp := c) in *
  end.
  match type of Hptr with _ = Some (_, ?st) => set (st1 := st) in * end.
  set (store := {| StoreOp.getLoc := storeLoc; StoreOp.getPtr := castOp;
                   StoreOp.getValue := value; StoreOp.getValueRank := rank;
                   StoreOp.hasMask := mask; StoreOp.getMixedMaskDims := dims |}).
  assert (Hwf : StoreOp.hasMask store = true ->
                isMemRef (StoreOp.getPtr store) = true /\
                List.length (StoreOp.getMixedMaskDims store)
                = StoreOp.getValueRank store).
  { intros Hm. split; [reflexivity|]. apply Hrank. exact Hm. }
  assert (Hstore : exists ops2,
             StoreConverter.matchAndRewrite store st1 =
             Some (success,
                   {| created := created st1 ++ ops2;
                      diagnostics := diagnostics st1;
                      rewrites := rewrites st1 ++ [EraseOp storeLoc] |}) /\
             forall env tensorOf mem,
               fold_left (fun m o => execStore env tensorOf o m) ops2 mem =
               writeAll (v_buffer (evalMemRef env castOp))
                        (addr (evalMemRef env castOp))
                        (evalTensor env tensorOf value)
                        (indices (storedRegion env store)) mem).
  { pose (env0 := constEnv 0).
    destruct (store_run store st1 env0 (fun _ _ => 0) (fun _ _ => 0) Hwf)
      as (ops2 & Hrun2 & _).
    exists ops2. split; [exact Hrun2|].
    intros env tensorOf mem.
    destruct (store_run store st1 env tensorOf mem Hwf) as (ops2' & Hrun2' & Hmem).
    rewrite Hrun2 in Hrun2'. injection Hrun2' as Heq.
    apply app_inv_head in Heq. subst ops2'. exact Hmem. }
  destruct Hstore as (ops2 & Hrun2 & Hmem).
  exists castOp, st1. eexists. exists ((ops1 ++ [Def castOp]) ++ ops2).
  cbv zeta.
  split; [exact Hptr|]. split; [reflexivity|]. split; [exact Hrun2|].
  split; [cbn [created st1]; rewrite <- !app_assoc; reflexivity|].
  split; [reflexivity|].
  intros env tensorOf mem Hwithin.
  set (region := if mask then map (evalOFR env) dims else MakeTensorPtrOp.getSizes op)
    in *.
  set (address := fun idx =>
         scalarOffset env op
         + dot idx (map (evalOFR env) (MakeTensorPtrOp.getMixedStrides op))).
  assert (Hregion : storedRegion env store = region).
  { unfold storedRegion, region. cbn [store StoreOp.hasMask StoreOp.getMixedMaskDims
                                       StoreOp.getPtr].
    destruct mask; [reflexivity|].
    cbn [castOp evalMemRef v_sizes]. apply map_evalOFR_Attr. }
  assert (Haddr : forall idx, inRegion region idx ->
                              addr (evalMemRef env castOp) idx = address idx).
  { intros idx Hidx. unfold addr, address.
    cbn [castOp evalMemRef v_offset v_strides]. rewrite He. f_equal.
    rewrite getMixedStridesForMemref_adjustStrides, adjustStrides_addresses.
    - rewrite map_snd_combine_same_length by exact Hlen. reflexivity.
    - rewrite map_fst_combine_same_length by exact Hlen.
      apply (inRegion_within region); assumption. }
  assert (Hmem' : fold_left (fun m o => execStore env tensorOf o m)
                            ((ops1 ++ [Def castOp]) ++ ops2) mem =
                  writeAll (v_buffer (evalMemRef env (MakeTensorPtrOp.getBase op)))
                           address (evalTensor env tensorOf value)
                           (indices region) mem).
  { rewrite fold_left_app.
    replace (fold_left (fun m o => execStore env tensorOf o m)
                       (ops1 ++ [Def castOp]) mem) with mem.
    - rewrite Hmem, Hregion.
      apply writeAll_ext. intros idx Hin. apply In_indices in Hin.
      split; [apply Haddr; exact Hin|reflexivity].
    - symmetry.
      assert (Hd : Forall (fun o => isDef o = true) (ops1 ++ [Def castOp])).
      { apply Forall_app. split; [|repeat constructor].
        eapply Forall_impl; [|exact Ha1]. intros [v| | | | |]; try discriminate.
        reflexivity. }
      clear - Hd. revert mem.
      induction Hd as [|o l Ho _ IH]; intros mem; [reflexivity|].
      cbn [fold_left]. rewrite IH. destruct o; try discriminate. reflexivity. }
  rewrite Hmem'. split.
  - intros b' a [Hb|Hmiss].
    + apply writeAll_other. exact Hb.
    + destruct (Buffer_eqb b'
                  (v_buffer (evalMemRef env (MakeTensorPtrOp.getBase op)))) eqn:E.
      * apply Buffer_eqb_eq in E. subst b'.
        apply writeAll_miss. intros idx Hin. apply Hmiss. apply In_indices. exact Hin.
      * apply writeAll_other. intros ->. rewrite Buffer_eqb_refl in E. discriminate.
  - intros idx Hidx Hinj.
    apply (writeAll_hit _ address (evalTensor env tensorOf value)).
    + apply In_indices. exact Hidx.
    + intros idx' Hin Heq. apply In_indices in Hin.
      rewrite (Hinj idx' Hin Heq). reflexivity.
Qed.

(** X21 at [offsetExample] with a masked store of 2 by 3 elements. *)
Lemma structured_store_writes_strided_region_witness :
  exists ptr s1 s2 ops,
    MakeTensorPtrConverter.matchAndRewrite offsetExample emptyState
    = Some (success, s1) /\
    StoreConverter.matchAndRewrite
      {| StoreOp.getLoc := 1%nat; StoreOp.getPtr := ptr;
         StoreOp.getValue := BlockArgument 5; StoreOp.getValueRank := 2%nat;
         StoreOp.hasMask := true; StoreOp.getMixedMaskDims := [Attr 2; Attr 3] |} s1
    = Some (success, s2) /\
    created s2 = ops /\
    let final := fold_left (fun m o => execStore (constEnv 0) indexTensor o m)
                           ops addressMem in
    final (BaseBuffer 0) 15 = 102 /\ final (BaseBuffer 0) 16 = 16.
Proof.
  destruct (structured_store_writes_strided_region offsetExample emptyState
              1%nat (BlockArgument 5) 2%nat true [Attr 2; Attr 3]
              (or_intror eq_refl) eq_refl eq_refl (fun _ => eq_refl))
    as (ptr & s1 & s2 & ops & Hrun1 & _ & Hrun2 & Hc & _ & Hmem).
  exists ptr, s1, s2, ops. cbv zeta in *.
  split; [exact Hrun1|]. split; [exact Hrun2|]. split; [exact Hc|].
  assert (Hwithin : Forall2 (fun m e => m <= e) [2; 3] [4; 4])
    by (repeat constructor; lia).
  destruct (Hmem (constEnv 0) indexTensor addressMem Hwithin) as [Hout Hin].
  assert (Ht : scalarOffset (constEnv 0) offsetExample = 3) by reflexivity.
  split.
  - assert (Hidx : inRegion [2; 3] [1; 2]) by (repeat constructor; lia).
    etransitivity; [apply (Hin [1; 2] Hidx)|reflexivity].
    intros idx' Hidx' Heq.
    destruct (inRegion_pair _ _ _ Hidx') as (i & j & -> & Hi & Hj).
    rewrite Ht in Heq. cbn -[Z.add Z.mul] in Heq, Hi, Hj.
    assert (i = 1) by lia. assert (j = 2) by lia. subst. reflexivity.
  - etransitivity; [apply Hout|reflexivity].
    right. intros idx Hidx.
    destruct (inRegion_pair _ _ _ Hidx) as (i & j & -> & Hi & Hj).
    rewrite Ht. cbn -[Z.add Z.mul] in Hi, Hj |- *. lia.
Defined.
